(** * NetCopy: the encrypted framed-message transport and the file-transfer
    state machine, embedded from the C++ sources.

    Conventions of the embedding.
    - A [uint8_t], [uint32_t] or [uint64_t] is a [Z]; where the C++ wraps
      (a [static_cast], an [&] mask) the wrap is written out.
    - [std::vector<uint8_t>] is [list Z]; [std::string] is [string], turned
      into bytes by its character codes.
    - A [size_t] cursor or length is a [nat].
    - A C++ exception is a value of [exn]; a function that may throw
      returns a [result].
    - A scalar member that a constructor leaves uninitialised takes its value
      from an [Indeterminate] record passed to the constructor.
    - The build modelled is the POSIX one (the [#else] branches of
      [#ifdef _WIN32]). *)

From Stdlib Require Import ZArith List Lia Bool.
From Stdlib Require Import Strings.String Strings.Ascii.
From stdpp Require Import base tactics option list numbers strings pretty gmap.

Local Open Scope string_scope.
Local Open Scope list_scope.
Local Open Scope Z_scope.

(* ================================================================== *)
(** * Part I: definitions                                              *)
(* ================================================================== *)

(** ** exceptions.h *)

Inductive exn : Type :=
| ProtocolException (message : string)
| CryptoException (message : string)
| FileException (message : string)
| NetworkException (message : string)
| runtime_error (message : string)
| invalid_argument (message : string)
| out_of_range (message : string).

(** [NetCopyException::what()]: each subclass prefixes its message in its
    constructor; [std::runtime_error] reports the message as given. *)
Definition what (e : exn) : string :=
  match e with
  | ProtocolException m => "Protocol error: " +:+ m
  | CryptoException m => "Crypto error: " +:+ m
  | FileException m => "File error: " +:+ m
  | NetworkException m => "Network error: " +:+ m
  | runtime_error m => m
  | invalid_argument m => m
  | out_of_range m => m
  end.

Inductive result (A : Type) : Type :=
| Ok (a : A)
| Throw (e : exn).
Arguments Ok {A} a.
Arguments Throw {A} e.

#[global] Instance result_ret : MRet result := fun A a => Ok a.
#[global] Instance result_bind : MBind result := fun A B f r =>
  match r with
  | Ok a => f a
  | Throw e => Throw e
  end.
#[global] Instance result_fmap : FMap result := fun A B f r =>
  match r with
  | Ok a => Ok (f a)
  | Throw e => Throw e
  end.

(** Fixed-width unsigned conversions. *)
Definition uint8 (z : Z) : Z := z mod 2 ^ 8.
Definition uint32 (z : Z) : Z := z mod 2 ^ 32.
Definition uint64 (z : Z) : Z := z mod 2 ^ 64.

Definition is_uint8 (z : Z) : Prop := 0 <= z < 2 ^ 8.
Definition is_uint32 (z : Z) : Prop := 0 <= z < 2 ^ 32.
Definition is_uint64 (z : Z) : Prop := 0 <= z < 2 ^ 64.

(** [buffer[i]] for an index already checked to be in range. *)
Definition at_ (buffer : list Z) (i : nat) : Z := nth i buffer 0.

(** Bytes of a [std::string] and back. *)
Definition bytes_of_string (s : string) : list Z :=
  map (fun c => Z.of_N (N_of_ascii c)) (list_ascii_of_string s).
Definition string_of_bytes (bs : list Z) : string :=
  string_of_list_ascii (map (fun b => ascii_of_N (Z.to_N b)) bs).

(** [bool] written as one byte, [b ? 1 : 0]. *)
Definition byte_of_bool (b : bool) : Z := if b then 1 else 0.

(** Values of members that a constructor leaves uninitialised. *)
Record Indeterminate : Type := {
  ind_u32 : Z;
  ind_u64 : Z;
  ind_u64' : Z;
  ind_flag : bool;
  ind_flag' : bool
}.

(** ** protocol/message.cpp: wire codec (anonymous namespace) *)

Module Wire.

Definition write_uint32 (buffer : list Z) (value : Z) : list Z :=
  buffer ++ [Z.land value 255;
             Z.land (Z.shiftr value 8) 255;
             Z.land (Z.shiftr value 16) 255;
             Z.land (Z.shiftr value 24) 255].

(** [for (int i = 0; i < 8; ++i) buffer.push_back((value >> (i * 8)) & 0xFF)] *)
Definition write_uint64 (buffer : list Z) (value : Z) : list Z :=
  fold_left (fun buf i => buf ++ [Z.land (Z.shiftr value (Z.of_nat i * 8)) 255])
            (seq 0 8) buffer.

Definition write_string (buffer : list Z) (str : string) : list Z :=
  write_uint32 buffer (uint32 (Z.of_nat (String.length str)))
    ++ bytes_of_string str.

Definition write_bytes (buffer : list Z) (data : list Z) : list Z :=
  write_uint32 buffer (uint32 (Z.of_nat (length data))) ++ data.

(** The four bytes are promoted to [int], shifted and or-ed, and the
    result converted to [uint32_t]. *)
Definition read_uint32 (buffer : list Z) (offset : nat) : result (Z * nat) :=
  if decide (length buffer < offset + 4)%nat then
    Throw (ProtocolException "Buffer underflow reading uint32")
  else
    let value :=
      uint32 (Z.lor (Z.lor (Z.lor (at_ buffer offset)
                                  (Z.shiftl (at_ buffer (offset + 1)) 8))
                           (Z.shiftl (at_ buffer (offset + 2)) 16))
                    (Z.shiftl (at_ buffer (offset + 3)) 24)) in
    Ok (value, (offset + 4)%nat).

Definition read_uint64 (buffer : list Z) (offset : nat) : result (Z * nat) :=
  if decide (length buffer < offset + 8)%nat then
    Throw (ProtocolException "Buffer underflow reading uint64")
  else
    let value :=
      fold_left (fun v i =>
                   Z.lor v (uint64 (Z.shiftl (at_ buffer (offset + i))
                                             (Z.of_nat i * 8))))
                (seq 0 8) 0 in
    Ok (value, (offset + 8)%nat).

Definition read_string (buffer : list Z) (offset : nat) : result (string * nat) :=
  '(length_, offset) ← read_uint32 buffer offset;
  if decide (length buffer < offset + Z.to_nat length_)%nat then
    Throw (ProtocolException "Buffer underflow reading string")
  else
    Ok (string_of_bytes (take (Z.to_nat length_) (drop offset buffer)),
        (offset + Z.to_nat length_)%nat).

Definition read_bytes (buffer : list Z) (offset : nat) : result (list Z * nat) :=
  '(length_, offset) ← read_uint32 buffer offset;
  if decide (length buffer < offset + Z.to_nat length_)%nat then
    Throw (ProtocolException "Buffer underflow reading bytes")
  else
    Ok (take (Z.to_nat length_) (drop offset buffer),
        (offset + Z.to_nat length_)%nat).

End Wire.

(** ** crypto/chacha20_poly1305.h: [enum class SecurityLevel : uint8_t] *)

Module SecurityLevel.
Definition HIGH : Z := 0.
Definition FAST : Z := 1.
Definition AES : Z := 2.
Definition AES_256_GCM : Z := 3.
End SecurityLevel.

(** ** protocol/message.h, protocol/message.cpp *)

(** [enum class MessageType : uint32_t]; a header read from the wire may
    carry any 32-bit value. *)
Module MessageType.
Definition HANDSHAKE_REQUEST : Z := 1.
Definition HANDSHAKE_RESPONSE : Z := 2.
Definition FILE_REQUEST : Z := 3.
Definition FILE_RESPONSE : Z := 4.
Definition FILE_DATA : Z := 5.
Definition FILE_ACK : Z := 6.
Definition RESUME_REQUEST : Z := 7.
Definition RESUME_RESPONSE : Z := 8.
Definition ERROR_MESSAGE : Z := 9.
End MessageType.

Module MessageHeader.
Record t : Type := {
  type : Z;
  payload_length : Z;
  sequence_number : Z;
  reserved : Z
}.

Definition SIZE : nat := 16.

Definition serialize (h : t) : list Z :=
  let buffer := [] in
  let buffer := Wire.write_uint32 buffer (type h) in
  let buffer := Wire.write_uint32 buffer (payload_length h) in
  let buffer := Wire.write_uint32 buffer (sequence_number h) in
  let buffer := Wire.write_uint32 buffer (reserved h) in
  buffer.

Definition deserialize (data : list Z) : result t :=
  if decide (length data < SIZE)%nat then
    Throw (ProtocolException "Invalid header size")
  else
    let offset := 0%nat in
    '(type, offset) ← Wire.read_uint32 data offset;
    '(payload_length, offset) ← Wire.read_uint32 data offset;
    '(sequence_number, offset) ← Wire.read_uint32 data offset;
    '(reserved, offset) ← Wire.read_uint32 data offset;
    Ok {| type := type; payload_length := payload_length;
          sequence_number := sequence_number; reserved := reserved |}.

(** [Message::Message(type, sequence_number = 0)]: [payload_length] is
    not initialised. *)
Definition ctor (i : Indeterminate) (ty : Z) : t :=
  {| type := ty; payload_length := ind_u32 i;
     sequence_number := 0; reserved := 0 |}.
End MessageHeader.

Module HandshakeRequest.
Record t : Type := {
  client_version : string;
  client_nonce : list Z;
  security_level : Z
}.

Definition ctor : t :=
  {| client_version := ""; client_nonce := [];
     security_level := SecurityLevel.HIGH |}.

Definition serialize_payload (self : t) : list Z :=
  let buffer := [] in
  let buffer := Wire.write_string buffer (client_version self) in
  let buffer := Wire.write_bytes buffer (client_nonce self) in
  let buffer := buffer ++ [uint8 (security_level self)] in
  buffer.

Definition deserialize_payload (self : t) (data : list Z) : result t :=
  let offset := 0%nat in
  '(client_version, offset) ← Wire.read_string data offset;
  '(client_nonce, offset) ← Wire.read_bytes data offset;
  if decide (offset < length data)%nat then
    Ok {| client_version := client_version; client_nonce := client_nonce;
          security_level := at_ data offset |}
  else
    Ok {| client_version := client_version; client_nonce := client_nonce;
          security_level := security_level self |}.
End HandshakeRequest.

Module HandshakeResponse.
Record t : Type := {
  server_version : string;
  server_nonce : list Z;
  authentication_required : bool;
  accepted_security_level : Z
}.

Definition ctor (i : Indeterminate) : t :=
  {| server_version := ""; server_nonce := [];
     authentication_required := ind_flag i;
     accepted_security_level := SecurityLevel.HIGH |}.

Definition serialize_payload (self : t) : list Z :=
  let buffer := [] in
  let buffer := Wire.write_string buffer (server_version self) in
  let buffer := Wire.write_bytes buffer (server_nonce self) in
  let buffer := buffer ++ [byte_of_bool (authentication_required self)] in
  let buffer := buffer ++ [uint8 (accepted_security_level self)] in
  buffer.

Definition deserialize_payload (self : t) (data : list Z) : result t :=
  let offset := 0%nat in
  '(server_version, offset) ← Wire.read_string data offset;
  '(server_nonce, offset) ← Wire.read_bytes data offset;
  if decide (length data <= offset)%nat then
    Throw (ProtocolException "Buffer underflow reading authentication flag")
  else
    let authentication_required := negb (at_ data offset =? 0) in
    let offset := (offset + 1)%nat in
    if decide (offset < length data)%nat then
      Ok {| server_version := server_version; server_nonce := server_nonce;
            authentication_required := authentication_required;
            accepted_security_level := at_ data offset |}
    else
      Ok {| server_version := server_version; server_nonce := server_nonce;
            authentication_required := authentication_required;
            accepted_security_level := accepted_security_level self |}.
End HandshakeResponse.

Module FileRequest.
Record t : Type := {
  source_path : string;
  destination_path : string;
  recursive : bool;
  resume_offset : Z
}.

Definition ctor (i : Indeterminate) : t :=
  {| source_path := ""; destination_path := "";
     recursive := ind_flag i; resume_offset := ind_u64 i |}.

Definition serialize_payload (self : t) : list Z :=
  let buffer := [] in
  let buffer := Wire.write_string buffer (source_path self) in
  let buffer := Wire.write_string buffer (destination_path self) in
  let buffer := buffer ++ [byte_of_bool (recursive self)] in
  let buffer := Wire.write_uint64 buffer (resume_offset self) in
  buffer.

Definition deserialize_payload (self : t) (data : list Z) : result t :=
  let offset := 0%nat in
  '(source_path, offset) ← Wire.read_string data offset;
  '(destination_path, offset) ← Wire.read_string data offset;
  if decide (length data <= offset)%nat then
    Throw (ProtocolException "Buffer underflow reading recursive flag")
  else
    let recursive := negb (at_ data offset =? 0) in
    let offset := (offset + 1)%nat in
    '(resume_offset, offset) ← Wire.read_uint64 data offset;
    Ok {| source_path := source_path; destination_path := destination_path;
          recursive := recursive; resume_offset := resume_offset |}.
End FileRequest.

Module FileResponse.
Record t : Type := {
  success : bool;
  error_message : string;
  file_size : Z;
  resume_offset : Z
}.

Definition ctor (i : Indeterminate) : t :=
  {| success := ind_flag i; error_message := "";
     file_size := ind_u64 i; resume_offset := ind_u64' i |}.

Definition serialize_payload (self : t) : list Z :=
  let buffer := [] in
  let buffer := buffer ++ [byte_of_bool (success self)] in
  let buffer := Wire.write_string buffer (error_message self) in
  let buffer := Wire.write_uint64 buffer (file_size self) in
  let buffer := Wire.write_uint64 buffer (resume_offset self) in
  buffer.

Definition deserialize_payload (self : t) (data : list Z) : result t :=
  let offset := 0%nat in
  if decide (length data <= offset)%nat then
    Throw (ProtocolException "Buffer underflow reading success flag")
  else
    let success := negb (at_ data offset =? 0) in
    let offset := (offset + 1)%nat in
    '(error_message, offset) ← Wire.read_string data offset;
    '(file_size, offset) ← Wire.read_uint64 data offset;
    '(resume_offset, offset) ← Wire.read_uint64 data offset;
    Ok {| success := success; error_message := error_message;
          file_size := file_size; resume_offset := resume_offset |}.
End FileResponse.

Module FileData.
Record t : Type := {
  offset : Z;
  data : list Z;
  is_last_chunk : bool;
  compressed : bool
}.

Definition ctor (i : Indeterminate) : t :=
  {| offset := ind_u64 i; data := [];
     is_last_chunk := ind_flag i; compressed := ind_flag' i |}.

Definition serialize_payload (self : t) : list Z :=
  let buffer := [] in
  let buffer := Wire.write_uint64 buffer (offset self) in
  let buffer := Wire.write_bytes buffer (data self) in
  let buffer := buffer ++ [byte_of_bool (is_last_chunk self)] in
  buffer.

Definition deserialize_payload (self : t) (data_buffer : list Z) : result t :=
  let offset_pos := 0%nat in
  '(offset, offset_pos) ← Wire.read_uint64 data_buffer offset_pos;
  '(data, offset_pos) ← Wire.read_bytes data_buffer offset_pos;
  if decide (length data_buffer <= offset_pos)%nat then
    Throw (ProtocolException "Buffer underflow reading last chunk flag")
  else
    Ok {| offset := offset; data := data;
          is_last_chunk := negb (at_ data_buffer offset_pos =? 0);
          compressed := compressed self |}.
End FileData.

Module FileAck.
Record t : Type := {
  bytes_received : Z;
  success : bool;
  error_message : string
}.

Definition ctor (i : Indeterminate) : t :=
  {| bytes_received := ind_u64 i; success := ind_flag i;
     error_message := "" |}.

Definition serialize_payload (self : t) : list Z :=
  let buffer := [] in
  let buffer := Wire.write_uint64 buffer (bytes_received self) in
  let buffer := buffer ++ [byte_of_bool (success self)] in
  let buffer := Wire.write_string buffer (error_message self) in
  buffer.

Definition deserialize_payload (self : t) (data : list Z) : result t :=
  let offset := 0%nat in
  '(bytes_received, offset) ← Wire.read_uint64 data offset;
  if decide (length data <= offset)%nat then
    Throw (ProtocolException "Buffer underflow reading success flag")
  else
    let success := negb (at_ data offset =? 0) in
    let offset := (offset + 1)%nat in
    '(error_message, offset) ← Wire.read_string data offset;
    Ok {| bytes_received := bytes_received; success := success;
          error_message := error_message |}.
End FileAck.

Module ErrorMessage.
Record t : Type := {
  error_code : Z;
  error_description : string
}.

Definition ctor (i : Indeterminate) : t :=
  {| error_code := ind_u32 i; error_description := "" |}.

Definition serialize_payload (self : t) : list Z :=
  let buffer := [] in
  let buffer := Wire.write_uint32 buffer (error_code self) in
  let buffer := Wire.write_string buffer (error_description self) in
  buffer.

Definition deserialize_payload (self : t) (data : list Z) : result t :=
  let offset := 0%nat in
  '(error_code, offset) ← Wire.read_uint32 data offset;
  '(error_description, offset) ← Wire.read_string data offset;
  Ok {| error_code := error_code; error_description := error_description |}.
End ErrorMessage.

(** The class hierarchy under [Message]: the derived part of an object. *)
Inductive Body : Type :=
| BHandshakeRequest (b : HandshakeRequest.t)
| BHandshakeResponse (b : HandshakeResponse.t)
| BFileRequest (b : FileRequest.t)
| BFileResponse (b : FileResponse.t)
| BFileData (b : FileData.t)
| BFileAck (b : FileAck.t)
| BErrorMessage (b : ErrorMessage.t).

Module Message.
Record t : Type := {
  header_ : MessageHeader.t;
  body : Body
}.

Definition get_type (m : t) : Z := MessageHeader.type (header_ m).

(** The type each derived constructor passes to [Message::Message]. *)
Definition class_type (b : Body) : Z :=
  match b with
  | BHandshakeRequest _ => MessageType.HANDSHAKE_REQUEST
  | BHandshakeResponse _ => MessageType.HANDSHAKE_RESPONSE
  | BFileRequest _ => MessageType.FILE_REQUEST
  | BFileResponse _ => MessageType.FILE_RESPONSE
  | BFileData _ => MessageType.FILE_DATA
  | BFileAck _ => MessageType.FILE_ACK
  | BErrorMessage _ => MessageType.ERROR_MESSAGE
  end.

(** A message object as its constructor leaves it, its members then
    assigned by the caller. *)
Definition make (i : Indeterminate) (b : Body) : t :=
  {| header_ := MessageHeader.ctor i (class_type b); body := b |}.

(** Virtual [serialize_payload]. *)
Definition serialize_payload (b : Body) : list Z :=
  match b with
  | BHandshakeRequest p => HandshakeRequest.serialize_payload p
  | BHandshakeResponse p => HandshakeResponse.serialize_payload p
  | BFileRequest p => FileRequest.serialize_payload p
  | BFileResponse p => FileResponse.serialize_payload p
  | BFileData p => FileData.serialize_payload p
  | BFileAck p => FileAck.serialize_payload p
  | BErrorMessage p => ErrorMessage.serialize_payload p
  end.

(** Virtual [deserialize_payload], on the object [self]. *)
Definition deserialize_payload (self : Body) (data : list Z) : result Body :=
  match self with
  | BHandshakeRequest p => BHandshakeRequest <$> HandshakeRequest.deserialize_payload p data
  | BHandshakeResponse p => BHandshakeResponse <$> HandshakeResponse.deserialize_payload p data
  | BFileRequest p => BFileRequest <$> FileRequest.deserialize_payload p data
  | BFileResponse p => BFileResponse <$> FileResponse.deserialize_payload p data
  | BFileData p => BFileData <$> FileData.deserialize_payload p data
  | BFileAck p => BFileAck <$> FileAck.deserialize_payload p data
  | BErrorMessage p => BErrorMessage <$> ErrorMessage.deserialize_payload p data
  end.

Definition serialize (m : t) : list Z :=
  let payload := serialize_payload (body m) in
  let header :=
    {| MessageHeader.type := MessageHeader.type (header_ m);
       MessageHeader.payload_length := uint32 (Z.of_nat (length payload));
       MessageHeader.sequence_number := MessageHeader.sequence_number (header_ m);
       MessageHeader.reserved := MessageHeader.reserved (header_ m) |} in
  let header_data := MessageHeader.serialize header in
  header_data ++ payload.

(** [std::make_unique<T>()] in the [switch]: the fresh object of the
    class selected by the header's type. *)
Definition make_unique (i : Indeterminate) (ty : Z) : result Body :=
  match ty with
  | 1 => Ok (BHandshakeRequest HandshakeRequest.ctor)
  | 2 => Ok (BHandshakeResponse (HandshakeResponse.ctor i))
  | 3 => Ok (BFileRequest (FileRequest.ctor i))
  | 4 => Ok (BFileResponse (FileResponse.ctor i))
  | 5 => Ok (BFileData (FileData.ctor i))
  | 6 => Ok (BFileAck (FileAck.ctor i))
  | 9 => Ok (BErrorMessage (ErrorMessage.ctor i))
  | _ => Throw (ProtocolException "Unknown message type")
  end.

Definition deserialize (i : Indeterminate) (data : list Z) : result t :=
  if decide (length data < MessageHeader.SIZE)%nat then
    Throw (ProtocolException "Message too short")
  else
    header ← MessageHeader.deserialize data;
    if decide (length data <
               MessageHeader.SIZE + Z.to_nat (MessageHeader.payload_length header))%nat
    then Throw (ProtocolException "Incomplete message")
    else
      let payload :=
        take (Z.to_nat (MessageHeader.payload_length header))
             (drop MessageHeader.SIZE data) in
      message ← make_unique i (MessageHeader.type header);
      message ← deserialize_payload message payload;
      Ok {| header_ := header; body := message |}.
End Message.

(** ** Helpers shared by the ciphers *)

(** [std::array<uint8_t, n>]: exactly [n] bytes. *)
Definition array_of (n : nat) (l : list Z) : list Z :=
  take n (l ++ replicate n 0).

(** [for (i = 0; i < chunk.size(); ++i) chunk[i] ^= k(i0 + i)] *)
Fixpoint xor_stream (k : nat -> Z) (i0 : nat) (chunk : list Z) : list Z :=
  match chunk with
  | [] => []
  | b :: chunk => Z.lxor b (k i0) :: xor_stream k (S i0) chunk
  end.

(** The last [n] bytes of a buffer known to hold at least [n]. *)
Definition last_n (n : nat) (l : list Z) : list Z := drop (length l - n) l.
(** All but the last [n] bytes. *)
Definition but_last_n (n : nat) (l : list Z) : list Z := take (length l - n) l.

(** Four bytes at [off] as a little-endian 32-bit word (a [memcpy] into a
    [uint32_t] on a little-endian host, or [load32]). *)
Definition load32 (bs : list Z) (off : nat) : Z :=
  uint32 (Z.lor (Z.lor (Z.lor (at_ bs off) (Z.shiftl (at_ bs (off + 1)) 8))
                       (Z.shiftl (at_ bs (off + 2)) 16))
                (Z.shiftl (at_ bs (off + 3)) 24)).

(** A 32-bit word as four little-endian bytes ([store32]). *)
Definition store32 (value : Z) : list Z :=
  [Z.land value 255; Z.land (Z.shiftr value 8) 255;
   Z.land (Z.shiftr value 16) 255; Z.land (Z.shiftr value 24) 255].

(** One round of the mixing loop [XorCipher::derive_key] and
    [AesCtr::derive_key] share: every byte of [data] is xored with
    [(round * 31 + i * 17) & 0xFF], then [data] is xored into the first
    bytes of [key]. *)
Definition derive_round (round : Z) (st : list Z * list Z) : list Z * list Z :=
  let '(data, key) := st in
  let data :=
    imap (fun i d => Z.lxor d (Z.land (uint64 (round * 31 + Z.of_nat i * 17)) 255))
         data in
  let key :=
    imap (fun i k => if decide (i < length data)%nat then Z.lxor k (at_ data i) else k)
         key in
  (data, key).

(** [for (int round = 0; round < rounds; ++round)] from the password's
    bytes and a key of [key_size] zeros, then the replacement of an all-zero
    key by [fallback]. *)
Definition derive_rounds (rounds key_size : nat) (fallback : Z) (password : string)
  : list Z :=
  let data := bytes_of_string password in
  let '(_, key) :=
    fold_left (fun st round => derive_round (Z.of_nat round) st)
              (seq 0 rounds) (data, replicate key_size 0) in
  if forallb (Z.eqb 0) key then replicate key_size fallback else key.

(** ** crypto/xor_cipher.cpp *)

Module XorCipher.

Definition KEY_SIZE : nat := 32.
Definition CHUNK_SIZE : nat := 1024.

Record t : Type := {
  base_key_ : list Z;
  current_key_ : list Z;
  round_counter_ : Z
}.

Definition ctor (key : list Z) : t :=
  {| base_key_ := array_of KEY_SIZE key;
     current_key_ := array_of KEY_SIZE key;
     round_counter_ := 0 |}.

Definition update_key (c : t) : t :=
  let round_counter := uint64 (round_counter_ c + 1) in
  {| base_key_ := base_key_ c;
     current_key_ :=
       imap (fun i k =>
               let k := Z.lxor k (Z.land (uint64 (round_counter * 31 + Z.of_nat i * 17)) 255) in
               uint8 (Z.lor (Z.shiftl k 1) (Z.shiftr k 7)))
            (current_key_ c);
     round_counter_ := round_counter |}.

(** The [while (pos < result.size())] loop, one chunk per iteration; [fuel]
    bounds the number of iterations. *)
Fixpoint process_loop (fuel : nat) (c : t) (data : list Z) : t * list Z :=
  match fuel with
  | O => (c, [])
  | S fuel =>
      match data with
      | [] => (c, [])
      | _ =>
          let chunk := take CHUNK_SIZE data in
          let rest := drop CHUNK_SIZE data in
          let out :=
            xor_stream (fun i => at_ (current_key_ c) (i mod KEY_SIZE)) 0 chunk in
          match rest with
          | [] => (c, out)
          | _ =>
              let '(c, out') := process_loop fuel (update_key c) rest in
              (c, out ++ out')
          end
      end
  end.

Definition process (c : t) (data : list Z) : t * list Z :=
  process_loop (length data) c data.

Definition reset (c : t) : t :=
  {| base_key_ := base_key_ c;
     current_key_ := base_key_ c;
     round_counter_ := 0 |}.

(** [process_chunk]: the chunk xored in place, then the key rolled on. *)
Definition process_chunk (c : t) (data : list Z) : t * list Z :=
  (update_key c,
   xor_stream (fun i => at_ (current_key_ c) (i mod KEY_SIZE)) 0 data).

(** A stream of chunks put through [process_chunk] one after the other on
    one cipher object. *)
Fixpoint process_chunks (c : t) (chunks : list (list Z)) : t * list (list Z) :=
  match chunks with
  | [] => (c, [])
  | chunk :: chunks =>
      let '(c, out) := process_chunk c chunk in
      let '(c, outs) := process_chunks c chunks in
      (c, out :: outs)
  end.

Definition derive_key (password : string) : list Z :=
  derive_rounds 1000 KEY_SIZE 0x5A password.

End XorCipher.

(** ** crypto/chacha20_poly1305.cpp *)

Module ChaCha20.

Definition BLOCK_SIZE : nat := 64.

(** [state_[16]] after the constructor. *)
Definition ctor (key nonce : list Z) (counter : Z) : list Z :=
  [0x61707865; 0x3320646e; 0x79622d32; 0x6b206574]
    ++ map (fun j => load32 key (4 * j)) (seq 0 8)
    ++ [counter]
    ++ map (fun j => load32 nonce (4 * j)) (seq 0 3).

Definition rotl (value : Z) (shift : Z) : Z :=
  uint32 (Z.lor (Z.shiftl value shift) (Z.shiftr value (32 - shift))).

Definition quarter_round (a b c d : Z) : Z * Z * Z * Z :=
  let a := uint32 (a + b) in let d := Z.lxor d a in let d := rotl d 16 in
  let c := uint32 (c + d) in let b := Z.lxor b c in let b := rotl b 12 in
  let a := uint32 (a + b) in let d := Z.lxor d a in let d := rotl d 8 in
  let c := uint32 (c + d) in let b := Z.lxor b c in let b := rotl b 7 in
  (a, b, c, d).

(** [quarter_round(ws[ia], ws[ib], ws[ic], ws[id])] on references. *)
Definition quarter_round_at (ws : list Z) (ia ib ic id : nat) : list Z :=
  let '(a, b, c, d) :=
    quarter_round (at_ ws ia) (at_ ws ib) (at_ ws ic) (at_ ws id) in
  <[id:=d]> (<[ic:=c]> (<[ib:=b]> (<[ia:=a]> ws))).

Definition double_round (ws : list Z) : list Z :=
  let ws := quarter_round_at ws 0 4 8 12 in
  let ws := quarter_round_at ws 1 5 9 13 in
  let ws := quarter_round_at ws 2 6 10 14 in
  let ws := quarter_round_at ws 3 7 11 15 in
  let ws := quarter_round_at ws 0 5 10 15 in
  let ws := quarter_round_at ws 1 6 11 12 in
  let ws := quarter_round_at ws 2 7 8 13 in
  let ws := quarter_round_at ws 3 4 9 14 in
  ws.

Definition generate_keystream (state : list Z) : list Z :=
  let working_state := Nat.iter 10 double_round state in
  let working_state :=
    zip_with (fun w s => uint32 (w + s)) working_state state in
  concat (map store32 working_state).

(** The [while (offset < length)] loop of [encrypt], one block per
    iteration. *)
Fixpoint encrypt_loop (fuel : nat) (state : list Z) (data : list Z) : list Z :=
  match fuel with
  | O => []
  | S fuel =>
      match data with
      | [] => []
      | _ =>
          let keystream := generate_keystream state in
          let chunk := take BLOCK_SIZE data in
          xor_stream (at_ keystream) 0 chunk
            ++ encrypt_loop fuel (<[12%nat := uint32 (at_ state 12 + 1)]> state)
                            (drop BLOCK_SIZE data)
      end
  end.

Definition encrypt (state : list Z) (data : list Z) : list Z :=
  encrypt_loop (length data) state data.

End ChaCha20.

Module Poly1305.

Definition KEY_SIZE : nat := 32.
Definition TAG_SIZE : nat := 16.

Record t : Type := { r_ : list Z; s_ : list Z; h_ : list Z }.

Definition ctor (key : list Z) : t :=
  {| r_ := [Z.land (load32 key 0) 0x3ffffff;
            Z.land (Z.shiftr (load32 key 3) 2) 0x3ffff03;
            Z.land (Z.shiftr (load32 key 6) 4) 0x3ffc0ff;
            Z.land (Z.shiftr (load32 key 9) 6) 0x3f03fff;
            Z.land (Z.shiftr (load32 key 12) 8) 0x00fffff];
     s_ := [load32 key 16; load32 key 20; load32 key 24; load32 key 28];
     h_ := [0; 0; 0; 0; 0] |}.

(** The carry loop [carry += x[i]; h_[i] = carry & 0xffffffff; carry >>= 32]
    over the words [xs]. *)
Fixpoint carry_propagate (carry : Z) (xs : list Z) : list Z :=
  match xs with
  | [] => []
  | x :: xs =>
      let carry := uint64 (carry + x) in
      Z.land carry 0xffffffff :: carry_propagate (Z.shiftr carry 32) xs
  end.

Definition multiply_by_r (p : t) : t :=
  let d :=
    map (fun i =>
           fold_left (fun di j =>
                        let di :=
                          uint64 (di + uint64 (at_ (h_ p) j
                                               * at_ (r_ p) ((i + 5 - j) mod 5))) in
                        if decide (i < j)%nat then
                          uint64 (di + uint64 (uint64 (at_ (h_ p) j
                                                       * at_ (r_ p) (i + 5 - j)) * 5))
                        else di)
                     (seq 0 5) 0)
        (seq 0 5) in
  {| r_ := r_ p; s_ := s_ p; h_ := carry_propagate 0 d |}.

(** One iteration of the loop of [update] on the chunk [chunk] of at most
    16 bytes. *)
Definition update_chunk (p : t) (chunk : list Z) : t :=
  let chunk_size := length chunk in
  let c :=
    fold_left (fun c i =>
                 <[(i / 4)%nat :=
                     uint32 (Z.lor (at_ c (i / 4))
                                   (Z.shiftl (at_ chunk i) (8 * Z.of_nat (i mod 4))))]> c)
              (seq 0 chunk_size) [0; 0; 0; 0; 0] in
  let c :=
    <[(chunk_size / 4)%nat :=
        uint32 (Z.lor (at_ c (chunk_size / 4))
                      (Z.shiftl 1 (8 * Z.of_nat (chunk_size mod 4))))]> c in
  let h := carry_propagate 0 (zip_with (fun h c => uint64 h + c) (h_ p) c) in
  multiply_by_r {| r_ := r_ p; s_ := s_ p; h_ := h |}.

Fixpoint update_loop (fuel : nat) (p : t) (data : list Z) : t :=
  match fuel with
  | O => p
  | S fuel =>
      match data with
      | [] => p
      | _ => update_loop fuel (update_chunk p (take 16 data)) (drop 16 data)
      end
  end.

Definition update (p : t) (data : list Z) : t :=
  update_loop (length data) p data.

(** [finalize]: the tag written, sixteen bytes. *)
Definition finalize (p : t) : list Z :=
  let h := carry_propagate 0 (h_ p) in
  let sums := carry_propagate 0 (zip_with (fun h s => uint64 h + s) (take 4 h) (s_ p)) in
  concat (map store32 sums).

(** The array sizes of an object: [h_[5]] and [s_[4]]. *)
Definition shape (p : t) : Prop :=
  length (h_ p) = 5%nat /\ length (s_ p) = 4%nat.

End Poly1305.

Module ChaCha20Poly1305.

Definition KEY_SIZE : nat := 32.
Definition NONCE_SIZE : nat := 12.
Definition TAG_SIZE : nat := 16.

(** The object holds its key ([Impl::key_]). *)
Record t : Type := { key_ : list Z }.

Definition ctor (key : list Z) : t := {| key_ := array_of KEY_SIZE key |}.

(** The tag both [encrypt] and [decrypt] compute over the ciphertext. *)
Definition compute_tag (c : t) (nonce additional_data ciphertext : list Z) : list Z :=
  let poly_key :=
    ChaCha20.encrypt (ChaCha20.ctor (key_ c) nonce 0) (replicate 32 0) in
  let poly := Poly1305.ctor poly_key in
  let poly := Poly1305.update poly additional_data in
  let poly := Poly1305.update poly ciphertext in
  let lengths :=
    Wire.write_uint64 (Wire.write_uint64 [] (Z.of_nat (length additional_data)))
                      (Z.of_nat (length ciphertext)) in
  let poly := Poly1305.update poly lengths in
  Poly1305.finalize poly.

Definition encrypt (c : t) (plaintext nonce additional_data : list Z) : list Z :=
  let ciphertext := ChaCha20.encrypt (ChaCha20.ctor (key_ c) nonce 1) plaintext in
  let tag := compute_tag c nonce additional_data ciphertext in
  ciphertext ++ tag.

Definition decrypt (c : t) (ciphertext nonce tag additional_data : list Z)
  : result (list Z) :=
  if decide (length ciphertext < TAG_SIZE)%nat then
    Throw (CryptoException "Ciphertext too short")
  else
    let actual_ciphertext := but_last_n TAG_SIZE ciphertext in
    let computed_tag := compute_tag c nonce additional_data actual_ciphertext in
    if decide (computed_tag = tag) then
      Ok (ChaCha20.encrypt (ChaCha20.ctor (key_ c) nonce 1) actual_ciphertext)
    else
      Throw (CryptoException "Authentication failed").

End ChaCha20Poly1305.

(** ** crypto/aes_ctr.cpp *)

Module AesCtr.

Definition KEY_SIZE : nat := 32.
Definition BLOCK_SIZE : nat := 16.
Definition IV_SIZE : nat := 16.

Definition sbox : list Z := [
   0x63; 0x7c; 0x77; 0x7b; 0xf2; 0x6b; 0x6f; 0xc5; 0x30; 0x01; 0x67; 0x2b; 0xfe; 0xd7; 0xab; 0x76;
   0xca; 0x82; 0xc9; 0x7d; 0xfa; 0x59; 0x47; 0xf0; 0xad; 0xd4; 0xa2; 0xaf; 0x9c; 0xa4; 0x72; 0xc0;
   0xb7; 0xfd; 0x93; 0x26; 0x36; 0x3f; 0xf7; 0xcc; 0x34; 0xa5; 0xe5; 0xf1; 0x71; 0xd8; 0x31; 0x15;
   0x04; 0xc7; 0x23; 0xc3; 0x18; 0x96; 0x05; 0x9a; 0x07; 0x12; 0x80; 0xe2; 0xeb; 0x27; 0xb2; 0x75;
   0x09; 0x83; 0x2c; 0x1a; 0x1b; 0x6e; 0x5a; 0xa0; 0x52; 0x3b; 0xd6; 0xb3; 0x29; 0xe3; 0x2f; 0x84;
   0x53; 0xd1; 0x00; 0xed; 0x20; 0xfc; 0xb1; 0x5b; 0x6a; 0xcb; 0xbe; 0x39; 0x4a; 0x4c; 0x58; 0xcf;
   0xd0; 0xef; 0xaa; 0xfb; 0x43; 0x4d; 0x33; 0x85; 0x45; 0xf9; 0x02; 0x7f; 0x50; 0x3c; 0x9f; 0xa8;
   0x51; 0xa3; 0x40; 0x8f; 0x92; 0x9d; 0x38; 0xf5; 0xbc; 0xb6; 0xda; 0x21; 0x10; 0xff; 0xf3; 0xd2;
   0xcd; 0x0c; 0x13; 0xec; 0x5f; 0x97; 0x44; 0x17; 0xc4; 0xa7; 0x7e; 0x3d; 0x64; 0x5d; 0x19; 0x73;
   0x60; 0x81; 0x4f; 0xdc; 0x22; 0x2a; 0x90; 0x88; 0x46; 0xee; 0xb8; 0x14; 0xde; 0x5e; 0x0b; 0xdb;
   0xe0; 0x32; 0x3a; 0x0a; 0x49; 0x06; 0x24; 0x5c; 0xc2; 0xd3; 0xac; 0x62; 0x91; 0x95; 0xe4; 0x79;
   0xe7; 0xc8; 0x37; 0x6d; 0x8d; 0xd5; 0x4e; 0xa9; 0x6c; 0x56; 0xf4; 0xea; 0x65; 0x7a; 0xae; 0x08;
   0xba; 0x78; 0x25; 0x2e; 0x1c; 0xa6; 0xb4; 0x77; 0x25; 0x2e; 0x1c; 0xa6; 0xb4; 0xc6; 0xe8; 0xdd;
   0x74; 0x1f; 0x4b; 0xbd; 0x8b; 0x8a; 0x70; 0x3e; 0xb5; 0x66; 0x48; 0x03; 0xf6; 0x0e; 0x61; 0x35;
   0x57; 0xb9; 0x86; 0xc1; 0x1d; 0x9e; 0xe1; 0xf8; 0x98; 0x11; 0x69; 0xd9; 0x8e; 0x94; 0x9b; 0x1e;
   0x87; 0xe9; 0xce; 0x55; 0x28; 0xdf; 0x8c; 0xa1; 0x89; 0x0d; 0xbf; 0xe6; 0x42; 0x68; 0x41; 0x99].

Definition rcon : list Z :=
  [0x00; 0x01; 0x02; 0x04; 0x08; 0x10; 0x20; 0x40; 0x80; 0x1b; 0x36].

(** [sbox[(temp >> 24) & 0xFF] << 24 | ... | sbox[temp & 0xFF]] *)
Definition sub_word (temp : Z) : Z :=
  uint32 (Z.lor (Z.lor (Z.lor
    (Z.shiftl (at_ sbox (Z.to_nat (Z.land (Z.shiftr temp 24) 255))) 24)
    (Z.shiftl (at_ sbox (Z.to_nat (Z.land (Z.shiftr temp 16) 255))) 16))
    (Z.shiftl (at_ sbox (Z.to_nat (Z.land (Z.shiftr temp 8) 255))) 8))
    (at_ sbox (Z.to_nat (Z.land temp 255)))).

(** One iteration of the loop of [expand_key], for the word at byte [i]. *)
Definition expand_step (expanded_key : list Z) (i : nat) : list Z :=
  let temp := load32 expanded_key (i - 4) in
  let temp :=
    if decide ((i / 4) mod 8 = 0)%nat then
      let temp := uint32 (Z.lor (Z.shiftl temp 8) (Z.shiftr temp 24)) in
      let temp := sub_word temp in
      Z.lxor temp (at_ rcon ((i / 4) / 8))
    else if decide ((i / 4) mod 8 = 4)%nat then sub_word temp
    else temp in
  let temp := Z.lxor temp (load32 expanded_key (i - 32)) in
  expanded_key ++ store32 temp.

(** [for (int i = KEY_SIZE; i < 240; i += 4)] *)
Definition expand_key (key : list Z) : list Z :=
  fold_left expand_step (map (fun k => (KEY_SIZE + 4 * k)%nat) (seq 0 52)) key.

(** [SubBytes] on the whole state. *)
Definition sub_bytes (state : list Z) : list Z :=
  map (fun b => at_ sbox (Z.to_nat b)) state.

(** The byte moves written under "ShiftRows (simplified)". *)
Definition shift_rows (s : list Z) : list Z :=
  map (at_ s) [0; 5; 10; 15; 4; 9; 14; 3; 8; 13; 2; 7; 12; 1; 6; 11]%nat.

Definition add_round_key (expanded_key : list Z) (round : nat) (state : list Z)
  : list Z :=
  imap (fun i b => Z.lxor b (at_ expanded_key (round * 16 + i))) state.

Definition encrypt_block_software (expanded_key : list Z) (plaintext : list Z)
  : list Z :=
  let state := array_of 16 plaintext in
  let state := add_round_key expanded_key 0 state in
  let state :=
    fold_left (fun state round =>
                 add_round_key expanded_key round (shift_rows (sub_bytes state)))
              (seq 1 13) state in
  let state := sub_bytes state in
  add_round_key expanded_key 14 state.

(** The block routine an object uses: AES-NI instructions when the CPU and
    the build have them ([use_aes_ni_]), [encrypt_block_software]
    otherwise.  It maps the expanded key and a block to a block. *)
Definition BlockRoutine : Type := list Z -> list Z -> list Z.

Record t : Type := {
  key_ : list Z;
  expanded_key_ : list Z;
  encrypt_block : BlockRoutine
}.

Definition ctor (routine : BlockRoutine) (key : list Z) : t :=
  {| key_ := array_of KEY_SIZE key;
     expanded_key_ := expand_key (array_of KEY_SIZE key);
     encrypt_block := routine |}.

(** [counter_block[8 + i] = (counter >> (i * 8)) & 0xFF] for the eight
    [i]: the last eight bytes of the block. *)
Definition counter_bytes (counter : Z) : list Z :=
  map (fun i => Z.land (Z.shiftr counter (Z.of_nat i * 8)) 255) (seq 0 8).

(** The [while (pos < data.size())] loop of [process]. *)
Fixpoint process_loop (fuel : nat) (c : t) (iv : list Z) (counter : Z)
    (data : list Z) : list Z :=
  match fuel with
  | O => []
  | S fuel =>
      match data with
      | [] => []
      | _ =>
          let counter_block := take 8 iv ++ counter_bytes counter in
          let keystream := encrypt_block c (expanded_key_ c) counter_block in
          let chunk := take BLOCK_SIZE data in
          xor_stream (at_ keystream) 0 chunk
            ++ process_loop fuel c iv (uint64 (counter + 1)) (drop BLOCK_SIZE data)
      end
  end.

Definition process (c : t) (data : list Z) (iv : list Z) : list Z :=
  match data with
  | [] => []
  | _ => process_loop (length data) c (array_of IV_SIZE iv) 0 data
  end.

Definition derive_key (password : string) : list Z :=
  derive_rounds 10000 KEY_SIZE 0xA5 password.

End AesCtr.

(** ** crypto/aes_256_gcm_gpu_cpu.cpp: the CPU fallback *)

Module Aes256GcmGpu.

Definition KEY_SIZE : nat := 32.
Definition IV_SIZE : nat := 12.
Definition TAG_SIZE : nat := 16.

Record t : Type := {
  key_ : list Z;
  fallback_cipher_ : AesCtr.t
}.

Definition ctor (routine : AesCtr.BlockRoutine) (key : list Z) : t :=
  {| key_ := array_of KEY_SIZE key;
     fallback_cipher_ := AesCtr.ctor routine (array_of KEY_SIZE key) |}.

(** [aes_iv]: the 12-byte IV padded with zeros to 16 bytes. *)
Definition aes_iv (iv : list Z) : list Z :=
  array_of IV_SIZE iv ++ replicate (AesCtr.IV_SIZE - IV_SIZE) 0.

(** The indices [j = i, i + 16, ...] below [n]. *)
Definition strided (i n : nat) : list nat :=
  map (fun k => (i + TAG_SIZE * k)%nat) (seq 0 ((n + (TAG_SIZE - 1) - i) / TAG_SIZE)).

(** The "simple authentication tag" both directions compute. *)
Definition simple_tag (c : t) (iv : list Z) (ciphertext : list Z) : list Z :=
  map (fun i =>
         fold_left (fun tag_i j => Z.lxor tag_i (at_ ciphertext j))
                   (strided i (length ciphertext))
                   (Z.lxor (at_ (key_ c) i) (at_ iv (i mod IV_SIZE))))
      (seq 0 TAG_SIZE).

Definition encrypt (c : t) (plaintext iv additional_data : list Z) : list Z :=
  let iv := array_of IV_SIZE iv in
  let ciphertext := AesCtr.process (fallback_cipher_ c) plaintext (aes_iv iv) in
  let tag := simple_tag c iv ciphertext in
  ciphertext ++ tag.

(** [decrypt_cpu]; the parameter [tag] is not used. *)
Definition decrypt (c : t) (ciphertext iv tag additional_data : list Z)
  : result (list Z) :=
  let iv := array_of IV_SIZE iv in
  if decide (length ciphertext < TAG_SIZE)%nat then
    Throw (runtime_error "Ciphertext too short for authentication tag")
  else
    let data := but_last_n TAG_SIZE ciphertext in
    let stored_tag := last_n TAG_SIZE ciphertext in
    let computed_tag := simple_tag c iv data in
    if decide (stored_tag = computed_tag) then
      Ok (AesCtr.process (fallback_cipher_ c) data (aes_iv iv))
    else
      Throw (runtime_error "Authentication tag verification failed").

End Aes256GcmGpu.

(** ** crypto/crypto_engine.cpp *)

Module CryptoEngine.

(** [std::stoul(str, nullptr, 16)]: optional white space, sign and [0x]
    prefix, then the longest run of hexadecimal digits. *)
Definition isspace (c : ascii) : bool :=
  let n := N_of_ascii c in
  ((n =? 32) || ((9 <=? n) && (n <=? 13)))%N.

Definition hex_digit (c : ascii) : option Z :=
  let n := Z.of_N (N_of_ascii c) in
  if (48 <=? n) && (n <=? 57) then Some (n - 48)
  else if (97 <=? n) && (n <=? 102) then Some (n - 87)
  else if (65 <=? n) && (n <=? 70) then Some (n - 55)
  else None.

Fixpoint skip_spaces (s : string) : string :=
  match s with
  | String c s' => if isspace c then skip_spaces s' else s
  | EmptyString => s
  end.

(** The value of the leading digits and how many there are. *)
Fixpoint hex_digits (acc : Z) (count : nat) (s : string) : Z * nat :=
  match s with
  | String c s' =>
      match hex_digit c with
      | Some d => hex_digits (acc * 16 + d) (S count) s'
      | None => (acc, count)
      end
  | EmptyString => (acc, count)
  end.

Definition stoul16 (str : string) : result Z :=
  let s := skip_spaces str in
  let '(negative, s) :=
    match s with
    | String "-" s' => (true, s')
    | String "+" s' => (false, s')
    | _ => (false, s)
    end in
  let s :=
    match s with
    | String "0" (String x (String d s')) =>
        if ((x =? "x") || (x =? "X"))%char && bool_decide (is_Some (hex_digit d))
        then String d s' else s
    | _ => s
    end in
  let '(value, count) := hex_digits 0 0 s in
  if decide (count = 0%nat) then Throw (invalid_argument "stoul")
  else if decide (2 ^ 64 <= value) then Throw (out_of_range "stoul")
  else Ok (if negative : bool then uint64 (- value) else value).

(** The key parsing every engine constructor repeats; [class] is the class
    named in the error message. *)
Definition key_of_password (class : string) (password : string)
  : result (list Z) :=
  let hex_key := password in
  let hex_key :=
    if decide (2 < String.length hex_key)%nat
    then if String.eqb (substring 0 2 hex_key) "0x"
         then substring 2 (String.length hex_key - 2) hex_key else hex_key
    else hex_key in
  if decide (String.length hex_key <> 64%nat) then
    Throw (runtime_error ("Invalid secret key length for " +:+ class))
  else
    mapM (fun i => uint8 <$> stoul16 (substring (i * 2) 2 hex_key)) (seq 0 32).

(** The four classes behind the [CryptoEngine] interface, each with its
    cipher object. *)
Inductive t : Type :=
| HighSecurityEngine (cipher_ : ChaCha20Poly1305.t)
| FastSecurityEngine (cipher_ : XorCipher.t)
| AesSecurityEngine (cipher_ : AesCtr.t)
| GpuSecurityEngine (cipher_ : Aes256GcmGpu.t).

Definition get_security_level (e : t) : Z :=
  match e with
  | HighSecurityEngine _ => SecurityLevel.HIGH
  | FastSecurityEngine _ => SecurityLevel.FAST
  | AesSecurityEngine _ => SecurityLevel.AES
  | GpuSecurityEngine _ => SecurityLevel.AES_256_GCM
  end.

(** [create_crypto_engine]; [routine] is the host's AES block routine. *)
Definition create_crypto_engine (routine : AesCtr.BlockRoutine) (level : Z)
    (password : string) : result t :=
  match level with
  | 0 => key ← key_of_password "HighSecurityEngine" password;
         Ok (HighSecurityEngine (ChaCha20Poly1305.ctor key))
  | 1 => key ← key_of_password "FastSecurityEngine" password;
         Ok (FastSecurityEngine (XorCipher.ctor key))
  | 2 => key ← key_of_password "AesSecurityEngine" password;
         Ok (AesSecurityEngine (AesCtr.ctor routine key))
  | 3 => key ← key_of_password "GpuSecurityEngine" password;
         Ok (GpuSecurityEngine (Aes256GcmGpu.ctor routine key))
  | _ => Throw (runtime_error "Unsupported security level")
  end.

(** [encrypt]; [random] is what the nonce or IV generator returns for this
    call. The engine comes back because the FAST cipher object changes. *)
Definition encrypt (e : t) (random : list Z) (data : list Z) : t * list Z :=
  match e with
  | HighSecurityEngine cipher_ =>
      let nonce := array_of ChaCha20Poly1305.NONCE_SIZE random in
      let encrypted := ChaCha20Poly1305.encrypt cipher_ data nonce [] in
      (e, nonce ++ encrypted)
  | FastSecurityEngine cipher_ =>
      let cipher_ := XorCipher.reset cipher_ in
      let '(cipher_, out) := XorCipher.process cipher_ data in
      (FastSecurityEngine cipher_, out)
  | AesSecurityEngine cipher_ =>
      let iv := array_of AesCtr.IV_SIZE random in
      let encrypted := AesCtr.process cipher_ data iv in
      (e, iv ++ encrypted)
  | GpuSecurityEngine cipher_ =>
      let iv := array_of Aes256GcmGpu.IV_SIZE random in
      let result := Aes256GcmGpu.encrypt cipher_ data iv [] in
      (e, iv ++ result)
  end.

Definition decrypt (e : t) (data : list Z) : result (t * list Z) :=
  match e with
  | HighSecurityEngine cipher_ =>
      if decide (length data <
                 ChaCha20Poly1305.NONCE_SIZE + ChaCha20Poly1305.TAG_SIZE)%nat
      then Throw (runtime_error "Encrypted message too short")
      else
        let nonce := take ChaCha20Poly1305.NONCE_SIZE data in
        let encrypted_data := drop ChaCha20Poly1305.NONCE_SIZE data in
        let tag := last_n ChaCha20Poly1305.TAG_SIZE encrypted_data in
        plaintext ← ChaCha20Poly1305.decrypt cipher_ encrypted_data nonce tag [];
        Ok (e, plaintext)
  | FastSecurityEngine cipher_ =>
      let cipher_ := XorCipher.reset cipher_ in
      let '(cipher_, out) := XorCipher.process cipher_ data in
      Ok (FastSecurityEngine cipher_, out)
  | AesSecurityEngine cipher_ =>
      if decide (length data < AesCtr.IV_SIZE)%nat
      then Throw (runtime_error "Encrypted data too short for AES-CTR")
      else
        let iv := take AesCtr.IV_SIZE data in
        let encrypted_data := drop AesCtr.IV_SIZE data in
        Ok (e, AesCtr.process cipher_ encrypted_data iv)
  | GpuSecurityEngine cipher_ =>
      if decide (length data <
                 Aes256GcmGpu.IV_SIZE + Aes256GcmGpu.TAG_SIZE)%nat
      then Throw (runtime_error "Encrypted data too short for AES-256-GCM")
      else
        let iv := take Aes256GcmGpu.IV_SIZE data in
        let ciphertext_with_tag := drop Aes256GcmGpu.IV_SIZE data in
        if decide (length ciphertext_with_tag < Aes256GcmGpu.TAG_SIZE)%nat
        then Throw (runtime_error "Ciphertext too short for authentication tag")
        else
          let tag := last_n Aes256GcmGpu.TAG_SIZE ciphertext_with_tag in
          let ciphertext := but_last_n Aes256GcmGpu.TAG_SIZE ciphertext_with_tag in
          plaintext ← Aes256GcmGpu.decrypt cipher_ ciphertext iv tag [];
          Ok (e, plaintext)
  end.

End CryptoEngine.

(** Two engine objects of one suite holding the same key (and, for the AES
    suites, the same block routine): what a sender and a receiver built from
    one shared key are. The FAST cipher objects may be in different states. *)
Definition same_key (sender receiver : CryptoEngine.t) : Prop :=
  match sender, receiver with
  | CryptoEngine.HighSecurityEngine a, CryptoEngine.HighSecurityEngine b => a = b
  | CryptoEngine.FastSecurityEngine a, CryptoEngine.FastSecurityEngine b =>
      XorCipher.base_key_ a = XorCipher.base_key_ b
  | CryptoEngine.AesSecurityEngine a, CryptoEngine.AesSecurityEngine b => a = b
  | CryptoEngine.GpuSecurityEngine a, CryptoEngine.GpuSecurityEngine b => a = b
  | _, _ => False
  end.

(** ** common/utils.cpp: path helpers (POSIX branches) *)

Module Utils.

Definition get_version_string : string := "NetCopy v1.0.0".

Fixpoint replace_char (from to : ascii) (s : string) : string :=
  match s with
  | EmptyString => EmptyString
  | String c s' =>
      String (if Ascii.eqb c from then to else c) (replace_char from to s')
  end.

(** [std::replace(result.begin(), result.end(), '\\', '/')] *)
Definition convert_to_native_path (path : string) : string :=
  replace_char "\" "/" path.

Definition convert_to_unix_path (path : string) : string :=
  replace_char "\" "/" path.

Definition is_absolute_path (path : string) : bool :=
  match path with
  | EmptyString => false
  | String c _ => Ascii.eqb c "/"
  end.

(** The digit [oss << std::hex] writes for a value below sixteen. *)
Definition hex_char (n : Z) : ascii :=
  nth (Z.to_nat n) (list_ascii_of_string "0123456789abcdef") "0"%char.

(** [to_hex_string]: two digits a byte, [setw(2)] with fill ['0']. *)
Definition to_hex_string (data : list Z) : string :=
  fold_right (fun byte acc =>
                String (hex_char (byte / 16)) (String (hex_char (byte mod 16)) acc))
             "" data.

(** [std::stoi(str, nullptr, 16)]: the syntax of [strtol], the result
    within the range of [int]. *)
Definition stoi16 (str : string) : result Z :=
  let s := CryptoEngine.skip_spaces str in
  let '(negative, s) :=
    match s with
    | String "-" s' => (true, s')
    | String "+" s' => (false, s')
    | _ => (false, s)
    end in
  let s :=
    match s with
    | String "0" (String x (String d s')) =>
        if ((x =? "x") || (x =? "X"))%char
           && bool_decide (is_Some (CryptoEngine.hex_digit d))
        then String d s' else s
    | _ => s
    end in
  let '(value, count) := CryptoEngine.hex_digits 0 0 s in
  if decide (count = 0%nat) then Throw (invalid_argument "stoi")
  else
    let value := if negative : bool then - value else value in
    if decide (- 2 ^ 31 <= value < 2 ^ 31) then Ok value
    else Throw (out_of_range "stoi").

(** [from_hex_string]: [substr(i, 2)] for [i = 0, 2, ...], each through
    [stoi] and cast to a byte. *)
Fixpoint from_hex_string (hex_str : string) : result (list Z) :=
  match hex_str with
  | EmptyString => Ok []
  | String a EmptyString =>
      byte ← stoi16 (String a EmptyString);
      Ok [uint8 byte]
  | String a (String b rest) =>
      byte ← stoi16 (String a (String b EmptyString));
      data ← from_hex_string rest;
      Ok (uint8 byte :: data)
  end.

End Utils.

(** ** [std::filesystem::path], generic format, POSIX

    A path is its optional root directory and the sequence of elements an
    iteration over it yields after the root: the file names, and a final
    empty element when the path ends in a separator. *)

Module Path.

Record t : Type := {
  has_root_directory : bool;
  elements : list string
}.

#[global] Instance t_eq_dec : EqDecision t.
Proof. solve_decision. Defined.

(** The pieces between the separators: ["/a//b/"] gives
    [[""; "a"; ""; "b"; ""]]. *)
Fixpoint segments (s : string) : list string :=
  match s with
  | EmptyString => [""]
  | String c s' =>
      if Ascii.eqb c "/" then "" :: segments s'
      else match segments s' with
           | seg :: rest => String c seg :: rest
           | [] => [String c ""]
           end
  end.

Definition ends_with_separator (s : string) : bool :=
  match rev (segments s) with
  | "" :: _ :: _ => true
  | _ => false
  end.

Definition parse (s : string) : t :=
  let names := filter (fun x => x <> "") (segments s) in
  {| has_root_directory := Utils.is_absolute_path s;
     elements :=
       match names with
       | [] => []
       | _ => names ++ (if ends_with_separator s then [""] else [])
       end |}.

(** [path::string()] *)
Definition print (p : t) : string :=
  (if has_root_directory p then "/" else "") +:+ String.concat "/" (elements p).

Definition empty_path : t := {| has_root_directory := false; elements := [] |}.
Definition dot : t := {| has_root_directory := false; elements := ["."] |}.

Definition empty (p : t) : bool :=
  negb (has_root_directory p) && bool_decide (elements p = []).

(** The element-by-element pass of [lexically_normal]: [stack] holds the
    names kept so far, last first; [trail] tells whether the path built so
    far ends in a separator. *)
Fixpoint normal_loop (root : bool) (stack : list string) (trail : bool)
    (elems : list string) : list string * bool :=
  match elems with
  | [] => (stack, trail)
  | e :: rest =>
      if decide (e = "") then normal_loop root stack true rest
      else if decide (e = ".") then normal_loop root stack true rest
      else if decide (e = "..") then
        match stack with
        | top :: stack' =>
            if decide (top = "..") then normal_loop root (".." :: stack) false rest
            else normal_loop root stack' true rest
        | [] =>
            if root then normal_loop root [] trail rest
            else normal_loop root [".."] false rest
        end
      else normal_loop root (e :: stack) false rest
  end.

Definition lexically_normal (p : t) : t :=
  if empty p then p
  else
    let '(stack, trail) := normal_loop (has_root_directory p) [] false (elements p) in
    match stack with
    | [] =>
        if has_root_directory p then {| has_root_directory := true; elements := [] |}
        else dot
    | top :: _ =>
        {| has_root_directory := has_root_directory p;
           elements :=
             rev stack ++ (if trail && negb (bool_decide (top = "..")) then [""] else []) |}
    end.

(** [std::mismatch] over the two element sequences. *)
Fixpoint mismatch (a b : list string) : list string * list string :=
  match a, b with
  | x :: a', y :: b' => if decide (x = y) then mismatch a' b' else (a, b)
  | _, _ => (a, b)
  end.

(** The count [n] of [lexically_relative] over the rest of the base. *)
Definition count_up (b : list string) : Z :=
  fold_left (fun n e =>
               if decide (e = "..") then n - 1
               else if decide (e <> "" /\ e <> ".") then n + 1
               else n)
            b 0.

Definition lexically_relative (p base : t) : t :=
  if negb (Bool.eqb (has_root_directory p) (has_root_directory base)) then empty_path
  else
    let '(a, b) := mismatch (elements p) (elements base) in
    match a, b with
    | [], [] => dot
    | _, _ =>
        let n := count_up b in
        if n <? 0 then empty_path
        else if (n =? 0) && bool_decide (a = [] \/ head a = Some "") then dot
        else {| has_root_directory := false;
                elements := replicate (Z.to_nat n) ".." ++ a |}
    end.

(** [operator/] with a relative right-hand side given by its elements. *)
Definition append (p q : t) : t :=
  if has_root_directory q then q
  else {| has_root_directory := has_root_directory p;
          elements := filter (fun x => x <> "") (elements p) ++ elements q |}.

(** [std::filesystem::absolute]: [current_path() / p]. *)
Definition absolute (cwd : string) (p : t) : t := append (parse cwd) p.

(** [std::filesystem::weakly_canonical] on a file system without symbolic
    links: the absolute path, normalised. *)
Definition weakly_canonical (cwd : string) (p : t) : t :=
  lexically_normal (absolute cwd p).

(** [std::filesystem::relative(p, base)] *)
Definition relative (cwd : string) (p base : t) : t :=
  lexically_relative (weakly_canonical cwd p) (weakly_canonical cwd base).

Definition filename (p : t) : string :=
  match last (elements p) with
  | Some e => e
  | None => ""
  end.

Definition parent_path (p : t) : t :=
  {| has_root_directory := has_root_directory p;
     elements := removelast (elements p) |}.

(** The names a path resolves through, from the root: what identifies the
    file it designates. *)
Definition resolve (cwd : string) (s : string) : list string :=
  filter (fun x => x <> "") (elements (weakly_canonical cwd (parse s))).

(** The part of [s] from its rightmost period on, if it has one. *)
Fixpoint from_last_period (s : string) : option string :=
  match s with
  | EmptyString => None
  | String c s' =>
      match from_last_period s' with
      | Some e => Some e
      | None => if Ascii.eqb c "." then Some s else None
      end
  end.

(** [path::extension()]: nothing for [.] and [..]; a period that opens the
    file name does not start an extension. *)
Definition extension (p : t) : string :=
  let name := filename p in
  if String.eqb name "." || String.eqb name ".." then ""
  else
    match name with
    | EmptyString => ""
    | String _ rest =>
        match from_last_period rest with
        | Some e => e
        | None => ""
        end
    end.

End Path.

(** ** The file system the server writes to

    Regular files and directories, named by the list of names from the
    root; no symbolic links, no permissions, no device errors. *)

Module FileSystem.

Inductive Node : Type :=
| File (content : list Z)
| Directory.

#[global] Instance Node_eq_dec : EqDecision Node.
Proof. solve_decision. Defined.

Record t : Type := {
  nodes : gmap (list string) Node;
  cwd : string
}.

(** The root directory always exists. *)
Definition lookup (fs : t) (key : list string) : option Node :=
  match key with
  | [] => Some Directory
  | _ => nodes fs !! key
  end.

(** What a path names: a path ending in a separator names a directory or
    nothing. *)
Definition status (fs : t) (path : string) : option Node :=
  match lookup fs (Path.resolve (cwd fs) path) with
  | Some Directory => Some Directory
  | Some (File c) => if Path.ends_with_separator path then None else Some (File c)
  | None => None
  end.

Definition set_node (fs : t) (key : list string) (n : Node) : t :=
  {| nodes := <[key := n]> (nodes fs); cwd := cwd fs |}.

(** Whether a regular file can be created or truncated at [path]: the path
    does not name a directory and its parent directory exists. *)
Definition can_create (fs : t) (path : string) : bool :=
  let key := Path.resolve (cwd fs) path in
  negb (Path.ends_with_separator path)
  && negb (bool_decide (key = []))
  && negb (bool_decide (lookup fs key = Some Directory))
  && bool_decide (lookup fs (removelast key) = Some Directory).

(** [mkdir] of each missing ancestor in turn, stopping at a regular file. *)
Fixpoint mkdirs (nodes : gmap (list string) Node) (done todo : list string)
  : gmap (list string) Node :=
  match todo with
  | [] => nodes
  | name :: todo =>
      let key := done ++ [name] in
      match nodes !! key with
      | Some Directory => mkdirs nodes key todo
      | Some (File _) => nodes
      | None => mkdirs (<[key := Directory]> nodes) key todo
      end
  end.

(** The bytes of a file after [seekp(offset)] and a write of [data]: a
    write of no bytes changes nothing; a write past the end fills the gap
    with zeros. *)
Definition write_at (content : list Z) (offset : nat) (data : list Z) : list Z :=
  match data with
  | [] => content
  | _ =>
      take offset (content ++ replicate (offset - length content) 0)
        ++ data ++ drop (offset + length data) content
  end.

End FileSystem.

(** ** file/file_manager.cpp *)

(** The elements left once the leading ones that satisfy [f] are gone. *)
Fixpoint drop_while {A : Type} (f : A -> bool) (l : list A) : list A :=
  match l with
  | [] => []
  | x :: l' => if f x then drop_while f l' else l
  end.

Module FileManager.
Import FileSystem.

Definition exists_ (fs : t) (path : string) : bool :=
  bool_decide (is_Some (status fs path)).

Definition is_directory (fs : t) (path : string) : bool :=
  bool_decide (status fs path = Some Directory).

Definition file_size (fs : t) (path : string) : result Z :=
  match status fs path with
  | Some (File c) => Ok (Z.of_nat (length c))
  | Some Directory =>
      Throw (FileException ("Failed to get file size for " +:+ path +:+ ": Is a directory"))
  | None =>
      Throw (FileException ("Failed to get file size for " +:+ path
                            +:+ ": No such file or directory"))
  end.

(** The [error_code] overload: failures are not reported; the [bool] result
    is ignored by every caller. *)
Definition create_directories (fs : t) (path : string) : t :=
  {| nodes := mkdirs (nodes fs) [] (Path.resolve (cwd fs) path); cwd := cwd fs |}.

(** The statement [if (!dir.empty() && !exists(dir)) create_directories(dir);]
    that [write_file_chunk], [handle_file_request] and [handle_file_data]
    each contain. *)
Definition create_if_missing (fs : t) (dir : string) : t :=
  if negb (bool_decide (dir = "")) && negb (exists_ fs dir)
  then create_directories fs dir else fs.

Definition normalize_path (path : string) : string :=
  Path.print (Path.lexically_normal (Path.parse path)).

Definition get_filename (path : string) : string :=
  Path.filename (Path.parse path).

Definition get_directory (path : string) : string :=
  Path.print (Path.parent_path (Path.parse path)).

(** [(path(base) / relative).string()] *)
Definition join_path (base relative : string) : string :=
  if Utils.is_absolute_path relative then relative
  else if decide (base = "") then relative
  else if Path.ends_with_separator base || bool_decide (base = "/")
       then base +:+ relative
       else base +:+ "/" +:+ relative.

Definition get_partial_file_size (fs : t) (path : string) : result Z :=
  if negb (exists_ fs path) then Ok 0 else file_size fs path.

Definition is_path_safe (fs : t) (path base_directory : string) : bool :=
  let normalized_path := Path.lexically_normal (Path.parse path) in
  let normalized_base := Path.lexically_normal (Path.parse base_directory) in
  let relative := Path.relative (cwd fs) normalized_path normalized_base in
  if decide (relative = Path.dot) then true
  else negb (Path.empty relative)
       && negb (bool_decide (String.get 0 (Path.print relative) = Some "."%char)).

(** [write_file_chunk]: the file system afterwards, and whether the call
    returned or threw. *)
Definition write_file_chunk (fs : t) (path : string) (offset : Z) (data : list Z)
  : t * result unit :=
  let dir := get_directory path in
  let fs := create_if_missing fs dir in
  let key := Path.resolve (cwd fs) path in
  (* std::fstream file(path, mode) *)
  let opened : option t :=
    if decide (offset = 0) then
      if can_create fs path then Some (set_node fs key (File [])) else None
    else
      match status fs path with
      | Some (File _) => Some fs
      | _ => None
      end in
  let reopened : t * result unit :=
    match opened with
    | Some fs => (fs, Ok ())
    | None =>
        (* file.open(path, binary | out); file.close(); file.open(path, mode) *)
        if can_create fs path then (set_node fs key (File []), Ok ())
        else (fs, Throw (FileException ("Failed to create file: " +:+ path)))
    end in
  match reopened with
  | (fs, Throw e) => (fs, Throw e)
  | (fs, Ok _) =>
      (* file.seekp(offset): the offset converts to a signed 64-bit position *)
      if decide (2 ^ 63 <= offset) then
        (fs, Throw (FileException ("Failed to seek to offset " +:+ pretty offset
                                   +:+ " in file: " +:+ path)))
      else
        match lookup fs key with
        | Some (File content) =>
            (set_node fs key (File (write_at content (Z.to_nat offset) data)), Ok ())
        | _ => (fs, Throw (FileException ("Failed to write data to file: " +:+ path)))
        end
  end.

(** [read_file_chunk]: the bytes from [offset], at most [chunk_size] of
    them.  A seek past the end succeeds and the read then delivers nothing;
    an offset that does not fit a signed 64-bit position fails the seek.
    On a directory the stream opens and the read fails, which leaves
    [gcount()] at zero (libstdc++ on Linux). *)
Definition read_file_chunk (fs : t) (path : string) (offset : Z) (chunk_size : nat)
  : result (list Z) :=
  match status fs path with
  | None => Throw (FileException ("Failed to open file for reading: " +:+ path))
  | Some node =>
      if decide (2 ^ 63 <= offset) then
        Throw (FileException ("Failed to seek to offset " +:+ pretty offset
                              +:+ " in file: " +:+ path))
      else
        match node with
        | File content => Ok (take chunk_size (drop (Z.to_nat offset) content))
        | Directory => Ok []
        end
  end.

(** [create_file]: the file truncated or created, then one zero byte
    written at [size - 1]; a seek that fails leaves the file empty, and
    nothing reports it. *)
Definition create_file (fs : t) (path : string) (size : Z) : t * result unit :=
  let dir := get_directory path in
  let fs := create_if_missing fs dir in
  let key := Path.resolve (cwd fs) path in
  if can_create fs path then
    let content :=
      if decide (0 < size) then
        if decide (2 ^ 63 <= size - 1) then []
        else write_at [] (Z.to_nat (size - 1)) [0]
      else [] in
    (set_node fs key (File content), Ok ())
  else (fs, Throw (FileException ("Failed to create file: " +:+ path))).

Definition is_transfer_complete (fs : t) (path : string) (expected_size : Z)
  : result bool :=
  if negb (exists_ fs path) then Ok false
  else size ← file_size fs path; Ok (size =? expected_size).

(** The characters the regular expression of [sanitize_filename] matches,
    by their codes: less-than, greater-than, colon, double quote, slash,
    backslash, bar, question mark and star. *)
Definition dangerous_char (c : ascii) : bool :=
  let n := N_of_ascii c in
  ((n =? 60) || (n =? 62) || (n =? 58) || (n =? 34) || (n =? 47) || (n =? 92)
   || (n =? 124) || (n =? 63) || (n =? 42))%N.

(** A space or a dot. *)
Definition space_or_dot (c : ascii) : bool :=
  let n := N_of_ascii c in ((n =? 32) || (n =? 46))%N.

Definition sanitize_filename (filename : string) : string :=
  let sanitized :=
    map (fun c => if dangerous_char c then "_"%char else c)
        (list_ascii_of_string filename) in
  (* erase(0, find_first_not_of(space or dot)) *)
  let sanitized := drop_while space_or_dot sanitized in
  (* erase(find_last_not_of(space or dot) + 1) *)
  let sanitized := rev (drop_while space_or_dot (rev sanitized)) in
  let sanitized :=
    match sanitized with
    | [] => list_ascii_of_string "unnamed_file"
    | _ => sanitized
    end in
  string_of_list_ascii (take 255 sanitized).

End FileManager.

(** ** common/compression.cpp: which files are sent compressed *)

Module Compression.

(** [::tolower] in the C locale. *)
Definition tolower (c : ascii) : ascii :=
  let n := N_of_ascii c in
  if ((65 <=? n) && (n <=? 90))%N then ascii_of_N (n + 32) else c.

Definition has_extension (path : string) (exts : list string) : bool :=
  let ext := Path.extension (Path.parse path) in
  let ext := string_of_list_ascii (map tolower (list_ascii_of_string ext)) in
  existsb (String.eqb ext) exts.

Definition non_compressible : list string :=
  [".jpg"; ".jpeg"; ".png"; ".gif"; ".mp3"; ".mp4"; ".avi";
   ".zip"; ".gz"; ".bz2"; ".rar"; ".7z"; ".lz4"; ".pdf";
   ".mpg"; ".mpeg"; ".ogg"; ".flac"].

Definition is_compressible (path : string) : bool :=
  negb (has_extension path non_compressible).

End Compression.

(** ** The socket, as the list of what was written to it *)

(** One [send_message]: the message given to it, the value of
    [handshake_completed_] at that moment (on the client: whether the
    handshake reply had been read), and the bytes that follow the four-byte
    length on the wire. *)
Record Written : Type := {
  w_handshake_completed : bool;
  w_message : Message.t;
  w_data : list Z
}.

(** The bytes on the wire: [uint32_t length] as the host stores it, then
    the data. *)
Definition wire_bytes (w : Written) : list Z :=
  Wire.write_uint32 [] (uint32 (Z.of_nat (length (w_data w)))) ++ w_data w.

(** What the environment supplies while one received frame is handled: the
    frame's bytes after the length prefix, the values of uninitialised
    members, and the bytes the random generators return. *)
Record Event : Type := {
  ev_data : list Z;
  ev_indet : Indeterminate;
  ev_random : list Z;
  ev_nonce : list Z
}.

(** ** config/config_parser.h: the members of [ServerConfig] the connection
    handler reads *)

Module ServerConfig.
Record t : Type := {
  secret_key : string;
  require_auth : bool;
  allowed_paths : list string
}.
End ServerConfig.

(** ** server/server.cpp: [ConnectionHandler] *)

Module ConnectionHandler.

Record t : Type := {
  config_ : ServerConfig.t;
  crypto_ : option ChaCha20Poly1305.t;
  crypto_engine_ : option CryptoEngine.t;
  negotiated_security_level_ : Z;
  sequence_number_ : Z;
  current_file_path_ : string;
  handshake_completed_ : bool;
  client_socket_ : list Written
}.

Definition ctor (config : ServerConfig.t) (crypto : option ChaCha20Poly1305.t) : t :=
  {| config_ := config; crypto_ := crypto; crypto_engine_ := None;
     negotiated_security_level_ := SecurityLevel.HIGH; sequence_number_ := 1;
     current_file_path_ := ""; handshake_completed_ := false;
     client_socket_ := [] |}.

Definition set_crypto_engine_ (h : t) (e : option CryptoEngine.t) : t :=
  {| config_ := config_ h; crypto_ := crypto_ h; crypto_engine_ := e;
     negotiated_security_level_ := negotiated_security_level_ h;
     sequence_number_ := sequence_number_ h;
     current_file_path_ := current_file_path_ h;
     handshake_completed_ := handshake_completed_ h;
     client_socket_ := client_socket_ h |}.

Definition set_negotiated_security_level_ (h : t) (l : Z) : t :=
  {| config_ := config_ h; crypto_ := crypto_ h; crypto_engine_ := crypto_engine_ h;
     negotiated_security_level_ := l;
     sequence_number_ := sequence_number_ h;
     current_file_path_ := current_file_path_ h;
     handshake_completed_ := handshake_completed_ h;
     client_socket_ := client_socket_ h |}.

Definition set_current_file_path_ (h : t) (p : string) : t :=
  {| config_ := config_ h; crypto_ := crypto_ h; crypto_engine_ := crypto_engine_ h;
     negotiated_security_level_ := negotiated_security_level_ h;
     sequence_number_ := sequence_number_ h;
     current_file_path_ := p;
     handshake_completed_ := handshake_completed_ h;
     client_socket_ := client_socket_ h |}.

Definition set_handshake_completed_ (h : t) (b : bool) : t :=
  {| config_ := config_ h; crypto_ := crypto_ h; crypto_engine_ := crypto_engine_ h;
     negotiated_security_level_ := negotiated_security_level_ h;
     sequence_number_ := sequence_number_ h;
     current_file_path_ := current_file_path_ h;
     handshake_completed_ := b;
     client_socket_ := client_socket_ h |}.

Definition socket_send (h : t) (w : Written) : t :=
  {| config_ := config_ h; crypto_ := crypto_ h; crypto_engine_ := crypto_engine_ h;
     negotiated_security_level_ := negotiated_security_level_ h;
     sequence_number_ := sequence_number_ h;
     current_file_path_ := current_file_path_ h;
     handshake_completed_ := handshake_completed_ h;
     client_socket_ := client_socket_ h ++ [w] |}.

(** [crypto_engine_ || crypto_] *)
Definition has_cipher (h : t) : bool :=
  bool_decide (is_Some (crypto_engine_ h)) || bool_decide (is_Some (crypto_ h)).

Definition encrypt_message (h : t) (random : list Z) (data : list Z) : t * list Z :=
  match crypto_engine_ h, crypto_ h with
  | Some engine, _ =>
      let '(engine, out) := CryptoEngine.encrypt engine random data in
      (set_crypto_engine_ h (Some engine), out)
  | None, Some crypto =>
      let nonce := array_of ChaCha20Poly1305.NONCE_SIZE random in
      let encrypted := ChaCha20Poly1305.encrypt crypto data nonce [] in
      (h, nonce ++ encrypted)
  | None, None => (h, data)
  end.

Definition decrypt_message (h : t) (data : list Z) : result (t * list Z) :=
  match crypto_engine_ h, crypto_ h with
  | Some engine, _ =>
      '(engine, out) ← CryptoEngine.decrypt engine data;
      Ok (set_crypto_engine_ h (Some engine), out)
  | None, Some crypto =>
      if decide (length data <
                 ChaCha20Poly1305.NONCE_SIZE + ChaCha20Poly1305.TAG_SIZE)%nat
      then Throw (CryptoException "Encrypted message too short")
      else
        let nonce := take ChaCha20Poly1305.NONCE_SIZE data in
        let encrypted_data := drop ChaCha20Poly1305.NONCE_SIZE data in
        let tag := last_n ChaCha20Poly1305.TAG_SIZE encrypted_data in
        out ← ChaCha20Poly1305.decrypt crypto encrypted_data nonce tag [];
        Ok (h, out)
  | None, None => Ok (h, data)
  end.

Definition send_message (h : t) (random : list Z) (message : Message.t) : t :=
  let data := Message.serialize message in
  let '(h, data) :=
    if has_cipher h then encrypt_message h random data else (h, data) in
  socket_send h {| w_handshake_completed := handshake_completed_ h;
                   w_message := message; w_data := data |}.

(** [receive_message], given the bytes read after the length prefix. *)
Definition receive_message (h : t) (i : Indeterminate) (data : list Z)
  : result (t * Message.t) :=
  '(h, data) ← (if handshake_completed_ h && has_cipher h
                then decrypt_message h data else Ok (h, data));
  message ← Message.deserialize i data;
  Ok (h, message).

Definition perform_handshake (routine : AesCtr.BlockRoutine) (h : t) (ev : Event)
  : result t :=
  '(h, request_msg) ← receive_message h (ev_indet ev) (ev_data ev);
  match Message.body request_msg with
  | BHandshakeRequest request =>
      let h := set_negotiated_security_level_ h
                 (HandshakeRequest.security_level request) in
      h ← (if ServerConfig.require_auth (config_ h)
              && negb (bool_decide (ServerConfig.secret_key (config_ h) = ""))
           then
             engine ← CryptoEngine.create_crypto_engine routine
                        (negotiated_security_level_ h)
                        (ServerConfig.secret_key (config_ h));
             Ok (set_crypto_engine_ h (Some engine))
           else Ok h);
      let response :=
        {| HandshakeResponse.server_version := Utils.get_version_string;
           HandshakeResponse.server_nonce := array_of 16 (ev_nonce ev);
           HandshakeResponse.authentication_required :=
             ServerConfig.require_auth (config_ h);
           HandshakeResponse.accepted_security_level :=
             negotiated_security_level_ h |} in
      let h := send_message h (ev_random ev)
                 (Message.make (ev_indet ev) (BHandshakeResponse response)) in
      Ok (set_handshake_completed_ h true)
  | _ => Throw (ProtocolException "Invalid handshake request")
  end.

Definition is_path_allowed (h : t) (fs : FileSystem.t) (path : string) : bool :=
  let native_path := Utils.convert_to_native_path path in
  let normalized := FileManager.normalize_path native_path in
  existsb (fun allowed => FileManager.is_path_safe fs normalized allowed)
          (ServerConfig.allowed_paths (config_ h)).

Definition resolve_path (path : string) : result string :=
  let native_path := Utils.convert_to_native_path path in
  if Utils.is_absolute_path native_path then
    Ok (FileManager.normalize_path native_path)
  else
    Throw (FileException
             ("Relative paths are not allowed. All paths must be absolute. Path: "
              +:+ path)).

(** [resolved_path.back()] is ['/'] or ['\\']. *)
Definition back_is_separator (s : string) : bool :=
  match String.get (String.length s - 1) s with
  | Some c => Ascii.eqb c "/" || Ascii.eqb c "\"
  | None => false
  end.

(** The destination [handle_file_request] settles on for a path that
    [resolve_path] returned: with the source's file name appended when the
    path ends in a separator or names a directory. *)
Definition destination_file (fs : FileSystem.t) (resolved_path source_path : string)
  : string :=
  if back_is_separator resolved_path || FileManager.is_directory fs resolved_path
  then FileManager.join_path resolved_path (FileManager.get_filename source_path)
  else resolved_path.

(** The [try] block of [handle_file_request]: the handler, the file system
    and the response as the block leaves them, and whether it threw. *)
Definition file_request_try (h : t) (fs : FileSystem.t)
    (response : FileResponse.t) (request : FileRequest.t)
  : t * FileSystem.t * FileResponse.t * result unit :=
  if negb (is_path_allowed h fs (FileRequest.destination_path request)) then
    (h, fs, response,
     Throw (FileException ("Access denied to path: "
                           +:+ FileRequest.destination_path request)))
  else
    match resolve_path (FileRequest.destination_path request) with
    | Throw e => (h, fs, response, Throw e)
    | Ok resolved_path =>
        let resolved_path :=
          destination_file fs resolved_path (FileRequest.source_path request) in
        let h := set_current_file_path_ h resolved_path in
        match (if 0 <? FileRequest.resume_offset request
               then FileManager.get_partial_file_size fs resolved_path
               else Ok 0) with
        | Throw e => (h, fs, response, Throw e)
        | Ok resume_offset =>
            let dir := FileManager.get_directory resolved_path in
            let fs := FileManager.create_if_missing fs dir in
            (h, fs,
             {| FileResponse.success := true;
                FileResponse.error_message := FileResponse.error_message response;
                FileResponse.file_size := 0;
                FileResponse.resume_offset := resume_offset |},
             Ok ())
        end
    end.

Definition handle_file_request (h : t) (fs : FileSystem.t) (ev : Event)
    (request : FileRequest.t) : t * FileSystem.t :=
  let response := FileResponse.ctor (ev_indet ev) in
  let '(h, fs, response, outcome) := file_request_try h fs response request in
  let response :=
    match outcome with
    | Ok _ => response
    | Throw e =>
        {| FileResponse.success := false;
           FileResponse.error_message := what e;
           FileResponse.file_size := FileResponse.file_size response;
           FileResponse.resume_offset := FileResponse.resume_offset response |}
    end in
  (send_message h (ev_random ev) (Message.make (ev_indet ev) (BFileResponse response)),
   fs).

Definition is_marker_file (filename : string) : bool :=
  String.eqb filename ".netcopy_dir_marker" || String.eqb filename ".netcopy_empty_dir".

(** The [try] block of [handle_file_data]. *)
Definition file_data_try (h : t) (fs : FileSystem.t) (ack : FileAck.t)
    (data : FileData.t) : FileSystem.t * FileAck.t * result unit :=
  if decide (current_file_path_ h = "") then
    (fs, ack, Throw (runtime_error "No file transfer in progress"))
  else
    let filename := FileManager.get_filename (current_file_path_ h) in
    let '(fs, written) :=
      if is_marker_file filename then
        let dir := FileManager.get_directory (current_file_path_ h) in
        (FileManager.create_if_missing fs dir, Ok ())
      else
        FileManager.write_file_chunk fs (current_file_path_ h)
          (FileData.offset data) (FileData.data data) in
    match written with
    | Throw e => (fs, ack, Throw e)
    | Ok _ =>
        (fs,
         {| FileAck.bytes_received :=
              uint64 (FileData.offset data + Z.of_nat (length (FileData.data data)));
            FileAck.success := true;
            FileAck.error_message := FileAck.error_message ack |},
         Ok ())
    end.

Definition handle_file_data (h : t) (fs : FileSystem.t) (ev : Event)
    (data : FileData.t) : t * FileSystem.t :=
  let ack := FileAck.ctor (ev_indet ev) in
  let '(fs, ack, outcome) := file_data_try h fs ack data in
  let ack :=
    match outcome with
    | Ok _ => ack
    | Throw e =>
        {| FileAck.bytes_received := FileAck.bytes_received ack;
           FileAck.success := false;
           FileAck.error_message := what e |}
    end in
  (send_message h (ev_random ev) (Message.make (ev_indet ev) (BFileAck ack)), fs).

(** One iteration of the [while (true)] loop of [handle]: an exception
    leaves the loop. *)
Definition handle_iteration (h : t) (fs : FileSystem.t) (ev : Event)
  : result (t * FileSystem.t) :=
  '(h, message) ← receive_message h (ev_indet ev) (ev_data ev);
  match Message.get_type message with
  | 3 (* FILE_REQUEST *) =>
      match Message.body message with
      | BFileRequest request => Ok (handle_file_request h fs ev request)
      | _ => Ok (h, fs)
      end
  | 5 (* FILE_DATA *) =>
      match Message.body message with
      | BFileData data => Ok (handle_file_data h fs ev data)
      | _ => Ok (h, fs)
      end
  | _ => Ok (h, fs)
  end.

(** How far [handle] got on the frames received so far: still in the loop,
    waiting for the next frame, or out of it after an exception. *)
Inductive Outcome : Type :=
| Waiting
| Closed (e : exn).

Fixpoint message_loop (h : t) (fs : FileSystem.t) (events : list Event)
  : t * FileSystem.t * Outcome :=
  match events with
  | [] => (h, fs, Waiting)
  | ev :: events =>
      match handle_iteration h fs ev with
      | Ok (h, fs) => message_loop h fs events
      | Throw e => (h, fs, Closed e)
      end
  end.

Definition handle (routine : AesCtr.BlockRoutine) (h : t) (fs : FileSystem.t)
    (handshake : Event) (events : list Event) : t * FileSystem.t * Outcome :=
  match perform_handshake routine h handshake with
  | Ok h => message_loop h fs events
  | Throw e => (h, fs, Closed e)
  end.

End ConnectionHandler.

(** ** client/client.cpp: the sending side of [Client] *)

Module Client.

Record t : Type := {
  crypto_ : option ChaCha20Poly1305.t;
  crypto_engine_ : option CryptoEngine.t;
  connected_ : bool;
  socket_ : list Written
}.

Definition set_crypto_engine_ (c : t) (e : option CryptoEngine.t) : t :=
  {| crypto_ := crypto_ c; crypto_engine_ := e;
     connected_ := connected_ c; socket_ := socket_ c |}.

Definition socket_send (c : t) (w : Written) : t :=
  {| crypto_ := crypto_ c; crypto_engine_ := crypto_engine_ c;
     connected_ := connected_ c; socket_ := socket_ c ++ [w] |}.

Definition has_cipher (c : t) : bool :=
  bool_decide (is_Some (crypto_engine_ c)) || bool_decide (is_Some (crypto_ c)).

Definition encrypt_message (c : t) (random : list Z) (data : list Z) : t * list Z :=
  match crypto_engine_ c, crypto_ c with
  | Some engine, _ =>
      let '(engine, out) := CryptoEngine.encrypt engine random data in
      (set_crypto_engine_ c (Some engine), out)
  | None, Some crypto =>
      let nonce := array_of ChaCha20Poly1305.NONCE_SIZE random in
      let encrypted := ChaCha20Poly1305.encrypt crypto data nonce [] in
      (c, nonce ++ encrypted)
  | None, None => (c, data)
  end.

(** [connected_] becomes true when [perform_handshake] has returned. *)
Definition send_message (c : t) (random : list Z) (message : Message.t) : t :=
  let data := Message.serialize message in
  let '(c, data) :=
    if negb (Message.get_type message =? MessageType.HANDSHAKE_REQUEST)
       && negb (Message.get_type message =? MessageType.HANDSHAKE_RESPONSE)
    then if has_cipher c then encrypt_message c random data else (c, data)
    else (c, data) in
  socket_send c {| w_handshake_completed := connected_ c;
                   w_message := message; w_data := data |}.

Definition decrypt_message (c : t) (data : list Z) : result (t * list Z) :=
  match crypto_engine_ c, crypto_ c with
  | Some engine, _ =>
      '(engine, out) ← CryptoEngine.decrypt engine data;
      Ok (set_crypto_engine_ c (Some engine), out)
  | None, Some crypto =>
      if decide (length data <
                 ChaCha20Poly1305.NONCE_SIZE + ChaCha20Poly1305.TAG_SIZE)%nat
      then Throw (CryptoException "Encrypted message too short")
      else
        let nonce := take ChaCha20Poly1305.NONCE_SIZE data in
        let encrypted_data := drop ChaCha20Poly1305.NONCE_SIZE data in
        let tag := last_n ChaCha20Poly1305.TAG_SIZE encrypted_data in
        out ← ChaCha20Poly1305.decrypt crypto encrypted_data nonce tag [];
        Ok (c, out)
  | None, None => Ok (c, data)
  end.

(** [receive_message], given the bytes read after the length prefix: the
    client decrypts whenever it holds a cipher. *)
Definition receive_message (c : t) (i : Indeterminate) (data : list Z)
  : result (t * Message.t) :=
  '(c, data) ← (if has_cipher c then decrypt_message c data else Ok (c, data));
  message ← Message.deserialize i data;
  Ok (c, message).

(** How far a transfer got on the replies received so far: through,
    waiting for a reply, or ended by an exception. *)
Inductive Progress : Type :=
| Done
| Blocked
| Failed (e : exn).

(** The test every acknowledgment goes through. *)
Definition check_ack (ack_msg : Message.t) : result unit :=
  match Message.body ack_msg with
  | BFileAck ack =>
      if FileAck.success ack then Ok ()
      else Throw (FileException ("Transfer failed: " +:+ FileAck.error_message ack))
  | _ => Throw (FileException "Transfer failed: No acknowledgment")
  end.

Section Transfer.

(** [compress_buffer] calls the LZ4 library, which is not part of the
    sources: it stands here as a function from the chunk to what
    [compress_buffer] returns or throws. *)
Variable compress_buffer : list Z -> result (list Z).
(** The client's file system and [config_.buffer_size]. *)
Variable local : FileSystem.t.
Variable buffer_size : nat.

(** One pass through the [while] loop of [send_file_data]; [ev] holds what
    the pass takes from outside: the random bytes for the frame sent and the
    frame read back.  The progress callback and the bandwidth pause change
    nothing modelled. *)
Definition send_chunk (c : t) (file_path : string) (total_size : Z)
    (compress : bool) (bytes_sent : Z) (ev : Event) : t * result Z :=
  let chunk_size :=
    Z.to_nat (Z.min (Z.of_nat buffer_size) (total_size - bytes_sent)) in
  match FileManager.read_file_chunk local file_path bytes_sent chunk_size with
  | Throw e => (c, Throw e)
  | Ok chunk_data =>
      match (if compress then compress_buffer chunk_data else Ok chunk_data) with
      | Throw e => (c, Throw e)
      | Ok payload =>
          let data_msg :=
            {| FileData.offset := bytes_sent;
               FileData.data := payload;
               FileData.is_last_chunk :=
                 bool_decide
                   (total_size <= uint64 (bytes_sent + Z.of_nat (length chunk_data)));
               FileData.compressed := compress |} in
          let c := send_message c (ev_random ev)
                     (Message.make (ev_indet ev) (BFileData data_msg)) in
          match receive_message c (ev_indet ev) (ev_data ev) with
          | Throw e => (c, Throw e)
          | Ok (c, ack_msg) =>
              match check_ack ack_msg with
              | Throw e => (c, Throw e)
              | Ok _ => (c, Ok (uint64 (bytes_sent + Z.of_nat (length chunk_data))))
              end
          end
      end
  end.

(** [while (bytes_sent < total_size)], one reply a pass. *)
Fixpoint send_loop (c : t) (file_path : string) (total_size : Z)
    (compress : bool) (bytes_sent : Z) (events : list Event) : t * Progress :=
  if decide (bytes_sent < total_size) then
    match events with
    | [] => (c, Blocked)
    | ev :: events =>
        match send_chunk c file_path total_size compress bytes_sent ev with
        | (c, Ok bytes_sent) =>
            send_loop c file_path total_size compress bytes_sent events
        | (c, Throw e) => (c, Failed e)
        end
    end
  else (c, Done).

Definition send_file_data (c : t) (file_path : string)
    (resume_offset total_size : Z) (events : list Event) : t * Progress :=
  let bytes_sent := resume_offset in
  let compress := Compression.is_compressible file_path in
  if decide (total_size = 0) then
    match events with
    | [] => (c, Blocked)
    | ev :: _ =>
        let data_msg :=
          {| FileData.offset := 0; FileData.data := [];
             FileData.is_last_chunk := true;
             FileData.compressed := ind_flag' (ev_indet ev) |} in
        let c := send_message c (ev_random ev)
                   (Message.make (ev_indet ev) (BFileData data_msg)) in
        match receive_message c (ev_indet ev) (ev_data ev) with
        | Throw e => (c, Failed e)
        | Ok (c, ack_msg) =>
            match check_ack ack_msg with
            | Throw e => (c, Failed e)
            | Ok _ => (c, Done)
            end
        end
    end
  else send_loop c file_path total_size compress bytes_sent events.

(** [transfer_single_file]: the request, the response, then the data. *)
Definition transfer_single_file (c : t) (local_path remote_path : string)
    (resume : bool) (events : list Event) : t * Progress :=
  match FileManager.file_size local local_path with
  | Throw e => (c, Failed e)
  | Ok file_size =>
      match events with
      | [] => (c, Blocked)
      | ev :: events =>
          let request :=
            {| FileRequest.source_path := local_path;
               FileRequest.destination_path := remote_path;
               FileRequest.recursive := false;
               FileRequest.resume_offset := if resume then 1 else 0 |} in
          let c := send_message c (ev_random ev)
                     (Message.make (ev_indet ev) (BFileRequest request)) in
          match receive_message c (ev_indet ev) (ev_data ev) with
          | Throw e => (c, Failed e)
          | Ok (c, response_msg) =>
              match Message.body response_msg with
              | BFileResponse response =>
                  if negb (FileResponse.success response) then
                    (c, Failed (FileException
                                  ("Server error: "
                                   +:+ FileResponse.error_message response)))
                  else
                    send_file_data c local_path
                      (FileResponse.resume_offset response) file_size events
              | _ => (c, Failed (ProtocolException "Invalid file response"))
              end
          end
      end
  end.

End Transfer.

End Client.

(** Two runs of the mixing loop side by side: the two data vectors keep
    their difference [delta], and the two keys differ by [delta] after an
    odd number of rounds and not at all after an even number. *)
Definition mixed_alike (odd : bool) (delta : nat -> Z)
    (s1 s2 : list Z * list Z) : Prop :=
  length (fst s1) = length (fst s2) /\
  length (snd s1) = length (snd s2) /\
  (forall i x y, fst s1 !! i = Some x -> fst s2 !! i = Some y ->
                 Z.lxor x y = delta i) /\
  (forall i x y, snd s1 !! i = Some x -> snd s2 !! i = Some y ->
                 Z.lxor x y
                 = if odd && bool_decide (i < length (fst s1))%nat
                   then delta i else 0).

(** The cipher [encrypt_message] and [decrypt_message] end up using, on
    either side: the engine if there is one, otherwise the legacy ChaCha20
    object, which writes what the HIGH engine writes. *)
Definition effective_cipher (engine : option CryptoEngine.t)
    (legacy : option ChaCha20Poly1305.t) : option CryptoEngine.t :=
  match engine, legacy with
  | Some e, _ => Some e
  | None, Some k => Some (CryptoEngine.HighSecurityEngine k)
  | None, None => None
  end.

(** Two sides hold ciphers of one suite and one key, or none. *)
Definition same_cipher (x y : option CryptoEngine.t) : Prop :=
  match x, y with
  | Some a, Some b => same_key a b
  | None, None => True
  | _, _ => False
  end.

(** Sender and receiver use the same suite, other than AES-256-GCM, under
    the same key, or neither uses one. *)
Definition ciphers_agree (sender receiver : option CryptoEngine.t) : Prop :=
  match sender, receiver with
  | Some a, Some b =>
      same_key a b /\
      CryptoEngine.get_security_level a <> SecurityLevel.AES_256_GCM
  | None, None => True
  | _, _ => False
  end.

(** What a sender puts on the wire for [b], given its effective cipher. *)
Definition on_the_wire (cipher : option CryptoEngine.t) (random b : list Z) : list Z :=
  match cipher with
  | Some e => snd (CryptoEngine.encrypt e random b)
  | None => b
  end.

(** ** The legacy cipher object of both programs

    The block [Server::load_config] and [Client::connect] run on the
    configured [secret_key]: no object for an empty key, otherwise the key
    read with [from_hex_string] (thirty-two bytes whenever the call returns,
    so that [std::copy] fills the whole array). *)
Definition legacy_crypto (secret_key : string) : result (option ChaCha20Poly1305.t) :=
  if decide (secret_key = "") then Ok None
  else
    let hex_key := secret_key in
    let hex_key :=
      if decide (2 < String.length hex_key)%nat
      then if String.eqb (substring 0 2 hex_key) "0x"
           then substring 2 (String.length hex_key - 2) hex_key else hex_key
      else hex_key in
    if decide (String.length hex_key <> 64%nat) then
      Throw (runtime_error
               ("Invalid secret key length. Expected 64 hex characters (32 bytes), got "
                +:+ pretty (String.length hex_key)))
    else
      key_bytes ← Utils.from_hex_string hex_key;
      Ok (Some (ChaCha20Poly1305.ctor (take ChaCha20Poly1305.KEY_SIZE key_bytes))).

(** ** Predicates on written frames and on paths *)

(** The frame carries its message as [serialize] produced it. *)
Definition cleartext (w : Written) : Prop :=
  w_data w = Message.serialize (w_message w).

(** The frame carries the output of some engine's [encrypt] on the
    serialized message.  The legacy ChaCha20 object of [encrypt_message]
    produces what the HIGH engine produces. *)
Definition encrypted (w : Written) : Prop :=
  exists engine random,
    w_data w = snd (CryptoEngine.encrypt engine random (Message.serialize (w_message w))).






(** ** Valid message instances *)

(** The integer members hold values of their C++ types. *)
Definition fields_in_range (b : Body) : Prop :=
  match b with
  | BHandshakeRequest p => is_uint8 (HandshakeRequest.security_level p)
  | BHandshakeResponse p => is_uint8 (HandshakeResponse.accepted_security_level p)
  | BFileRequest p => is_uint64 (FileRequest.resume_offset p)
  | BFileResponse p =>
      is_uint64 (FileResponse.file_size p) /\
      is_uint64 (FileResponse.resume_offset p)
  | BFileData p => is_uint64 (FileData.offset p)
  | BFileAck p => is_uint64 (FileAck.bytes_received p)
  | BErrorMessage p => is_uint32 (ErrorMessage.error_code p)
  end.

(** A message object of one of the seven classes whose header carries the
    type of its class and whose payload length fits the header's 32-bit
    field. *)
Definition valid_message (m : Message.t) : Prop :=
  MessageHeader.type (Message.header_ m) = Message.class_type (Message.body m) /\
  is_uint32 (MessageHeader.sequence_number (Message.header_ m)) /\
  is_uint32 (MessageHeader.reserved (Message.header_ m)) /\
  fields_in_range (Message.body m) /\
  is_uint32 (Z.of_nat (length (Message.serialize_payload (Message.body m)))).

(** What the receiver holds after [deserialize (serialize m)]: the header
    with the payload length filled in, and for a [FileData] the member
    [compressed] as the receiver's constructor left it. *)
Definition as_received (i : Indeterminate) (m : Message.t) : Message.t :=
  {| Message.header_ :=
       {| MessageHeader.type := MessageHeader.type (Message.header_ m);
          MessageHeader.payload_length :=
            Z.of_nat (length (Message.serialize_payload (Message.body m)));
          MessageHeader.sequence_number :=
            MessageHeader.sequence_number (Message.header_ m);
          MessageHeader.reserved := MessageHeader.reserved (Message.header_ m) |};
     Message.body :=
       match Message.body m with
       | BFileData p =>
           BFileData {| FileData.offset := FileData.offset p;
                        FileData.data := FileData.data p;
                        FileData.is_last_chunk := FileData.is_last_chunk p;
                        FileData.compressed := ind_flag' i |}
       | b => b
       end |}.

(** ** Handshake payloads of a peer that predates the suite byte *)

(** The members before [security_level], as [serialize_payload] writes
    them, without the trailing byte. *)
Definition HandshakeRequest_presuite (client_version : string)
    (client_nonce : list Z) : list Z :=
  Wire.write_bytes (Wire.write_string [] client_version) client_nonce.

Definition HandshakeResponse_presuite (server_version : string)
    (server_nonce : list Z) (authentication_required : bool) : list Z :=
  Wire.write_bytes (Wire.write_string [] server_version) server_nonce
    ++ [byte_of_bool authentication_required].

(** A header followed by its payload, as [Message::serialize] lays a
    message out. *)
Definition message_bytes (ty sequence_number : Z) (payload : list Z) : list Z :=
  MessageHeader.serialize
    {| MessageHeader.type := ty;
       MessageHeader.payload_length := uint32 (Z.of_nat (length payload));
       MessageHeader.sequence_number := sequence_number;
       MessageHeader.reserved := 0 |} ++ payload.

(** The reply to a FileData that no FileRequest prepared. *)
Definition no_transfer_ack (i : Indeterminate) : Message.t :=
  Message.make i
    (BFileAck {| FileAck.bytes_received := ind_u64 i;
                 FileAck.success := false;
                 FileAck.error_message := "No file transfer in progress" |}).



(** The content of the regular file at [path], nothing if there is none. *)
Definition content_at (fs : FileSystem.t) (path : string) : list Z :=
  match FileSystem.status fs path with
  | Some (FileSystem.File c) => c
  | _ => []
  end.





(** ** Concrete sessions used in the examples *)

Module Sample.

Definition indet : Indeterminate :=
  {| ind_u32 := 7; ind_u64 := 9; ind_u64' := 11;
     ind_flag := true; ind_flag' := false |}.

(** A server that asks for no authentication and has no key. *)
Definition config_open : ServerConfig.t :=
  {| ServerConfig.secret_key := "";
     ServerConfig.require_auth := false;
     ServerConfig.allowed_paths := ["/tmp/out"] |}.

(** A server with a 32-byte key in hexadecimal. *)
Definition config_keyed : ServerConfig.t :=
  {| ServerConfig.secret_key :=
       "0x000102030405060708090a0b0c0d0e0f101112131415161718191a1b1c1d1e1f";
     ServerConfig.require_auth := true;
     ServerConfig.allowed_paths := ["/tmp/out"] |}.

(** [/tmp/out] is an empty directory, [/etc/passwd] a file, and
    [/tmp/out/part.bin] a file of four bytes. *)
Definition fs : FileSystem.t :=
  {| FileSystem.nodes :=
       {[ ["tmp"] := FileSystem.Directory;
          ["tmp"; "out"] := FileSystem.Directory;
          ["tmp"; "out"; "part.bin"] := FileSystem.File [1; 2; 3; 4];
          ["etc"] := FileSystem.Directory;
          ["etc"; "passwd"] := FileSystem.File [114; 111; 111; 116] ]};
     FileSystem.cwd := "/srv" |}.

Definition random : list Z := map Z.of_nat (seq 100 16).

(** The event of receiving [data] in cleartext. *)
Definition received (data : list Z) : Event :=
  {| ev_data := data; ev_indet := indet; ev_random := random; ev_nonce := random |}.

Definition handshake_request (level : Z) : Message.t :=
  Message.make indet
    (BHandshakeRequest
       {| HandshakeRequest.client_version := "NetCopy v1.0.0";
          HandshakeRequest.client_nonce := random;
          HandshakeRequest.security_level := level |}).

Definition file_request (destination : string) (resume_offset : Z) : Message.t :=
  Message.make indet
    (BFileRequest
       {| FileRequest.source_path := "/home/user/hello.bin";
          FileRequest.destination_path := destination;
          FileRequest.recursive := false;
          FileRequest.resume_offset := resume_offset |}).

Definition file_data (offset : Z) (data : list Z) : Message.t :=
  Message.make indet
    (BFileData
       {| FileData.offset := offset; FileData.data := data;
          FileData.is_last_chunk := true; FileData.compressed := false |}).

(** The open server's handler once the handshake is done. *)
Definition open_handler : ConnectionHandler.t :=
  {| ConnectionHandler.config_ := config_open;
     ConnectionHandler.crypto_ := None;
     ConnectionHandler.crypto_engine_ := None;
     ConnectionHandler.negotiated_security_level_ := SecurityLevel.FAST;
     ConnectionHandler.sequence_number_ := 1;
     ConnectionHandler.current_file_path_ := "";
     ConnectionHandler.handshake_completed_ := true;
     ConnectionHandler.client_socket_ := [] |}.


(** The last chunk of a transfer: two bytes at offset 4. *)
Definition chunk : FileData.t :=
  {| FileData.offset := 4; FileData.data := [5; 6];
     FileData.is_last_chunk := true; FileData.compressed := false |}.



End Sample.

(* ================================================================== *)
(** * Part II: properties                                              *)
(* ================================================================== *)

(** ** Bit-level facts of the little-endian codec *)

Section Bits.

Lemma testbit_255 n : 0 <= n -> Z.testbit 255 n = (n <? 8).
Proof.
  intros Hn. change 255 with (Z.ones 8).
  apply Z.testbit_ones_nonneg; lia.
Qed.

Lemma testbit_byte_at v k n :
  0 <= k -> 0 <= n ->
  Z.testbit (Z.shiftl (Z.land (Z.shiftr v k) 255) k) n
  = Z.testbit v n && (k <=? n) && (n <? k + 8).
Proof.
  intros Hk Hn. rewrite Z.shiftl_spec by lia.
  destruct (Z.leb_spec k n) as [Hle|Hlt].
  - rewrite Z.land_spec, Z.shiftr_spec, testbit_255 by lia.
    replace (n - k + k) with n by lia.
    replace (n - k <? 8) with (n <? k + 8); [now rewrite andb_true_r|].
    destruct (Z.ltb_spec n (k + 8)), (Z.ltb_spec (n - k) 8); lia.
  - rewrite Z.testbit_neg_r by lia. now rewrite andb_false_r.
Qed.

Lemma testbit_byte_0 v n :
  0 <= n -> Z.testbit (Z.land v 255) n = Z.testbit v n && (n <? 8).
Proof. intros Hn. now rewrite Z.land_spec, testbit_255. Qed.

Lemma testbit_above v w n :
  0 <= v < 2 ^ w -> 0 <= w <= n -> Z.testbit v n = false.
Proof.
  intros Hv Hw. rewrite <- (Z.mod_small v (2 ^ w)) by lia.
  apply Z.mod_pow2_bits_high; lia.
Qed.

Lemma land_255_range v : 0 <= Z.land v 255 < 256.
Proof.
  change 255 with (Z.ones 8). rewrite Z.land_ones by lia.
  apply Z.mod_pos_bound; lia.
Qed.

Lemma shiftl_byte_small b k :
  0 <= b < 256 -> 0 <= k <= 56 -> uint64 (Z.shiftl b k) = Z.shiftl b k.
Proof.
  intros Hb Hk. unfold uint64. apply Z.mod_small.
  rewrite Z.shiftl_mul_pow2 by lia. split; [nia|].
  apply Z.lt_le_trans with (256 * 2 ^ k); [nia|].
  change 256 with (2 ^ 8). rewrite <- Z.pow_add_r by lia.
  apply Z.pow_le_mono_r; lia.
Qed.

End Bits.

Ltac decide_cmp :=
  repeat match goal with
         | |- context [Z.leb ?a ?b] => destruct (Z.leb_spec a b); try lia
         | |- context [Z.ltb ?a ?b] => destruct (Z.ltb_spec a b); try lia
         end.

Lemma le32_join v :
  is_uint32 v ->
  uint32 (Z.lor (Z.lor (Z.lor (Z.land v 255)
                              (Z.shiftl (Z.land (Z.shiftr v 8) 255) 8))
                       (Z.shiftl (Z.land (Z.shiftr v 16) 255) 16))
                (Z.shiftl (Z.land (Z.shiftr v 24) 255) 24)) = v.
Proof.
  intros Hv. unfold is_uint32 in Hv.
  match goal with |- uint32 ?e = _ => assert (He : e = v) end.
  { apply Z.bits_inj'. intros n Hn.
    rewrite !Z.lor_spec, !testbit_byte_at, testbit_byte_0 by lia.
    destruct (Z.lt_ge_cases n 32) as [Hlt|Hge].
    - destruct (Z.testbit v n); simpl; [|reflexivity].
      assert (n < 8 \/ 8 <= n < 16 \/ 16 <= n < 24 \/ 24 <= n) as Hc by lia.
      destruct Hc as [?|[?|[?|?]]]; decide_cmp; reflexivity.
    - rewrite (testbit_above v 32 n) by lia. reflexivity. }
  rewrite He. unfold uint32. apply Z.mod_small. lia.
Qed.

Lemma le64_join v :
  is_uint64 v ->
  fold_left (fun acc i =>
               Z.lor acc (uint64 (Z.shiftl (Z.land (Z.shiftr v (Z.of_nat i * 8)) 255)
                                           (Z.of_nat i * 8))))
            (seq 0 8) 0 = v.
Proof.
  intros Hv. unfold is_uint64 in Hv. cbn [fold_left seq].
  rewrite !shiftl_byte_small by (try apply land_255_range; lia).
  apply Z.bits_inj'. intros n Hn.
  rewrite !Z.lor_spec, !testbit_byte_at, Z.bits_0 by lia.
  destruct (Z.lt_ge_cases n 64) as [Hlt|Hge].
  - destruct (Z.testbit v n); simpl; [|reflexivity].
    assert (n < 8 \/ 8 <= n < 16 \/ 16 <= n < 24 \/ 24 <= n < 32 \/
            32 <= n < 40 \/ 40 <= n < 48 \/ 48 <= n < 56 \/ 56 <= n) as Hc by lia.
    destruct Hc as [?|[?|[?|[?|[?|[?|[?|?]]]]]]]; decide_cmp; reflexivity.
  - rewrite (testbit_above v 64 n) by lia. reflexivity.
Qed.

(** ** Strings as bytes *)

Lemma string_of_bytes_of_string s : string_of_bytes (bytes_of_string s) = s.
Proof.
  unfold string_of_bytes, bytes_of_string. rewrite map_map.
  rewrite (map_ext _ (fun c => c)), map_id.
  - apply string_of_list_ascii_of_string.
  - intros c. rewrite N2Z.id. apply ascii_N_embedding.
Qed.

Lemma length_bytes_of_string s :
  length (bytes_of_string s) = String.length s.
Proof.
  unfold bytes_of_string. rewrite length_map.
  induction s as [|c s IH]; simpl; [reflexivity|now rewrite IH].
Qed.

(** ** Writers append; readers read back what a writer appended *)

Module WireFacts.
Import Wire.

Lemma write_uint32_app buffer v :
  write_uint32 buffer v = buffer ++ write_uint32 [] v.
Proof. reflexivity. Qed.

Lemma write_uint64_app buffer v :
  write_uint64 buffer v = buffer ++ write_uint64 [] v.
Proof.
  unfold write_uint64. cbn [fold_left seq].
  rewrite <- !app_assoc. reflexivity.
Qed.

Lemma write_string_app buffer s :
  write_string buffer s = buffer ++ write_string [] s.
Proof.
  unfold write_string. rewrite write_uint32_app, <- app_assoc. reflexivity.
Qed.

Lemma write_bytes_app buffer d :
  write_bytes buffer d = buffer ++ write_bytes [] d.
Proof.
  unfold write_bytes. rewrite write_uint32_app, <- app_assoc. reflexivity.
Qed.

Lemma length_write_uint32 v : length (write_uint32 [] v) = 4%nat.
Proof. reflexivity. Qed.

Lemma length_write_uint64 v : length (write_uint64 [] v) = 8%nat.
Proof. reflexivity. Qed.

Lemma length_write_string s :
  length (write_string [] s) = (4 + String.length s)%nat.
Proof.
  unfold write_string. rewrite length_app, length_bytes_of_string.
  reflexivity.
Qed.

Lemma length_write_bytes d :
  length (write_bytes [] d) = (4 + length d)%nat.
Proof. unfold write_bytes. rewrite length_app. reflexivity. Qed.

Lemma at_app_r pre l k : at_ (pre ++ l) (length pre + k) = at_ l k.
Proof. unfold at_. apply app_nth2_plus. Qed.

Lemma read_uint32_at buffer off pre v rest :
  buffer = pre ++ write_uint32 [] v ++ rest ->
  off = length pre ->
  is_uint32 v ->
  read_uint32 buffer off = Ok (v, (off + 4)%nat).
Proof.
  intros -> -> Hv. unfold read_uint32.
  destruct (decide _) as [Hlt|_].
  { rewrite !length_app, length_write_uint32 in Hlt. lia. }
  rewrite <- (Nat.add_0_r (length pre)) at 1.
  rewrite !at_app_r. cbn [write_uint32 app at_ nth].
  rewrite le32_join by assumption. reflexivity.
Qed.

Lemma read_uint64_at buffer off pre v rest :
  buffer = pre ++ write_uint64 [] v ++ rest ->
  off = length pre ->
  is_uint64 v ->
  read_uint64 buffer off = Ok (v, (off + 8)%nat).
Proof.
  intros -> -> Hv. unfold read_uint64.
  destruct (decide _) as [Hlt|_].
  { rewrite !length_app, length_write_uint64 in Hlt. lia. }
  f_equal. f_equal.
  etransitivity; [|exact (le64_join v Hv)].
  cbn [fold_left seq]. rewrite !at_app_r.
  cbn [write_uint64 fold_left seq app at_ nth]. reflexivity.
Qed.

Lemma drop_app_length' {A} (pre l : list A) n :
  n = length pre -> drop n (pre ++ l) = l.
Proof. intros ->. apply drop_app_length. Qed.

Lemma take_app_length' {A} (l rest : list A) n :
  n = length l -> take n (l ++ rest) = l.
Proof. intros ->. apply take_app_length. Qed.

Lemma read_bytes_at buffer off pre d rest :
  buffer = pre ++ write_bytes [] d ++ rest ->
  off = length pre ->
  is_uint32 (Z.of_nat (length d)) ->
  read_bytes buffer off = Ok (d, (off + 4 + length d)%nat).
Proof.
  intros -> -> Hd. unfold read_bytes, write_bytes.
  assert (Hu : uint32 (Z.of_nat (length d)) = Z.of_nat (length d)).
  { unfold uint32, is_uint32 in *. apply Z.mod_small. lia. }
  rewrite Hu.
  rewrite (read_uint32_at _ _ pre (Z.of_nat (length d)) (d ++ rest));
    [|now rewrite <- !app_assoc|reflexivity|assumption].
  cbn [mbind result_bind]. rewrite Nat2Z.id.
  destruct (decide _) as [Hlt|_].
  { rewrite !length_app, length_write_uint32 in Hlt. lia. }
  rewrite <- !app_assoc, (app_assoc pre).
  rewrite drop_app_length'
    by (rewrite length_app, length_write_uint32; reflexivity).
  rewrite take_app_length. reflexivity.
Qed.

Lemma read_string_at buffer off pre s rest :
  buffer = pre ++ write_string [] s ++ rest ->
  off = length pre ->
  is_uint32 (Z.of_nat (String.length s)) ->
  read_string buffer off = Ok (s, (off + 4 + String.length s)%nat).
Proof.
  intros -> -> Hs. unfold read_string, write_string.
  assert (Hu : uint32 (Z.of_nat (String.length s)) = Z.of_nat (String.length s)).
  { unfold uint32, is_uint32 in *. apply Z.mod_small. lia. }
  rewrite Hu.
  rewrite (read_uint32_at _ _ pre (Z.of_nat (String.length s))
                          (bytes_of_string s ++ rest));
    [|now rewrite <- !app_assoc|reflexivity|assumption].
  cbn [mbind result_bind]. rewrite Nat2Z.id.
  destruct (decide _) as [Hlt|_].
  { rewrite !length_app, length_bytes_of_string, length_write_uint32 in Hlt.
    lia. }
  rewrite <- !app_assoc, (app_assoc pre).
  rewrite drop_app_length'
    by (rewrite length_app, length_write_uint32; reflexivity).
  rewrite take_app_length' by (now rewrite length_bytes_of_string).
  rewrite string_of_bytes_of_string. reflexivity.
Qed.

End WireFacts.

(** ** Payload round trips, class by class *)

Module PayloadFacts.
Import Wire WireFacts.

Ltac len_simpl :=
  rewrite ?length_app, ?length_write_string, ?length_write_bytes,
    ?length_write_uint32, ?length_write_uint64 in *;
  cbn [length] in *.

Ltac read_side :=
  first [ now rewrite <- ?app_assoc
        | len_simpl; unfold is_uint32 in *; lia
        | assumption ].

Ltac have_room :=
  match goal with
  | |- context [decide (?a <= ?b)%nat] =>
      destruct (decide (a <= b)%nat) as [Hle|_];
      [exfalso; revert Hle; len_simpl; lia|]
  | |- context [decide (?a < ?b)%nat] =>
      destruct (decide (a < b)%nat) as [_|Hge];
      [|exfalso; apply Hge; len_simpl; lia]
  end.

Lemma at_at buffer off pre x rest :
  buffer = pre ++ x :: rest -> off = length pre -> at_ buffer off = x.
Proof.
  intros -> ->. rewrite <- (Nat.add_0_r (length pre)), at_app_r. reflexivity.
Qed.

Lemma bool_of_byte_of_bool b : negb (byte_of_bool b =? 0) = b.
Proof. now destruct b. Qed.

Lemma HandshakeRequest_flat p :
  HandshakeRequest.serialize_payload p
  = write_string [] (HandshakeRequest.client_version p)
    ++ write_bytes [] (HandshakeRequest.client_nonce p)
    ++ [uint8 (HandshakeRequest.security_level p)].
Proof.
  unfold HandshakeRequest.serialize_payload.
  rewrite (write_bytes_app (write_string _ _)), <- !app_assoc. reflexivity.
Qed.

Lemma uint8_id z : is_uint8 z -> uint8 z = z.
Proof. intros Hz. apply Z.mod_small. exact Hz. Qed.

Lemma HandshakeRequest_roundtrip self p :
  is_uint8 (HandshakeRequest.security_level p) ->
  is_uint32 (Z.of_nat (length (HandshakeRequest.serialize_payload p))) ->
  HandshakeRequest.deserialize_payload self (HandshakeRequest.serialize_payload p)
  = Ok p.
Proof.
  destruct p as [v n l]. rewrite HandshakeRequest_flat.
  cbn [HandshakeRequest.client_version HandshakeRequest.client_nonce
       HandshakeRequest.security_level].
  intros Hl Hlen. rewrite (uint8_id l Hl) in *.
  unfold HandshakeRequest.deserialize_payload.
  rewrite (read_string_at _ _ [] v (write_bytes [] n ++ [l])); [|read_side..].
  cbn [mbind result_bind].
  rewrite (read_bytes_at _ _ (write_string [] v) n [l]); [|read_side..].
  cbn [mbind result_bind]. have_room.
  rewrite (at_at _ _ (write_string [] v ++ write_bytes [] n) l []);
    [reflexivity|read_side..].
Qed.

Lemma HandshakeResponse_flat p :
  HandshakeResponse.serialize_payload p
  = write_string [] (HandshakeResponse.server_version p)
    ++ write_bytes [] (HandshakeResponse.server_nonce p)
    ++ [byte_of_bool (HandshakeResponse.authentication_required p);
        uint8 (HandshakeResponse.accepted_security_level p)].
Proof.
  unfold HandshakeResponse.serialize_payload.
  rewrite (write_bytes_app (write_string _ _)), <- !app_assoc. reflexivity.
Qed.

Lemma HandshakeResponse_roundtrip self p :
  is_uint8 (HandshakeResponse.accepted_security_level p) ->
  is_uint32 (Z.of_nat (length (HandshakeResponse.serialize_payload p))) ->
  HandshakeResponse.deserialize_payload self (HandshakeResponse.serialize_payload p)
  = Ok p.
Proof.
  destruct p as [v n a l]. rewrite HandshakeResponse_flat.
  cbn [HandshakeResponse.server_version HandshakeResponse.server_nonce
       HandshakeResponse.authentication_required
       HandshakeResponse.accepted_security_level].
  intros Hl Hlen. rewrite (uint8_id l Hl) in *.
  unfold HandshakeResponse.deserialize_payload.
  rewrite (read_string_at _ _ [] v (write_bytes [] n ++ [byte_of_bool a; l]));
    [|read_side..].
  cbn [mbind result_bind].
  rewrite (read_bytes_at _ _ (write_string [] v) n [byte_of_bool a; l]);
    [|read_side..].
  cbn [mbind result_bind]. have_room. cbv zeta. have_room.
  rewrite (at_at _ _ (write_string [] v ++ write_bytes [] n) (byte_of_bool a) [l]);
    [|read_side..].
  rewrite (at_at _ _ (write_string [] v ++ write_bytes [] n ++ [byte_of_bool a]) l []);
    [|read_side..].
  now rewrite bool_of_byte_of_bool.
Qed.

Lemma FileRequest_flat p :
  FileRequest.serialize_payload p
  = write_string [] (FileRequest.source_path p)
    ++ write_string [] (FileRequest.destination_path p)
    ++ [byte_of_bool (FileRequest.recursive p)]
    ++ write_uint64 [] (FileRequest.resume_offset p).
Proof.
  unfold FileRequest.serialize_payload.
  rewrite write_uint64_app, (write_string_app (write_string _ _)), <- !app_assoc.
  reflexivity.
Qed.

Lemma FileRequest_roundtrip self p :
  is_uint64 (FileRequest.resume_offset p) ->
  is_uint32 (Z.of_nat (length (FileRequest.serialize_payload p))) ->
  FileRequest.deserialize_payload self (FileRequest.serialize_payload p) = Ok p.
Proof.
  destruct p as [src dst r o]. rewrite FileRequest_flat.
  cbn [FileRequest.source_path FileRequest.destination_path
       FileRequest.recursive FileRequest.resume_offset].
  intros Ho Hlen. unfold FileRequest.deserialize_payload.
  rewrite (read_string_at _ _ [] src
             (write_string [] dst ++ [byte_of_bool r] ++ write_uint64 [] o));
    [|read_side..].
  cbn [mbind result_bind].
  rewrite (read_string_at _ _ (write_string [] src) dst
             ([byte_of_bool r] ++ write_uint64 [] o)); [|read_side..].
  cbn [mbind result_bind]. have_room. cbv zeta.
  rewrite (read_uint64_at _ _
             (write_string [] src ++ write_string [] dst ++ [byte_of_bool r]) o []);
    [|rewrite <- ?app_assoc, ?app_nil_r; reflexivity|read_side..].
  cbn [mbind result_bind].
  rewrite (at_at _ _ (write_string [] src ++ write_string [] dst) (byte_of_bool r)
             (write_uint64 [] o)); [|read_side..].
  now rewrite bool_of_byte_of_bool.
Qed.

Lemma FileResponse_flat p :
  FileResponse.serialize_payload p
  = [byte_of_bool (FileResponse.success p)]
    ++ write_string [] (FileResponse.error_message p)
    ++ write_uint64 [] (FileResponse.file_size p)
    ++ write_uint64 [] (FileResponse.resume_offset p).
Proof.
  unfold FileResponse.serialize_payload.
  rewrite write_uint64_app, write_uint64_app, write_string_app, <- !app_assoc.
  reflexivity.
Qed.

Lemma FileResponse_roundtrip self p :
  is_uint64 (FileResponse.file_size p) ->
  is_uint64 (FileResponse.resume_offset p) ->
  is_uint32 (Z.of_nat (length (FileResponse.serialize_payload p))) ->
  FileResponse.deserialize_payload self (FileResponse.serialize_payload p) = Ok p.
Proof.
  destruct p as [ok msg fs ro]. rewrite FileResponse_flat.
  cbn [FileResponse.success FileResponse.error_message
       FileResponse.file_size FileResponse.resume_offset].
  intros Hfs Hro Hlen. unfold FileResponse.deserialize_payload.
  cbv zeta. have_room.
  rewrite (read_string_at _ _ [byte_of_bool ok] msg
             (write_uint64 [] fs ++ write_uint64 [] ro)); [|read_side..].
  cbn [mbind result_bind].
  rewrite (read_uint64_at _ _ ([byte_of_bool ok] ++ write_string [] msg) fs
             (write_uint64 [] ro)); [|read_side..].
  cbn [mbind result_bind].
  rewrite (read_uint64_at _ _
             ([byte_of_bool ok] ++ write_string [] msg ++ write_uint64 [] fs) ro []);
    [|rewrite <- ?app_assoc, ?app_nil_r; reflexivity|read_side..].
  cbn [mbind result_bind].
  rewrite (at_at _ _ [] (byte_of_bool ok)
             (write_string [] msg ++ write_uint64 [] fs ++ write_uint64 [] ro));
    [|read_side..].
  now rewrite bool_of_byte_of_bool.
Qed.

Lemma FileData_flat p :
  FileData.serialize_payload p
  = write_uint64 [] (FileData.offset p)
    ++ write_bytes [] (FileData.data p)
    ++ [byte_of_bool (FileData.is_last_chunk p)].
Proof.
  unfold FileData.serialize_payload.
  rewrite (write_bytes_app (write_uint64 _ _)), <- !app_assoc. reflexivity.
Qed.

(** [compressed] is neither written nor read: the object keeps the value it
    had before [deserialize_payload]. *)
Lemma FileData_roundtrip self p :
  is_uint64 (FileData.offset p) ->
  is_uint32 (Z.of_nat (length (FileData.serialize_payload p))) ->
  FileData.deserialize_payload self (FileData.serialize_payload p)
  = Ok {| FileData.offset := FileData.offset p;
          FileData.data := FileData.data p;
          FileData.is_last_chunk := FileData.is_last_chunk p;
          FileData.compressed := FileData.compressed self |}.
Proof.
  destruct p as [o d l c]. rewrite FileData_flat.
  cbn [FileData.offset FileData.data FileData.is_last_chunk FileData.compressed].
  intros Ho Hlen. unfold FileData.deserialize_payload.
  rewrite (read_uint64_at _ _ [] o (write_bytes [] d ++ [byte_of_bool l]));
    [|read_side..].
  cbn [mbind result_bind].
  rewrite (read_bytes_at _ _ (write_uint64 [] o) d [byte_of_bool l]);
    [|read_side..].
  cbn [mbind result_bind]. have_room.
  rewrite (at_at _ _ (write_uint64 [] o ++ write_bytes [] d) (byte_of_bool l) []);
    [|read_side..].
  now rewrite bool_of_byte_of_bool.
Qed.

Lemma FileAck_flat p :
  FileAck.serialize_payload p
  = write_uint64 [] (FileAck.bytes_received p)
    ++ [byte_of_bool (FileAck.success p)]
    ++ write_string [] (FileAck.error_message p).
Proof.
  unfold FileAck.serialize_payload.
  rewrite write_string_app, <- !app_assoc. reflexivity.
Qed.

Lemma FileAck_roundtrip self p :
  is_uint64 (FileAck.bytes_received p) ->
  is_uint32 (Z.of_nat (length (FileAck.serialize_payload p))) ->
  FileAck.deserialize_payload self (FileAck.serialize_payload p) = Ok p.
Proof.
  destruct p as [n ok msg]. rewrite FileAck_flat.
  cbn [FileAck.bytes_received FileAck.success FileAck.error_message].
  intros Hn Hlen. unfold FileAck.deserialize_payload.
  rewrite (read_uint64_at _ _ [] n ([byte_of_bool ok] ++ write_string [] msg));
    [|read_side..].
  cbn [mbind result_bind]. have_room. cbv zeta.
  rewrite (read_string_at _ _ (write_uint64 [] n ++ [byte_of_bool ok]) msg []);
    [|rewrite <- ?app_assoc, ?app_nil_r; reflexivity|read_side..].
  cbn [mbind result_bind].
  rewrite (at_at _ _ (write_uint64 [] n) (byte_of_bool ok) (write_string [] msg));
    [|read_side..].
  now rewrite bool_of_byte_of_bool.
Qed.

Lemma ErrorMessage_flat p :
  ErrorMessage.serialize_payload p
  = write_uint32 [] (ErrorMessage.error_code p)
    ++ write_string [] (ErrorMessage.error_description p).
Proof.
  unfold ErrorMessage.serialize_payload.
  rewrite (write_string_app (write_uint32 _ _)). reflexivity.
Qed.

Lemma ErrorMessage_roundtrip self p :
  is_uint32 (ErrorMessage.error_code p) ->
  is_uint32 (Z.of_nat (length (ErrorMessage.serialize_payload p))) ->
  ErrorMessage.deserialize_payload self (ErrorMessage.serialize_payload p) = Ok p.
Proof.
  destruct p as [c d]. rewrite ErrorMessage_flat.
  cbn [ErrorMessage.error_code ErrorMessage.error_description].
  intros Hc Hlen. unfold ErrorMessage.deserialize_payload.
  rewrite (read_uint32_at _ _ [] c (write_string [] d)); [|read_side..].
  cbn [mbind result_bind].
  rewrite (read_string_at _ _ (write_uint32 [] c) d []);
    [|rewrite <- ?app_assoc, ?app_nil_r; reflexivity|read_side..].
  reflexivity.
Qed.

End PayloadFacts.

(** ** Header and whole-message round trip *)

Module MessageFacts.
Import Wire WireFacts PayloadFacts.

Lemma MessageHeader_flat h :
  MessageHeader.serialize h
  = write_uint32 [] (MessageHeader.type h)
    ++ write_uint32 [] (MessageHeader.payload_length h)
    ++ write_uint32 [] (MessageHeader.sequence_number h)
    ++ write_uint32 [] (MessageHeader.reserved h).
Proof. reflexivity. Qed.

Lemma length_MessageHeader_serialize h :
  length (MessageHeader.serialize h) = MessageHeader.SIZE.
Proof. reflexivity. Qed.

Lemma MessageHeader_roundtrip h rest :
  is_uint32 (MessageHeader.type h) ->
  is_uint32 (MessageHeader.payload_length h) ->
  is_uint32 (MessageHeader.sequence_number h) ->
  is_uint32 (MessageHeader.reserved h) ->
  MessageHeader.deserialize (MessageHeader.serialize h ++ rest) = Ok h.
Proof.
  destruct h as [ty len sq rs]. rewrite MessageHeader_flat.
  cbn [MessageHeader.type MessageHeader.payload_length
       MessageHeader.sequence_number MessageHeader.reserved].
  intros Hty Hlen Hsq Hrs. unfold MessageHeader.deserialize.
  destruct (decide _) as [Hlt|_].
  { exfalso. revert Hlt. unfold MessageHeader.SIZE. len_simpl. lia. }
  cbv zeta.
  rewrite (read_uint32_at _ _ [] ty
             (write_uint32 [] len ++ write_uint32 [] sq ++ write_uint32 [] rs ++ rest));
    [|read_side..].
  cbn [mbind result_bind].
  rewrite (read_uint32_at _ _ (write_uint32 [] ty) len
             (write_uint32 [] sq ++ write_uint32 [] rs ++ rest)); [|read_side..].
  cbn [mbind result_bind].
  rewrite (read_uint32_at _ _ (write_uint32 [] ty ++ write_uint32 [] len) sq
             (write_uint32 [] rs ++ rest)); [|read_side..].
  cbn [mbind result_bind].
  rewrite (read_uint32_at _ _
             (write_uint32 [] ty ++ write_uint32 [] len ++ write_uint32 [] sq) rs rest);
    [|read_side..].
  reflexivity.
Qed.

Lemma class_type_uint32 b : is_uint32 (Message.class_type b).
Proof. destruct b; cbv; split; congruence. Qed.

(** The payload decoder of the class selected by the header's type reads
    back every member the encoder wrote. *)
Lemma deserialize_payload_serialize i b :
  fields_in_range b ->
  is_uint32 (Z.of_nat (length (Message.serialize_payload b))) ->
  (message ← Message.make_unique i (Message.class_type b);
   Message.deserialize_payload message (Message.serialize_payload b))
  = Ok (Message.body (as_received i (Message.make i b))).
Proof.
  intros Hr Hlen.
  destruct b as [p|p|p|p|p|p|p];
    cbn [Message.class_type Message.make_unique Message.deserialize_payload
         Message.serialize_payload mbind result_bind fields_in_range
         as_received Message.body Message.make
         MessageType.HANDSHAKE_REQUEST MessageType.HANDSHAKE_RESPONSE
         MessageType.FILE_REQUEST MessageType.FILE_RESPONSE
         MessageType.FILE_DATA MessageType.FILE_ACK
         MessageType.ERROR_MESSAGE fmap result_fmap] in *.
  - now rewrite HandshakeRequest_roundtrip.
  - now rewrite HandshakeResponse_roundtrip.
  - now rewrite FileRequest_roundtrip.
  - destruct Hr. now rewrite FileResponse_roundtrip.
  - now rewrite FileData_roundtrip.
  - now rewrite FileAck_roundtrip.
  - now rewrite ErrorMessage_roundtrip.
Qed.

(** Round trip of every message class: all members come back, except that
    [FileData::compressed] is the receiver's own value. *)
Theorem deserialize_serialize i m :
  valid_message m ->
  Message.deserialize i (Message.serialize m) = Ok (as_received i m).
Proof.
  destruct m as [[ty len sq rs] b].
  unfold valid_message.
  cbn [Message.header_ Message.body MessageHeader.type
       MessageHeader.sequence_number MessageHeader.reserved].
  intros (Hty & Hsq & Hrs & Hr & Hlen). subst ty.
  unfold Message.serialize, Message.deserialize.
  cbn [Message.header_ Message.body MessageHeader.type
       MessageHeader.sequence_number MessageHeader.reserved].
  assert (Hu : uint32 (Z.of_nat (length (Message.serialize_payload b)))
               = Z.of_nat (length (Message.serialize_payload b))).
  { unfold uint32, is_uint32 in *. apply Z.mod_small. lia. }
  rewrite Hu. cbv zeta.
  destruct (decide _) as [Hlt|_].
  { exfalso. revert Hlt. rewrite length_app, length_MessageHeader_serialize. lia. }
  rewrite MessageHeader_roundtrip;
    [|first [apply class_type_uint32|assumption]..].
  cbn [mbind result_bind MessageHeader.payload_length MessageHeader.type].
  rewrite Nat2Z.id.
  destruct (decide _) as [Hlt|_].
  { exfalso. revert Hlt. rewrite length_app, length_MessageHeader_serialize. lia. }
  rewrite drop_app_length' by (now rewrite length_MessageHeader_serialize).
  rewrite firstn_all.
  pose proof (deserialize_payload_serialize i b Hr Hlen) as Hp.
  destruct (Message.make_unique i (Message.class_type b)) as [fresh|e];
    cbn [mbind result_bind] in *; [|discriminate].
  rewrite Hp. reflexivity.
Qed.

End MessageFacts.

(** ** The [compressed] member of [FileData] *)

Module CompressedFlag.
Import Wire WireFacts PayloadFacts MessageFacts.

(** C2: the payload written for a [FileData] is the same whatever
    [compressed] holds, so the flag is not on the wire; decoding the payload
    of a chunk sent with [compressed = true] leaves the receiver's member at
    the value its constructor left there. *)
Theorem FileData_compressed_not_on_wire (i : Indeterminate) (o : Z)
    (d : list Z) (l : bool) :
  FileData.serialize_payload
    {| FileData.offset := o; FileData.data := d;
       FileData.is_last_chunk := l; FileData.compressed := true |}
  = FileData.serialize_payload
      {| FileData.offset := o; FileData.data := d;
         FileData.is_last_chunk := l; FileData.compressed := false |}
  /\ FileData.deserialize_payload (FileData.ctor i)
       (FileData.serialize_payload
          {| FileData.offset := 0; FileData.data := [65; 66; 67];
             FileData.is_last_chunk := true; FileData.compressed := true |})
     = Ok {| FileData.offset := 0; FileData.data := [65; 66; 67];
             FileData.is_last_chunk := true;
             FileData.compressed := ind_flag' i |}.
Proof.
  split; [reflexivity|].
  rewrite FileData_roundtrip; [reflexivity| |]; cbv; split; congruence.
Qed.

(** C1: for a [FileData] whose [compressed] differs from what the
    receiver's constructor leaves in that member, [deserialize (serialize m)]
    succeeds but yields a message whose payload differs from [m]. *)
Theorem roundtrip_loses_compressed (i : Indeterminate) :
  let m :=
    Message.make i
      (BFileData {| FileData.offset := 0; FileData.data := [65; 66; 67];
                    FileData.is_last_chunk := true;
                    FileData.compressed := negb (ind_flag' i) |}) in
  valid_message m /\
  Message.deserialize i (Message.serialize m) = Ok (as_received i m) /\
  Message.body (as_received i m) <> Message.body m.
Proof.
  intros m.
  assert (Hv : valid_message m).
  { unfold valid_message, m. cbn. repeat split; try congruence; lia. }
  split; [exact Hv|]. split; [now apply deserialize_serialize|].
  unfold m. cbn. intros H. injection H as H. now destruct (ind_flag' i).
Qed.

End CompressedFlag.

(** ** Handshake payloads without the security-level byte *)

Module PresuiteHandshake.
Import Wire WireFacts PayloadFacts MessageFacts.

Lemma HandshakeRequest_presuite_decoded self v n :
  is_uint32 (Z.of_nat (String.length v)) ->
  is_uint32 (Z.of_nat (length n)) ->
  HandshakeRequest.deserialize_payload self (HandshakeRequest_presuite v n)
  = Ok {| HandshakeRequest.client_version := v;
          HandshakeRequest.client_nonce := n;
          HandshakeRequest.security_level :=
            HandshakeRequest.security_level self |}.
Proof.
  intros Hv Hn. unfold HandshakeRequest_presuite.
  rewrite write_bytes_app. unfold HandshakeRequest.deserialize_payload.
  rewrite (read_string_at _ _ [] v (write_bytes [] n)); [|read_side..].
  cbn [mbind result_bind].
  rewrite (read_bytes_at _ _ (write_string [] v) n []);
    [|now rewrite app_nil_r|read_side..].
  cbn [mbind result_bind].
  destruct (decide _) as [Hlt|_]; [|reflexivity].
  exfalso. revert Hlt. len_simpl. lia.
Qed.

Lemma HandshakeResponse_presuite_decoded self v n a :
  is_uint32 (Z.of_nat (String.length v)) ->
  is_uint32 (Z.of_nat (length n)) ->
  HandshakeResponse.deserialize_payload self (HandshakeResponse_presuite v n a)
  = Ok {| HandshakeResponse.server_version := v;
          HandshakeResponse.server_nonce := n;
          HandshakeResponse.authentication_required := a;
          HandshakeResponse.accepted_security_level :=
            HandshakeResponse.accepted_security_level self |}.
Proof.
  intros Hv Hn. unfold HandshakeResponse_presuite.
  rewrite write_bytes_app, <- app_assoc.
  unfold HandshakeResponse.deserialize_payload.
  rewrite (read_string_at _ _ [] v (write_bytes [] n ++ [byte_of_bool a]));
    [|read_side..].
  cbn [mbind result_bind].
  rewrite (read_bytes_at _ _ (write_string [] v) n [byte_of_bool a]);
    [|read_side..].
  cbn [mbind result_bind]. have_room. cbv zeta.
  rewrite (at_at _ _ (write_string [] v ++ write_bytes [] n) (byte_of_bool a) []);
    [|read_side..].
  rewrite bool_of_byte_of_bool.
  destruct (decide _) as [Hlt|_]; [|reflexivity].
  exfalso. revert Hlt. len_simpl. lia.
Qed.

Lemma deserialize_message_bytes i ty sq payload :
  is_uint32 ty -> is_uint32 sq ->
  is_uint32 (Z.of_nat (length payload)) ->
  Message.deserialize i (message_bytes ty sq payload)
  = (message ← Message.make_unique i ty;
     message ← Message.deserialize_payload message payload;
     Ok {| Message.header_ :=
             {| MessageHeader.type := ty;
                MessageHeader.payload_length := Z.of_nat (length payload);
                MessageHeader.sequence_number := sq;
                MessageHeader.reserved := 0 |};
           Message.body := message |}).
Proof.
  intros Hty Hsq Hlen. unfold message_bytes, Message.deserialize.
  assert (Hu : uint32 (Z.of_nat (length payload)) = Z.of_nat (length payload)).
  { unfold uint32, is_uint32 in *. apply Z.mod_small. lia. }
  rewrite Hu.
  destruct (decide _) as [Hlt|_].
  { exfalso. revert Hlt. rewrite length_app, length_MessageHeader_serialize. lia. }
  rewrite MessageHeader_roundtrip; [|first [assumption|cbv; split; congruence]..].
  cbn [mbind result_bind MessageHeader.payload_length MessageHeader.type].
  rewrite Nat2Z.id.
  destruct (decide _) as [Hlt|_].
  { exfalso. revert Hlt. rewrite length_app, length_MessageHeader_serialize. lia. }
  rewrite drop_app_length' by (now rewrite length_MessageHeader_serialize).
  rewrite firstn_all. reflexivity.
Qed.

(** C10: a HandshakeRequest or HandshakeResponse message whose payload ends
    before the security-level byte is decoded without error, and the decoded
    object's security level is the constructor's default, HIGH (0). *)
Theorem handshake_without_suite_byte_is_HIGH (i : Indeterminate)
    (version : string) (nonce : list Z) (auth : bool) (sq : Z) :
  is_uint32 (Z.of_nat (String.length version)) ->
  is_uint32 (Z.of_nat (length nonce)) ->
  is_uint32 (Z.of_nat (length (HandshakeResponse_presuite version nonce auth))) ->
  is_uint32 sq ->
  (exists h,
     Message.deserialize i
       (message_bytes MessageType.HANDSHAKE_REQUEST sq
          (HandshakeRequest_presuite version nonce))
     = Ok {| Message.header_ := h;
             Message.body :=
               BHandshakeRequest
                 {| HandshakeRequest.client_version := version;
                    HandshakeRequest.client_nonce := nonce;
                    HandshakeRequest.security_level := SecurityLevel.HIGH |} |})
  /\
  (exists h,
     Message.deserialize i
       (message_bytes MessageType.HANDSHAKE_RESPONSE sq
          (HandshakeResponse_presuite version nonce auth))
     = Ok {| Message.header_ := h;
             Message.body :=
               BHandshakeResponse
                 {| HandshakeResponse.server_version := version;
                    HandshakeResponse.server_nonce := nonce;
                    HandshakeResponse.authentication_required := auth;
                    HandshakeResponse.accepted_security_level :=
                      SecurityLevel.HIGH |} |}).
Proof.
  intros Hv Hn Hlen Hsq.
  assert (Hlen' : is_uint32 (Z.of_nat (length (HandshakeRequest_presuite version nonce)))).
  { revert Hlen. unfold HandshakeResponse_presuite, HandshakeRequest_presuite.
    rewrite length_app. cbn [length]. unfold is_uint32. lia. }
  split; eexists.
  - rewrite deserialize_message_bytes; [|cbv; split; congruence|assumption..].
    cbn [Message.make_unique MessageType.HANDSHAKE_REQUEST mbind result_bind
         Message.deserialize_payload fmap result_fmap].
    rewrite HandshakeRequest_presuite_decoded by assumption. reflexivity.
  - rewrite deserialize_message_bytes; [|cbv; split; congruence|assumption..].
    cbn [Message.make_unique MessageType.HANDSHAKE_RESPONSE mbind result_bind
         Message.deserialize_payload fmap result_fmap].
    rewrite HandshakeResponse_presuite_decoded by assumption. reflexivity.
Qed.

Lemma handshake_without_suite_byte_is_HIGH_witness :
  (exists h,
     Message.deserialize Sample.indet
       (message_bytes MessageType.HANDSHAKE_REQUEST 1
          (HandshakeRequest_presuite "NetCopy v1.0.0" Sample.random))
     = Ok {| Message.header_ := h;
             Message.body :=
               BHandshakeRequest
                 {| HandshakeRequest.client_version := "NetCopy v1.0.0";
                    HandshakeRequest.client_nonce := Sample.random;
                    HandshakeRequest.security_level := SecurityLevel.HIGH |} |})
  /\
  (exists h,
     Message.deserialize Sample.indet
       (message_bytes MessageType.HANDSHAKE_RESPONSE 1
          (HandshakeResponse_presuite "NetCopy v1.0.0" Sample.random true))
     = Ok {| Message.header_ := h;
             Message.body :=
               BHandshakeResponse
                 {| HandshakeResponse.server_version := "NetCopy v1.0.0";
                    HandshakeResponse.server_nonce := Sample.random;
                    HandshakeResponse.authentication_required := true;
                    HandshakeResponse.accepted_security_level :=
                      SecurityLevel.HIGH |} |}).
Proof.
  apply (handshake_without_suite_byte_is_HIGH
           Sample.indet "NetCopy v1.0.0" Sample.random true 1);
    vm_compute; split; congruence.
Defined.

End PresuiteHandshake.

(** ** Stream ciphers: xor with a key stream is its own inverse *)

Module StreamFacts.

Lemma length_array_of n l : length (array_of n l) = n.
Proof.
  unfold array_of. rewrite length_take, length_app, length_replicate. lia.
Qed.

Lemma array_of_exact n l : length l = n -> array_of n l = l.
Proof.
  intros <-. unfold array_of. apply take_app_length.
Qed.

Lemma array_of_idemp n l : array_of n (array_of n l) = array_of n l.
Proof. apply array_of_exact, length_array_of. Qed.

Lemma length_xor_stream k i l : length (xor_stream k i l) = length l.
Proof.
  revert i. induction l as [|b l IH]; intros i; simpl; [reflexivity|].
  now rewrite IH.
Qed.

Lemma lxor_cancel b x : Z.lxor (Z.lxor b x) x = b.
Proof. now rewrite Z.lxor_assoc, Z.lxor_nilpotent, Z.lxor_0_r. Qed.

Lemma xor_stream_involutive k i l : xor_stream k i (xor_stream k i l) = l.
Proof.
  revert i. induction l as [|b l IH]; intros i; simpl; [reflexivity|].
  now rewrite lxor_cancel, IH.
Qed.

(** A processed first block followed by the processed rest splits again at
    the block boundary. *)
Lemma block_split {A} n (data x r : list A) :
  length x = length (take n data) ->
  (drop n data = [] -> r = []) ->
  take n (x ++ r) = x /\ drop n (x ++ r) = r.
Proof.
  intros Hx Hr. rewrite length_take in Hx.
  destruct (Nat.le_gt_cases (length data) n) as [Hle|Hgt].
  - rewrite (Hr (drop_ge _ _ Hle)), app_nil_r.
    split; [apply take_ge|apply drop_ge]; lia.
  - assert (length x = n) as Hn by lia.
    split; [now apply take_app_length'|now apply drop_app_length'].
Qed.

Lemma last_n_app n (x y : list Z) : length y = n -> last_n n (x ++ y) = y.
Proof.
  intros <-. unfold last_n. rewrite length_app.
  replace (length x + length y - length y)%nat with (length x) by lia.
  apply drop_app_length.
Qed.

Lemma but_last_n_app n (x y : list Z) :
  length y = n -> but_last_n n (x ++ y) = x.
Proof.
  intros <-. unfold but_last_n. rewrite length_app.
  replace (length x + length y - length y)%nat with (length x) by lia.
  apply take_app_length.
Qed.

Lemma length_but_last_n n (l : list Z) :
  length (but_last_n n l) = (length l - n)%nat.
Proof. unfold but_last_n. rewrite length_take. lia. Qed.

(** *** ChaCha20 *)

Lemma chacha_loop_nil fuel state : ChaCha20.encrypt_loop fuel state [] = [].
Proof. now destruct fuel. Qed.

Lemma length_chacha_loop fuel state data :
  (length data <= fuel)%nat ->
  length (ChaCha20.encrypt_loop fuel state data) = length data.
Proof.
  revert state data. induction fuel as [|fuel IH]; intros state data Hf.
  - destruct data; [reflexivity|simpl in Hf; lia].
  - destruct data as [|b data]; [reflexivity|].
    cbn [ChaCha20.encrypt_loop].
    rewrite length_app, length_xor_stream, IH.
    + rewrite <- length_app, take_drop. reflexivity.
    + rewrite length_drop. unfold ChaCha20.BLOCK_SIZE. simpl in *. lia.
Qed.

Lemma chacha_loop_involutive fuel state data :
  (length data <= fuel)%nat ->
  ChaCha20.encrypt_loop fuel state (ChaCha20.encrypt_loop fuel state data) = data.
Proof.
  revert state data. induction fuel as [|fuel IH]; intros state data Hf.
  - destruct data; [reflexivity|simpl in Hf; lia].
  - destruct data as [|b data]; [reflexivity|].
    assert (Hrest : (length (drop ChaCha20.BLOCK_SIZE (b :: data)) <= fuel)%nat).
    { rewrite length_drop. unfold ChaCha20.BLOCK_SIZE. simpl in *. lia. }
    cbn [ChaCha20.encrypt_loop].
    set (ks := ChaCha20.generate_keystream state) in *.
    set (st' := <[12%nat:=uint32 (at_ state 12 + 1)]> state) in *.
    set (x := xor_stream (at_ ks) 0 (take ChaCha20.BLOCK_SIZE (b :: data))).
    set (r := ChaCha20.encrypt_loop fuel st' (drop ChaCha20.BLOCK_SIZE (b :: data))).
    destruct (block_split ChaCha20.BLOCK_SIZE (b :: data) x r) as [Ht Hd].
    { unfold x. apply length_xor_stream. }
    { intros E. unfold r. rewrite E. apply chacha_loop_nil. }
    assert (Hne : x ++ r <> []).
    { unfold x. simpl. discriminate. }
    destruct (x ++ r) as [|c out] eqn:E; [congruence|].
    rewrite Ht, Hd. unfold x, r.
    rewrite xor_stream_involutive, IH by exact Hrest.
    apply take_drop.
Qed.

Lemma length_chacha_encrypt state data :
  length (ChaCha20.encrypt state data) = length data.
Proof. unfold ChaCha20.encrypt. now apply length_chacha_loop. Qed.

Lemma chacha_encrypt_involutive state data :
  ChaCha20.encrypt state (ChaCha20.encrypt state data) = data.
Proof.
  unfold ChaCha20.encrypt. rewrite length_chacha_loop by reflexivity.
  now apply chacha_loop_involutive.
Qed.

End StreamFacts.

Module CipherFacts.
Import StreamFacts.

(** *** AES-CTR *)

Lemma aes_loop_nil fuel c iv counter : AesCtr.process_loop fuel c iv counter [] = [].
Proof. now destruct fuel. Qed.

Lemma length_aes_loop fuel c iv counter data :
  (length data <= fuel)%nat ->
  length (AesCtr.process_loop fuel c iv counter data) = length data.
Proof.
  revert counter data. induction fuel as [|fuel IH]; intros counter data Hf.
  - destruct data; [reflexivity|simpl in Hf; lia].
  - destruct data as [|b data]; [reflexivity|].
    cbn [AesCtr.process_loop].
    rewrite length_app, length_xor_stream, IH.
    + rewrite <- length_app, take_drop. reflexivity.
    + rewrite length_drop. unfold AesCtr.BLOCK_SIZE. simpl in *. lia.
Qed.

Lemma aes_loop_involutive fuel c iv counter data :
  (length data <= fuel)%nat ->
  AesCtr.process_loop fuel c iv counter
    (AesCtr.process_loop fuel c iv counter data) = data.
Proof.
  revert counter data. induction fuel as [|fuel IH]; intros counter data Hf.
  - destruct data; [reflexivity|simpl in Hf; lia].
  - destruct data as [|b data]; [reflexivity|].
    assert (Hrest : (length (drop AesCtr.BLOCK_SIZE (b :: data)) <= fuel)%nat).
    { rewrite length_drop. unfold AesCtr.BLOCK_SIZE. simpl in *. lia. }
    cbn [AesCtr.process_loop].
    set (ks := AesCtr.encrypt_block c _ _).
    set (x := xor_stream (at_ ks) 0 (take AesCtr.BLOCK_SIZE (b :: data))).
    set (r := AesCtr.process_loop fuel c iv (uint64 (counter + 1))
                (drop AesCtr.BLOCK_SIZE (b :: data))).
    destruct (block_split AesCtr.BLOCK_SIZE (b :: data) x r) as [Ht Hd].
    { unfold x. apply length_xor_stream. }
    { intros E. unfold r. rewrite E. apply aes_loop_nil. }
    assert (Hne : x ++ r <> []).
    { unfold x. simpl. discriminate. }
    destruct (x ++ r) as [|c' out] eqn:E; [congruence|].
    rewrite Ht, Hd. unfold x, r.
    rewrite xor_stream_involutive, IH by exact Hrest.
    apply take_drop.
Qed.

Lemma length_aes_process c data iv :
  length (AesCtr.process c data iv) = length data.
Proof.
  unfold AesCtr.process. destruct data as [|b data]; [reflexivity|].
  now apply length_aes_loop.
Qed.

Lemma aes_process_involutive c data iv :
  AesCtr.process c (AesCtr.process c data iv) iv = data.
Proof.
  pose proof (length_aes_process c data iv) as Hlen.
  unfold AesCtr.process in *. destruct data as [|b data]; [reflexivity|].
  destruct (AesCtr.process_loop _ c _ 0 (b :: data)) as [|b' out] eqn:E;
    [discriminate|].
  rewrite Hlen, <- E. now apply aes_loop_involutive.
Qed.

(** *** The rolling-key XOR cipher *)

Lemma xor_loop_nil fuel c : XorCipher.process_loop fuel c [] = (c, []).
Proof. now destruct fuel. Qed.

Lemma length_xor_loop fuel c data :
  (length data <= fuel)%nat ->
  length (snd (XorCipher.process_loop fuel c data)) = length data.
Proof.
  revert c data. induction fuel as [|fuel IH]; intros c data Hf.
  - destruct data; [reflexivity|simpl in Hf; lia].
  - destruct data as [|b data]; [reflexivity|].
    cbn [XorCipher.process_loop].
    destruct (drop XorCipher.CHUNK_SIZE (b :: data)) as [|b' rest] eqn:E.
    + cbn [snd]. rewrite length_xor_stream.
      rewrite <- (take_drop XorCipher.CHUNK_SIZE (b :: data)) at 2.
      now rewrite E, app_nil_r.
    + specialize (IH (XorCipher.update_key c) (b' :: rest)).
      destruct (XorCipher.process_loop fuel _ (b' :: rest)) as [c' out'].
      cbn [snd] in *. rewrite length_app, length_xor_stream, IH.
      * rewrite <- E, <- length_app, take_drop. reflexivity.
      * rewrite <- E, length_drop. unfold XorCipher.CHUNK_SIZE. simpl in *. lia.
Qed.

(** The output depends on the cipher object only through the key it
    starts from and the round counter. *)
Lemma xor_loop_involutive fuel c data :
  (length data <= fuel)%nat ->
  snd (XorCipher.process_loop fuel c
         (snd (XorCipher.process_loop fuel c data))) = data.
Proof.
  revert c data. induction fuel as [|fuel IH]; intros c data Hf.
  - destruct data; [reflexivity|simpl in Hf; lia].
  - destruct data as [|b data]; [reflexivity|].
    pose proof (length_xor_loop (S fuel) c (b :: data) Hf) as Hlen.
    cbn [XorCipher.process_loop] in *.
    set (k := fun i : nat => at_ (XorCipher.current_key_ c) (i mod XorCipher.KEY_SIZE)) in *.
    set (x := xor_stream k 0 (take XorCipher.CHUNK_SIZE (b :: data))) in *.
    destruct (drop XorCipher.CHUNK_SIZE (b :: data)) as [|b' rest] eqn:E.
    + cbn [snd] in *.
      assert (Hx : take XorCipher.CHUNK_SIZE (b :: data) = b :: data).
      { rewrite <- (take_drop XorCipher.CHUNK_SIZE (b :: data)) at 2.
        now rewrite E, app_nil_r. }
      assert (Hk : (length x <= XorCipher.CHUNK_SIZE)%nat).
      { unfold x. rewrite length_xor_stream, length_take. lia. }
      destruct x as [|x0 xs] eqn:Ex; [discriminate|].
      rewrite (drop_ge (x0 :: xs)), (take_ge (x0 :: xs)) by exact Hk.
      cbn [snd]. rewrite <- Ex. unfold x.
      rewrite xor_stream_involutive. exact Hx.
    + assert (Hrest : (length (b' :: rest) <= fuel)%nat).
      { rewrite <- E, length_drop. unfold XorCipher.CHUNK_SIZE. simpl in *. lia. }
      specialize (IH (XorCipher.update_key c) (b' :: rest) Hrest).
      pose proof (length_xor_loop fuel (XorCipher.update_key c) (b' :: rest) Hrest)
        as Hlr.
      destruct (XorCipher.process_loop fuel (XorCipher.update_key c) (b' :: rest))
        as [c' r].
      cbn [snd] in *.
      destruct (block_split XorCipher.CHUNK_SIZE (b :: data) x r) as [Ht Hd].
      { unfold x. apply length_xor_stream. }
      { rewrite E. discriminate. }
      assert (Hne : x ++ r <> []).
      { unfold x. simpl. discriminate. }
      destruct (x ++ r) as [|c0 out] eqn:Eo; [congruence|].
      rewrite Ht, Hd.
      destruct r as [|r0 r]; [discriminate|].
      destruct (XorCipher.process_loop fuel (XorCipher.update_key c) (r0 :: r))
        as [c'' out'].
      cbn [snd] in *. subst out'. unfold x.
      rewrite xor_stream_involutive, <- E. apply take_drop.
Qed.

(** *** Poly1305: the tag has sixteen bytes *)

Lemma length_carry_propagate carry xs :
  length (Poly1305.carry_propagate carry xs) = length xs.
Proof.
  revert carry. induction xs as [|x xs IH]; intros carry; simpl; [reflexivity|].
  now rewrite IH.
Qed.

Lemma poly_shape_ctor key : Poly1305.shape (Poly1305.ctor key).
Proof. split; reflexivity. Qed.

Lemma poly_shape_update_chunk p chunk :
  Poly1305.shape p -> Poly1305.shape (Poly1305.update_chunk p chunk).
Proof.
  intros [Hh Hs]. unfold Poly1305.update_chunk, Poly1305.multiply_by_r, Poly1305.shape.
  cbn [Poly1305.h_ Poly1305.s_]. split; [|exact Hs].
  rewrite length_carry_propagate. reflexivity.
Qed.

Lemma poly_shape_update_loop fuel p data :
  Poly1305.shape p -> Poly1305.shape (Poly1305.update_loop fuel p data).
Proof.
  revert p data. induction fuel as [|fuel IH]; intros p data Hp; [exact Hp|].
  destruct data as [|b data]; [exact Hp|].
  cbn [Poly1305.update_loop]. apply IH. now apply poly_shape_update_chunk.
Qed.

Lemma poly_shape_update p data : Poly1305.shape p -> Poly1305.shape (Poly1305.update p data).
Proof. apply poly_shape_update_loop. Qed.

Lemma length_concat_store32 ws : length (concat (map store32 ws)) = (4 * length ws)%nat.
Proof.
  induction ws as [|w ws IH]; [reflexivity|].
  cbn [map concat]. rewrite length_app, IH. cbn [store32 length]. lia.
Qed.

Lemma length_finalize p : Poly1305.shape p -> length (Poly1305.finalize p) = 16%nat.
Proof.
  intros [Hh Hs]. unfold Poly1305.finalize.
  rewrite length_concat_store32, length_carry_propagate, length_zip_with.
  rewrite length_take, length_carry_propagate, Hh, Hs. reflexivity.
Qed.

Lemma length_compute_tag c nonce ad ct :
  length (ChaCha20Poly1305.compute_tag c nonce ad ct) = ChaCha20Poly1305.TAG_SIZE.
Proof.
  unfold ChaCha20Poly1305.compute_tag. apply length_finalize.
  repeat apply poly_shape_update. apply poly_shape_ctor.
Qed.

End CipherFacts.

(** ** Engines: decrypt after encrypt *)

Module EngineFacts.
Import StreamFacts CipherFacts.

Lemma xor_process_reset_involutive a b data :
  XorCipher.base_key_ a = XorCipher.base_key_ b ->
  snd (XorCipher.process (XorCipher.reset b)
         (snd (XorCipher.process (XorCipher.reset a) data))) = data.
Proof.
  intros Hk. unfold XorCipher.process, XorCipher.reset. rewrite <- Hk.
  rewrite length_xor_loop by reflexivity.
  now apply xor_loop_involutive.
Qed.

Lemma high_engine_round_trip c random b :
  snd <$> CryptoEngine.decrypt (CryptoEngine.HighSecurityEngine c)
            (snd (CryptoEngine.encrypt (CryptoEngine.HighSecurityEngine c) random b))
  = Ok b.
Proof.
  cbn [CryptoEngine.encrypt CryptoEngine.decrypt snd].
  set (nonce := array_of ChaCha20Poly1305.NONCE_SIZE random).
  assert (Hn : length nonce = ChaCha20Poly1305.NONCE_SIZE) by apply length_array_of.
  unfold ChaCha20Poly1305.encrypt.
  set (ct := ChaCha20.encrypt _ b).
  set (tag := ChaCha20Poly1305.compute_tag c nonce [] ct).
  assert (Ht : length tag = ChaCha20Poly1305.TAG_SIZE) by apply length_compute_tag.
  destruct (decide _) as [Hlt|_].
  { exfalso. revert Hlt. rewrite !length_app, Hn, Ht. lia. }
  rewrite take_app_length', drop_app_length' by (symmetry; exact Hn).
  rewrite last_n_app by exact Ht.
  unfold ChaCha20Poly1305.decrypt.
  destruct (decide _) as [Hlt|_].
  { exfalso. revert Hlt. rewrite !length_app, Ht. lia. }
  rewrite but_last_n_app by exact Ht. fold tag.
  destruct (decide (tag = tag)) as [_|Hne]; [|congruence].
  cbn [mbind result_bind fmap result_fmap snd]. unfold ct.
  now rewrite chacha_encrypt_involutive.
Qed.

Lemma fast_engine_round_trip a b random data :
  XorCipher.base_key_ a = XorCipher.base_key_ b ->
  snd <$> CryptoEngine.decrypt (CryptoEngine.FastSecurityEngine b)
            (snd (CryptoEngine.encrypt (CryptoEngine.FastSecurityEngine a) random data))
  = Ok data.
Proof.
  intros Hk. cbn [CryptoEngine.encrypt CryptoEngine.decrypt].
  pose proof (xor_process_reset_involutive a b data Hk) as H.
  destruct (XorCipher.process (XorCipher.reset a) data) as [a' out].
  cbn [snd] in *.
  destruct (XorCipher.process (XorCipher.reset b) out) as [b' back].
  cbn [snd fmap result_fmap] in *. now rewrite H.
Qed.

Lemma aes_engine_round_trip c random b :
  snd <$> CryptoEngine.decrypt (CryptoEngine.AesSecurityEngine c)
            (snd (CryptoEngine.encrypt (CryptoEngine.AesSecurityEngine c) random b))
  = Ok b.
Proof.
  cbn [CryptoEngine.encrypt CryptoEngine.decrypt snd].
  set (iv := array_of AesCtr.IV_SIZE random).
  assert (Hn : length iv = AesCtr.IV_SIZE) by apply length_array_of.
  destruct (decide _) as [Hlt|_].
  { exfalso. revert Hlt. rewrite !length_app, Hn. lia. }
  rewrite take_app_length', drop_app_length' by (symmetry; exact Hn).
  cbn [fmap result_fmap snd]. now rewrite aes_process_involutive.
Qed.

(** For the suites HIGH, FAST and AES, a receiver holding the sender's key
    decrypts what the sender encrypted back to the plaintext. *)
Theorem three_suites_round_trip sender receiver random b :
  same_key sender receiver ->
  CryptoEngine.get_security_level sender <> SecurityLevel.AES_256_GCM ->
  snd <$> CryptoEngine.decrypt receiver (snd (CryptoEngine.encrypt sender random b))
  = Ok b.
Proof.
  intros Hk Hs.
  destruct sender as [a|a|a|a], receiver as [c|c|c|c];
    cbn [same_key] in Hk; try contradiction.
  - subst c. apply high_engine_round_trip.
  - now apply fast_engine_round_trip.
  - subst c. apply aes_engine_round_trip.
Qed.

Lemma length_simple_tag c iv ct :
  length (Aes256GcmGpu.simple_tag c iv ct) = Aes256GcmGpu.TAG_SIZE.
Proof. unfold Aes256GcmGpu.simple_tag. now rewrite length_map, length_seq. Qed.

(** C4: on the AES-256-GCM engine, decrypting the output of encrypt under
    the same key never returns the plaintext: the engine removes the tag
    before calling the cipher, which removes sixteen more bytes.  For a
    three-byte plaintext the call throws. *)
Theorem gcm_engine_never_round_trips (c : Aes256GcmGpu.t) (random b : list Z) :
  snd <$> CryptoEngine.decrypt (CryptoEngine.GpuSecurityEngine c)
            (snd (CryptoEngine.encrypt (CryptoEngine.GpuSecurityEngine c) random b))
  <> Ok b
  /\
  snd <$> CryptoEngine.decrypt (CryptoEngine.GpuSecurityEngine c)
            (snd (CryptoEngine.encrypt (CryptoEngine.GpuSecurityEngine c) random
                    [65; 66; 67]))
  = Throw (runtime_error "Ciphertext too short for authentication tag").
Proof.
  assert (Hgen : forall d,
    snd <$> CryptoEngine.decrypt (CryptoEngine.GpuSecurityEngine c)
              (snd (CryptoEngine.encrypt (CryptoEngine.GpuSecurityEngine c) random d))
    = (let iv := array_of Aes256GcmGpu.IV_SIZE random in
       Aes256GcmGpu.decrypt c
         (AesCtr.process (Aes256GcmGpu.fallback_cipher_ c) d
            (Aes256GcmGpu.aes_iv (array_of Aes256GcmGpu.IV_SIZE iv)))
         iv
         (Aes256GcmGpu.simple_tag c (array_of Aes256GcmGpu.IV_SIZE iv)
            (AesCtr.process (Aes256GcmGpu.fallback_cipher_ c) d
               (Aes256GcmGpu.aes_iv (array_of Aes256GcmGpu.IV_SIZE iv))))
         [])).
  { intros d. cbn [CryptoEngine.encrypt CryptoEngine.decrypt snd].
    set (iv := array_of Aes256GcmGpu.IV_SIZE random).
    assert (Hn : length iv = Aes256GcmGpu.IV_SIZE) by apply length_array_of.
    unfold Aes256GcmGpu.encrypt.
    set (ct := AesCtr.process _ d _).
    set (tag := Aes256GcmGpu.simple_tag c _ ct).
    assert (Ht : length tag = Aes256GcmGpu.TAG_SIZE) by apply length_simple_tag.
    destruct (decide _) as [Hlt|_].
    { exfalso. revert Hlt. rewrite !length_app, Hn, Ht. lia. }
    rewrite take_app_length', drop_app_length' by (symmetry; exact Hn).
    destruct (decide _) as [Hlt|_].
    { exfalso. revert Hlt. rewrite !length_app, Ht. lia. }
    rewrite last_n_app, but_last_n_app by exact Ht.
    cbv zeta.
    destruct (Aes256GcmGpu.decrypt c ct iv tag []); reflexivity. }
  split.
  - rewrite Hgen. cbv zeta. unfold Aes256GcmGpu.decrypt.
    rewrite length_aes_process.
    destruct (decide _) as [Hlt|Hge]; [discriminate|].
    destruct (decide _) as [_|_]; [|discriminate].
    intros H. injection H as H.
    apply (f_equal (@length Z)) in H.
    rewrite length_aes_process, length_but_last_n, length_aes_process in H.
    unfold Aes256GcmGpu.TAG_SIZE in *. lia.
  - rewrite Hgen. cbv zeta. unfold Aes256GcmGpu.decrypt.
    rewrite length_aes_process.
    destruct (decide _) as [_|Hge]; [reflexivity|].
    exfalso. apply Hge. unfold Aes256GcmGpu.TAG_SIZE. simpl. lia.
Qed.

End EngineFacts.

(** ** The connection handler *)

Module HandlerFacts.
Import ConnectionHandler.

Lemma send_message_current_file_path h random m :
  current_file_path_ (send_message h random m) = current_file_path_ h.
Proof.
  unfold send_message, encrypt_message.
  destruct (has_cipher h); [|reflexivity].
  destruct (crypto_engine_ h) as [engine|]; [|destruct (crypto_ h); reflexivity].
  destruct (CryptoEngine.encrypt engine random _). reflexivity.
Qed.

Lemma decrypt_message_current_file_path h data h' out :
  decrypt_message h data = Ok (h', out) ->
  current_file_path_ h' = current_file_path_ h.
Proof.
  unfold decrypt_message. intros H.
  destruct (crypto_engine_ h) as [engine|].
  - destruct (CryptoEngine.decrypt engine data) as [[engine' o]|e];
      cbn [mbind result_bind] in H; [|discriminate].
    injection H as <- _. reflexivity.
  - destruct (crypto_ h) as [crypto|]; [|now injection H as <- _].
    destruct (decide _); [discriminate|].
    destruct (ChaCha20Poly1305.decrypt _ _ _ _ _);
      cbn [mbind result_bind] in H; [|discriminate].
    now injection H as <- _.
Qed.

Lemma receive_message_current_file_path h i data h' m :
  receive_message h i data = Ok (h', m) ->
  current_file_path_ h' = current_file_path_ h.
Proof.
  unfold receive_message. intros H.
  destruct (handshake_completed_ h && has_cipher h).
  - destruct (decrypt_message h data) as [[h1 d]|e] eqn:E;
      cbn [mbind result_bind] in H; [|discriminate].
    destruct (Message.deserialize i d); cbn [mbind result_bind] in H; [|discriminate].
    injection H as <- _. eapply decrypt_message_current_file_path, E.
  - cbn [mbind result_bind] in H.
    destruct (Message.deserialize i data); cbn [mbind result_bind] in H; [|discriminate].
    now injection H as <- _.
Qed.

(** C7, as the code has it: a FileData received while [current_file_path_]
    is empty is answered with a failed FileAck; nothing is written to disk
    and the worker stays in its loop, going on to the next frame. *)
Theorem file_data_without_request_is_refused
    (h0 h : t) (fs : FileSystem.t) (ev : Event) (rest : list Event)
    (m : Message.t) (data : FileData.t) :
  current_file_path_ h0 = "" ->
  receive_message h0 (ev_indet ev) (ev_data ev) = Ok (h, m) ->
  Message.get_type m = MessageType.FILE_DATA ->
  Message.body m = BFileData data ->
  message_loop h0 fs (ev :: rest)
  = message_loop (send_message h (ev_random ev) (no_transfer_ack (ev_indet ev)))
                 fs rest.
Proof.
  intros Hp Hr Ht Hb. cbn [message_loop]. unfold handle_iteration.
  rewrite Hr. cbn [mbind result_bind]. rewrite Ht, Hb.
  cbn [MessageType.FILE_DATA].
  unfold handle_file_data, file_data_try.
  rewrite (receive_message_current_file_path _ _ _ _ _ Hr), Hp.
  destruct (decide ("" = "")) as [_|Hne]; [|congruence].
  reflexivity.
Qed.

Lemma file_data_without_request_is_refused_witness :
  message_loop Sample.open_handler Sample.fs
    [Sample.received (Message.serialize (Sample.file_data 0 [65; 66; 67]))]
  = message_loop
      (send_message Sample.open_handler Sample.random
         (no_transfer_ack Sample.indet))
      Sample.fs [].
Proof.
  apply (file_data_without_request_is_refused
           Sample.open_handler Sample.open_handler Sample.fs
           (Sample.received (Message.serialize (Sample.file_data 0 [65; 66; 67])))
           [] (as_received Sample.indet (Sample.file_data 0 [65; 66; 67]))
           {| FileData.offset := 0; FileData.data := [65; 66; 67];
              FileData.is_last_chunk := true; FileData.compressed := false |});
    reflexivity.
Defined.

(** C7, as the claim states it, fails: on the open server, a FileData sent
    straight after the handshake leaves the worker waiting for the next
    frame, with a failed FileAck written and the disk untouched. *)
Lemma file_data_before_request_not_fatal :
  let '(h, fs, outcome) :=
    handle AesCtr.encrypt_block_software
      (ctor Sample.config_open None) Sample.fs
      (Sample.received (Message.serialize (Sample.handshake_request 1)))
      [Sample.received (Message.serialize (Sample.file_data 0 [65; 66; 67]))] in
  outcome = Waiting /\
  fs = Sample.fs /\
  map (fun w => Message.body (w_message w)) (drop 1 (client_socket_ h))
  = [BFileAck {| FileAck.bytes_received := 9;
                 FileAck.success := false;
                 FileAck.error_message := "No file transfer in progress" |}].
Proof. vm_compute. repeat split. Qed.

(** *** Directory creation *)




Lemma create_if_missing_cwd fs dir :
  FileSystem.cwd (FileManager.create_if_missing fs dir) = FileSystem.cwd fs.
Proof.
  unfold FileManager.create_if_missing.
  destruct (_ && _); reflexivity.
Qed.







(** *** Chunk writes *)

Lemma lookup_set_node_eq fs key n :
  key <> [] -> FileSystem.lookup (FileSystem.set_node fs key n) key = Some n.
Proof.
  intros Hk. destruct key as [|k0 key]; [congruence|].
  cbn [FileSystem.lookup FileSystem.set_node FileSystem.nodes].
  apply lookup_insert_eq.
Qed.

Lemma lookup_set_node_ne fs key n k :
  k <> key -> FileSystem.lookup (FileSystem.set_node fs key n) k = FileSystem.lookup fs k.
Proof.
  intros Hk. destruct k as [|k0 k]; [reflexivity|].
  cbn [FileSystem.lookup FileSystem.set_node FileSystem.nodes].
  now apply lookup_insert_ne.
Qed.

Lemma write_at_nil_0 data : FileSystem.write_at [] 0 data = data.
Proof.
  unfold FileSystem.write_at. destruct data as [|b data]; [reflexivity|].
  cbn [take replicate app Nat.sub length]. rewrite drop_nil, app_nil_r.
  reflexivity.
Qed.


(** What [write_file_chunk] leaves at the path when a regular file can be
    there. *)
Lemma write_file_chunk_result fs path offset data :
  let fs1 := FileManager.create_if_missing fs (FileManager.get_directory path) in
  let key := Path.resolve (FileSystem.cwd fs) path in
  FileSystem.can_create fs1 path = true ->
  0 <= offset < 2 ^ 63 ->
  exists fs',
    FileManager.write_file_chunk fs path offset data = (fs', Ok ()) /\
    FileSystem.lookup fs' key
    = Some (FileSystem.File
              (if offset =? 0 then data
               else FileSystem.write_at (content_at fs1 path) (Z.to_nat offset) data)) /\
    (forall k, k <> key -> FileSystem.lookup fs' k = FileSystem.lookup fs1 k).
Proof.
  intros fs1 key Hcan Hoff.
  assert (Hcwd : FileSystem.cwd fs1 = FileSystem.cwd fs)
    by apply create_if_missing_cwd.
  unfold FileManager.write_file_chunk. fold fs1. rewrite Hcwd. fold key.
  assert (Hcan' := Hcan). unfold FileSystem.can_create in Hcan'.
  rewrite Hcwd in Hcan'. fold key in Hcan'.
  rewrite !andb_true_iff, !negb_true_iff in Hcan'.
  destruct Hcan' as [[[Hsep Hkey] Hnd] Hparent].
  apply bool_decide_eq_false_1 in Hkey.
  apply bool_decide_eq_false_1 in Hnd.
  assert (Hst : FileSystem.status fs1 path
                = match FileSystem.lookup fs1 key with
                  | Some FileSystem.Directory => Some FileSystem.Directory
                  | Some (FileSystem.File c) => Some (FileSystem.File c)
                  | None => None
                  end).
  { unfold FileSystem.status. rewrite Hcwd. fold key. now rewrite Hsep. }
  destruct (decide (offset = 0)) as [->|Hnz].
  - rewrite Hcan. destruct (decide _) as [Hbad|_]; [lia|].
    rewrite lookup_set_node_eq by exact Hkey.
    eexists. split; [reflexivity|]. split.
    + rewrite lookup_set_node_eq by exact Hkey. cbn [Z.eqb Z.to_nat].
      now rewrite write_at_nil_0.
    + intros k Hk. now rewrite !lookup_set_node_ne.
  - replace (offset =? 0) with false by (symmetry; apply Z.eqb_neq; exact Hnz).
    unfold content_at. rewrite Hst.
    destruct (FileSystem.lookup fs1 key) as [[c|]|] eqn:El.
    + destruct (decide _) as [Hbad|_]; [lia|].
      rewrite El. eexists. split; [reflexivity|]. split.
      * now rewrite lookup_set_node_eq.
      * intros k Hk. now rewrite lookup_set_node_ne.
    + exfalso. now apply Hnd.
    + rewrite Hcan. destruct (decide _) as [Hbad|_]; [lia|].
      rewrite lookup_set_node_eq by exact Hkey.
      eexists. split; [reflexivity|]. split.
      * now rewrite lookup_set_node_eq.
      * intros k Hk. now rewrite !lookup_set_node_ne.
Qed.





End HandlerFacts.

(** ** Path authorisation *)

Module PathFacts.
Import ConnectionHandler.















End PathFacts.

(** ** Which frames are encrypted *)

Module SessionFacts.
Import ConnectionHandler.

Lemma send_message_shape h random m :
  exists e' w,
    send_message h random m = socket_send (set_crypto_engine_ h e') w /\
    bool_decide (is_Some e') = bool_decide (is_Some (crypto_engine_ h)) /\
    w_handshake_completed w = handshake_completed_ h /\
    w_message w = m /\
    (if has_cipher h then encrypted w else cleartext w).
Proof.
  unfold send_message, has_cipher, encrypt_message.
  destruct (crypto_engine_ h) as [engine|] eqn:Ee.
  - cbn [orb]. rewrite bool_decide_eq_true_2 by (now eexists). cbn [orb].
    destruct (CryptoEngine.encrypt engine random (Message.serialize m))
      as [engine' out] eqn:Eenc.
    exists (Some engine'), {| w_handshake_completed := handshake_completed_ h;
                              w_message := m; w_data := out |}.
    repeat split.
    exists engine, random. cbn [w_data w_message]. now rewrite Eenc.
  - rewrite (bool_decide_eq_false_2 (is_Some None)) by (intros [? ?]; discriminate).
    assert (Hid : set_crypto_engine_ h None = h)
      by (destruct h; cbn in Ee |- *; rewrite Ee; reflexivity).
    cbn [orb]. destruct (crypto_ h) as [crypto|] eqn:Ec.
    + rewrite bool_decide_eq_true_2 by (now eexists).
      exists None. rewrite Hid. eexists. split; [reflexivity|].
      repeat split.
      exists (CryptoEngine.HighSecurityEngine crypto), random. reflexivity.
    + rewrite bool_decide_eq_false_2 by (intros [? ?]; discriminate).
      exists None. rewrite Hid. eexists. split; [reflexivity|].
      repeat split.
Qed.


Section Invariant.
Context (config : ServerConfig.t) (crypto : option ChaCha20Poly1305.t).










End Invariant.




End SessionFacts.
(** ** Framing: what [Message::deserialize] accepts *)

Module FramingFacts.
Import Wire WireFacts PayloadFacts MessageFacts.

Lemma serialized_header m :
  valid_message m ->
  exists h,
    Message.serialize m
    = MessageHeader.serialize h ++ Message.serialize_payload (Message.body m) /\
    MessageHeader.type h = Message.class_type (Message.body m) /\
    MessageHeader.payload_length h
    = Z.of_nat (length (Message.serialize_payload (Message.body m))) /\
    MessageHeader.sequence_number h
    = MessageHeader.sequence_number (Message.header_ m) /\
    MessageHeader.reserved h = MessageHeader.reserved (Message.header_ m) /\
    is_uint32 (MessageHeader.type h) /\
    is_uint32 (MessageHeader.payload_length h) /\
    is_uint32 (MessageHeader.sequence_number h) /\
    is_uint32 (MessageHeader.reserved h).
Proof.
  intros (Hty & Hsq & Hrs & Hr & Hlen).
  assert (Hu : uint32 (Z.of_nat (length (Message.serialize_payload (Message.body m))))
               = Z.of_nat (length (Message.serialize_payload (Message.body m)))).
  { unfold uint32, is_uint32 in *. apply Z.mod_small. lia. }
  eexists. split; [reflexivity|].
  cbn [MessageHeader.type MessageHeader.payload_length
       MessageHeader.sequence_number MessageHeader.reserved].
  rewrite Hu, Hty. repeat split; try assumption; try apply Hlen; try apply Hsq;
    try apply Hrs; apply class_type_uint32.
Qed.

Lemma deserialize_frame i h payload rest :
  is_uint32 (MessageHeader.type h) ->
  is_uint32 (MessageHeader.sequence_number h) ->
  is_uint32 (MessageHeader.reserved h) ->
  is_uint32 (MessageHeader.payload_length h) ->
  MessageHeader.payload_length h = Z.of_nat (length payload) ->
  Message.deserialize i (MessageHeader.serialize h ++ payload ++ rest)
  = (message ← Message.make_unique i (MessageHeader.type h);
     message ← Message.deserialize_payload message payload;
     Ok {| Message.header_ := h; Message.body := message |}).
Proof.
  intros Hty Hsq Hrs Hlen Hp. unfold Message.deserialize.
  destruct (decide _) as [Hlt|_].
  { exfalso. revert Hlt. rewrite length_app, length_MessageHeader_serialize. lia. }
  rewrite MessageHeader_roundtrip by assumption.
  cbn [mbind result_bind]. rewrite Hp, Nat2Z.id.
  destruct (decide _) as [Hlt|_].
  { exfalso. revert Hlt.
    rewrite !length_app, length_MessageHeader_serialize. lia. }
  rewrite drop_app_length' by (now rewrite length_MessageHeader_serialize).
  rewrite take_app_length' by reflexivity. reflexivity.
Qed.

(** A frame cut short anywhere is refused: with fewer than sixteen bytes
    because the header is incomplete, otherwise because the payload is
    shorter than the header announces. *)
Theorem truncated_frame_is_rejected (i : Indeterminate) (m : Message.t) (n : nat) :
  valid_message m ->
  (n < length (Message.serialize m))%nat ->
  Message.deserialize i (take n (Message.serialize m))
  = Throw (ProtocolException
             (if decide (n < MessageHeader.SIZE)%nat then "Message too short"
              else "Incomplete message")).
Proof.
  intros Hv Hn.
  destruct (serialized_header m Hv)
    as (h & Hs & _ & Hlen & _ & _ & Hty & Hpl & Hsq & Hrs).
  rewrite Hs in *. revert Hn.
  rewrite length_app, length_MessageHeader_serialize. intros Hn.
  unfold Message.deserialize.
  rewrite length_take, length_app, length_MessageHeader_serialize.
  destruct (decide (n < MessageHeader.SIZE)%nat) as [Hshort|Hlong].
  - destruct (decide _) as [_|Hge]; [reflexivity|]. exfalso. lia.
  - destruct (decide _) as [Hlt|_]; [exfalso; lia|].
    rewrite take_app_ge by (rewrite length_MessageHeader_serialize; lia).
    rewrite MessageHeader_roundtrip by assumption.
    cbn [mbind result_bind]. rewrite Hlen, Nat2Z.id.
    destruct (decide _) as [_|Hge]; [reflexivity|]. exfalso. lia.
Qed.

Lemma truncated_frame_is_rejected_witness :
  Message.deserialize Sample.indet
    (take 20 (Message.serialize (Sample.file_data 0 [65; 66; 67])))
  = Throw (ProtocolException "Incomplete message").
Proof.
  apply (truncated_frame_is_rejected Sample.indet (Sample.file_data 0 [65; 66; 67]) 20).
  - unfold valid_message. cbn. repeat split; try congruence; lia.
  - vm_compute. lia.
Defined.

(** Bytes that follow the payload the header announces are not looked at:
    a frame with anything appended decodes as the frame itself does. *)
Theorem bytes_after_the_payload_are_ignored
    (i : Indeterminate) (m : Message.t) (extra : list Z) :
  valid_message m ->
  Message.deserialize i (Message.serialize m ++ extra)
  = Message.deserialize i (Message.serialize m).
Proof.
  intros Hv.
  destruct (serialized_header m Hv)
    as (h & Hs & _ & Hlen & _ & _ & Hty & Hpl & Hsq & Hrs).
  pose proof (deserialize_frame i h _ [] Hty Hsq Hrs Hpl Hlen) as Hframe.
  rewrite app_nil_r in Hframe.
  rewrite Hs, Hframe, <- app_assoc. now apply deserialize_frame.
Qed.

Lemma bytes_after_the_payload_are_ignored_witness :
  Message.deserialize Sample.indet
    (Message.serialize (Sample.file_data 0 [65; 66; 67]) ++ [1; 2; 3])
  = Message.deserialize Sample.indet
      (Message.serialize (Sample.file_data 0 [65; 66; 67])).
Proof.
  apply (bytes_after_the_payload_are_ignored
           Sample.indet (Sample.file_data 0 [65; 66; 67]) [1; 2; 3]).
  unfold valid_message. cbn. repeat split; try congruence; lia.
Defined.

(** What a round trip keeps: the type, the sequence number and the
    reserved word of the header, and every member of the payload other than
    [FileData::compressed]; the payload length in the header is the real
    one. *)
Theorem round_trip_keeps_header_and_members (i : Indeterminate) (m : Message.t) :
  valid_message m ->
  exists m',
    Message.deserialize i (Message.serialize m) = Ok m' /\
    Message.get_type m' = Message.get_type m /\
    MessageHeader.sequence_number (Message.header_ m')
    = MessageHeader.sequence_number (Message.header_ m) /\
    MessageHeader.reserved (Message.header_ m')
    = MessageHeader.reserved (Message.header_ m) /\
    MessageHeader.payload_length (Message.header_ m')
    = Z.of_nat (length (Message.serialize_payload (Message.body m))) /\
    match Message.body m, Message.body m' with
    | BFileData p, BFileData p' =>
        FileData.offset p' = FileData.offset p /\
        FileData.data p' = FileData.data p /\
        FileData.is_last_chunk p' = FileData.is_last_chunk p
    | b, b' => b' = b
    end.
Proof.
  intros Hv. exists (as_received i m).
  split; [now apply deserialize_serialize|].
  unfold as_received, Message.get_type.
  cbn [Message.header_ Message.body MessageHeader.type
       MessageHeader.sequence_number MessageHeader.reserved
       MessageHeader.payload_length].
  repeat split. destruct (Message.body m); repeat split.
Qed.

Lemma round_trip_keeps_header_and_members_witness :
  exists m',
    Message.deserialize Sample.indet
      (Message.serialize (Sample.file_request "/tmp/out/hello.bin" 0)) = Ok m' /\
    Message.get_type m' = MessageType.FILE_REQUEST /\
    MessageHeader.sequence_number (Message.header_ m') = 0 /\
    MessageHeader.reserved (Message.header_ m') = 0 /\
    MessageHeader.payload_length (Message.header_ m') = 55 /\
    Message.body m' = Message.body (Sample.file_request "/tmp/out/hello.bin" 0).
Proof.
  apply (round_trip_keeps_header_and_members
           Sample.indet (Sample.file_request "/tmp/out/hello.bin" 0)).
  unfold valid_message. cbn. repeat split; try congruence; lia.
Defined.

(** A frame whose header names a type no class stands for is refused,
    whatever its payload: so are the types RESUME_REQUEST (7) and
    RESUME_RESPONSE (8), which the enumeration declares. *)
Theorem unknown_type_is_rejected
    (i : Indeterminate) (ty sq : Z) (payload : list Z) :
  is_uint32 ty -> is_uint32 sq ->
  is_uint32 (Z.of_nat (length payload)) ->
  ty = 0 \/ ty = MessageType.RESUME_REQUEST \/ ty = MessageType.RESUME_RESPONSE
  \/ 9 < ty ->
  Message.deserialize i (message_bytes ty sq payload)
  = Throw (ProtocolException "Unknown message type").
Proof.
  intros Hty Hsq Hlen Hu.
  rewrite PresuiteHandshake.deserialize_message_bytes by assumption.
  destruct Hu as [->|[->|[->|Hu]]]; try reflexivity.
  destruct ty as [|[[[[]|[]|]|[[]|[]|]|]|[[]|[]|]|]|]; try reflexivity; lia.
Qed.

Lemma unknown_type_is_rejected_witness :
  Message.deserialize Sample.indet
    (message_bytes MessageType.RESUME_REQUEST 1 [65; 66; 67])
  = Throw (ProtocolException "Unknown message type").
Proof.
  apply (unknown_type_is_rejected Sample.indet MessageType.RESUME_REQUEST 1 [65; 66; 67]);
    try (vm_compute; split; congruence).
  right. left. reflexivity.
Defined.

End FramingFacts.
(** ** More on the ciphers and the engines *)

Module SuiteFacts.
Import StreamFacts CipherFacts EngineFacts.

Lemma three_suites_round_trip_witness :
  snd <$> CryptoEngine.decrypt
            (CryptoEngine.FastSecurityEngine
               (XorCipher.update_key (XorCipher.ctor Sample.random)))
            (snd (CryptoEngine.encrypt
                    (CryptoEngine.FastSecurityEngine (XorCipher.ctor Sample.random))
                    Sample.random [65; 66; 67]))
  = Ok [65; 66; 67].
Proof.
  apply (three_suites_round_trip
           (CryptoEngine.FastSecurityEngine (XorCipher.ctor Sample.random))
           (CryptoEngine.FastSecurityEngine
              (XorCipher.update_key (XorCipher.ctor Sample.random)))
           Sample.random [65; 66; 67]).
  - reflexivity.
  - vm_compute. congruence.
Defined.

(** What encryption adds to a message: the HIGH and AES-256-GCM engines
    twenty-eight bytes (nonce or IV, and tag), the AES engine its sixteen-byte
    IV, the FAST engine nothing. *)
Theorem ciphertext_overhead (e : CryptoEngine.t) (random b : list Z) :
  length (snd (CryptoEngine.encrypt e random b))
  = (length b +
     match e with
     | CryptoEngine.HighSecurityEngine _ => 28
     | CryptoEngine.FastSecurityEngine _ => 0
     | CryptoEngine.AesSecurityEngine _ => 16
     | CryptoEngine.GpuSecurityEngine _ => 28
     end)%nat.
Proof.
  destruct e as [c|c|c|c]; cbn [CryptoEngine.encrypt snd].
  - unfold ChaCha20Poly1305.encrypt.
    rewrite !length_app, length_array_of, length_chacha_encrypt, length_compute_tag.
    unfold ChaCha20Poly1305.NONCE_SIZE, ChaCha20Poly1305.TAG_SIZE. lia.
  - destruct (XorCipher.process (XorCipher.reset c) b) as [c' out] eqn:E.
    cbn [snd]. change out with (snd (c', out)). rewrite <- E.
    unfold XorCipher.process. rewrite length_xor_loop by lia. lia.
  - rewrite length_app, length_array_of, length_aes_process.
    unfold AesCtr.IV_SIZE. lia.
  - unfold Aes256GcmGpu.encrypt.
    rewrite !length_app, length_array_of, length_aes_process, length_simple_tag.
    unfold Aes256GcmGpu.IV_SIZE, Aes256GcmGpu.TAG_SIZE. lia.
Qed.

(** *** The FAST suite *)

Lemma xor_stream_same_key k i (x y : list Z) :
  length x = length y ->
  zip_with Z.lxor (xor_stream k i x) (xor_stream k i y) = zip_with Z.lxor x y.
Proof.
  revert i y. induction x as [|a x IH]; intros i [|b y] Hl; try discriminate;
    [reflexivity|].
  cbn [xor_stream zip_with]. f_equal.
  - rewrite Z.lxor_assoc, (Z.lxor_comm (k i)), Z.lxor_assoc, Z.lxor_nilpotent,
      Z.lxor_0_r. reflexivity.
  - apply IH. now injection Hl.
Qed.

Lemma xor_loop_same_key fuel c (a b : list Z) :
  length a = length b -> (length a <= fuel)%nat ->
  zip_with Z.lxor (snd (XorCipher.process_loop fuel c a))
                  (snd (XorCipher.process_loop fuel c b))
  = zip_with Z.lxor a b.
Proof.
  revert c a b. induction fuel as [|fuel IH]; intros c a b Hl Hf.
  - destruct a, b; try discriminate; [reflexivity|cbn in Hf; lia].
  - destruct a as [|a0 a], b as [|b0 b]; try discriminate; [reflexivity|].
    cbn [XorCipher.process_loop].
    set (x := a0 :: a) in *. set (y := b0 :: b) in *.
    assert (Hd : length (drop XorCipher.CHUNK_SIZE x)
                 = length (drop XorCipher.CHUNK_SIZE y))
      by (rewrite !length_drop; lia).
    assert (Ht : length (take XorCipher.CHUNK_SIZE x)
                 = length (take XorCipher.CHUNK_SIZE y))
      by (rewrite !length_take; lia).
    assert (Hsplit : zip_with Z.lxor x y
                     = zip_with Z.lxor (take XorCipher.CHUNK_SIZE x)
                                       (take XorCipher.CHUNK_SIZE y)
                       ++ zip_with Z.lxor (drop XorCipher.CHUNK_SIZE x)
                                          (drop XorCipher.CHUNK_SIZE y)).
    { rewrite <- zip_with_app by exact Ht. now rewrite !take_drop. }
    destruct (drop XorCipher.CHUNK_SIZE x) as [|rx0 rx] eqn:Ex,
             (drop XorCipher.CHUNK_SIZE y) as [|ry0 ry] eqn:Ey; try discriminate.
    + cbn [snd]. rewrite Hsplit, app_nil_r. now apply xor_stream_same_key.
    + specialize (IH (XorCipher.update_key c) (rx0 :: rx) (ry0 :: ry) Hd).
      destruct (XorCipher.process_loop fuel _ (rx0 :: rx)) as [ca outa].
      destruct (XorCipher.process_loop fuel _ (ry0 :: ry)) as [cb outb].
      cbn [snd] in *. rewrite Hsplit.
      rewrite zip_with_app by (now rewrite !length_xor_stream).
      rewrite xor_stream_same_key by exact Ht. f_equal. apply IH.
      assert (length (drop XorCipher.CHUNK_SIZE x) <= fuel)%nat.
      { rewrite length_drop. subst x. cbn [length] in *.
        unfold XorCipher.CHUNK_SIZE. lia. }
      now rewrite Ex in *.
Qed.

(** The FAST engine resets its cipher before every message and takes
    nothing from the random source: two messages of one length encrypted
    under one key, in whatever state the cipher objects are, differ exactly
    where the plaintexts differ (the xor of the ciphertexts is the xor of
    the plaintexts). *)
Theorem fast_suite_reuses_its_key_stream
    (sender sender' : XorCipher.t) (random random' a b : list Z) :
  XorCipher.base_key_ sender = XorCipher.base_key_ sender' ->
  length a = length b ->
  zip_with Z.lxor
    (snd (CryptoEngine.encrypt (CryptoEngine.FastSecurityEngine sender) random a))
    (snd (CryptoEngine.encrypt (CryptoEngine.FastSecurityEngine sender') random' b))
  = zip_with Z.lxor a b.
Proof.
  intros Hk Hl. cbn [CryptoEngine.encrypt].
  assert (Hr : XorCipher.reset sender' = XorCipher.reset sender)
    by (unfold XorCipher.reset; now rewrite Hk).
  rewrite Hr.
  pose proof (xor_loop_same_key (length a) (XorCipher.reset sender) a b Hl
                ltac:(lia)) as H.
  unfold XorCipher.process. rewrite <- Hl.
  destruct (XorCipher.process_loop (length a) _ a) as [ca outa].
  destruct (XorCipher.process_loop (length a) _ b) as [cb outb].
  exact H.
Qed.

Lemma fast_suite_reuses_its_key_stream_witness :
  zip_with Z.lxor
    (snd (CryptoEngine.encrypt
            (CryptoEngine.FastSecurityEngine (XorCipher.ctor Sample.random))
            Sample.random [65; 66; 67]))
    (snd (CryptoEngine.encrypt
            (CryptoEngine.FastSecurityEngine
               (XorCipher.update_key (XorCipher.ctor Sample.random)))
            [] [97; 98; 99]))
  = [32; 32; 32].
Proof.
  apply (fast_suite_reuses_its_key_stream
           (XorCipher.ctor Sample.random)
           (XorCipher.update_key (XorCipher.ctor Sample.random))
           Sample.random [] [65; 66; 67] [97; 98; 99]); reflexivity.
Defined.

(** [process_chunk] rolls the key on after every chunk, by a rule that does
    not look at the data: a receiver that starts from the sender's key and
    puts the sender's chunks through [process_chunk] in order gets the
    plaintext chunks back. *)
Theorem chunk_stream_round_trip (a b : XorCipher.t) (chunks : list (list Z)) :
  XorCipher.base_key_ a = XorCipher.base_key_ b ->
  snd (XorCipher.process_chunks (XorCipher.reset b)
         (snd (XorCipher.process_chunks (XorCipher.reset a) chunks)))
  = chunks.
Proof.
  intros Hk.
  assert (Hr : XorCipher.reset b = XorCipher.reset a)
    by (unfold XorCipher.reset; now rewrite Hk).
  rewrite Hr. generalize (XorCipher.reset a). clear.
  induction chunks as [|chunk chunks IH]; intros c; [reflexivity|].
  cbn [XorCipher.process_chunks XorCipher.process_chunk].
  specialize (IH (XorCipher.update_key c)).
  destruct (XorCipher.process_chunks (XorCipher.update_key c) chunks)
    as [c1 outs] eqn:E1.
  cbn [snd XorCipher.process_chunks XorCipher.process_chunk] in *.
  destruct (XorCipher.process_chunks (XorCipher.update_key c) outs)
    as [c2 back] eqn:E2.
  cbn [snd] in *. now rewrite xor_stream_involutive, IH.
Qed.

Lemma chunk_stream_round_trip_witness :
  snd (XorCipher.process_chunks
         (XorCipher.reset (XorCipher.update_key (XorCipher.ctor Sample.random)))
         (snd (XorCipher.process_chunks
                 (XorCipher.reset (XorCipher.ctor Sample.random))
                 [[65; 66]; [67]; []; [68; 69; 70]])))
  = [[65; 66]; [67]; []; [68; 69; 70]].
Proof.
  apply (chunk_stream_round_trip
           (XorCipher.ctor Sample.random)
           (XorCipher.update_key (XorCipher.ctor Sample.random))
           [[65; 66]; [67]; []; [68; 69; 70]]).
  reflexivity.
Defined.

(** *** Key derivation from a password *)

Lemma lxor_pair_mask x y a b m :
  Z.lxor (Z.lxor x (Z.lxor a m)) (Z.lxor y (Z.lxor b m))
  = Z.lxor (Z.lxor x y) (Z.lxor a b).
Proof.
  apply Z.bits_inj'. intros n _. rewrite !Z.lxor_spec.
  destruct (Z.testbit x n), (Z.testbit y n), (Z.testbit a n), (Z.testbit b n),
    (Z.testbit m n); reflexivity.
Qed.

Lemma lxor_same_mask a b m : Z.lxor (Z.lxor a m) (Z.lxor b m) = Z.lxor a b.
Proof.
  apply Z.bits_inj'. intros n _. rewrite !Z.lxor_spec.
  destruct (Z.testbit a n), (Z.testbit b n), (Z.testbit m n); reflexivity.
Qed.

Lemma derive_round_alike r odd delta s1 s2 :
  mixed_alike odd delta s1 s2 ->
  mixed_alike (negb odd) delta (derive_round r s1) (derive_round r s2).
Proof.
  destruct s1 as [d1 k1], s2 as [d2 k2]. unfold mixed_alike, derive_round.
  cbn [fst snd]. intros (Hd & Hk & Hdata & Hkey).
  rewrite !length_imap. split; [exact Hd|]. split; [exact Hk|]. split.
  - intros i x y. rewrite !list_lookup_imap.
    destruct (d1 !! i) as [a|] eqn:Ea; [|discriminate].
    destruct (d2 !! i) as [b|] eqn:Eb; [|discriminate].
    cbn. intros [= <-] [= <-]. rewrite lxor_same_mask. now apply (Hdata i).
  - intros i x y. rewrite !list_lookup_imap.
    destruct (k1 !! i) as [a|] eqn:Ea; [|discriminate].
    destruct (k2 !! i) as [b|] eqn:Eb; [|discriminate].
    cbn. intros [= <-] [= <-]. specialize (Hkey i a b Ea Eb).
    rewrite <- Hd.
    destruct (decide (i < length d1)%nat) as [Hi|Hi].
    + rewrite bool_decide_eq_true_2 in * by exact Hi.
      unfold at_. rewrite !nth_lookup, !list_lookup_imap.
      destruct (lookup_lt_is_Some_2 d1 i Hi) as [u Hu].
      destruct (lookup_lt_is_Some_2 d2 i ltac:(lia)) as [v Hv].
      rewrite Hu, Hv. cbn. rewrite lxor_pair_mask, Hkey, (Hdata i u v Hu Hv).
      destruct odd; cbn; [apply Z.lxor_nilpotent|apply Z.lxor_0_l].
    + rewrite bool_decide_eq_false_2 in * by exact Hi.
      rewrite Hkey. now destruct odd.
Qed.

Lemma derive_rounds_alike rs odd delta s1 s2 :
  mixed_alike odd delta s1 s2 ->
  mixed_alike (xorb odd (Nat.odd (length rs))) delta
    (fold_left (fun st round => derive_round (Z.of_nat round) st) rs s1)
    (fold_left (fun st round => derive_round (Z.of_nat round) st) rs s2).
Proof.
  revert odd s1 s2. induction rs as [|r rs IH]; intros odd s1 s2 H.
  - cbn. now rewrite xorb_false_r.
  - cbn [fold_left length]. rewrite Nat.odd_succ, <- Nat.negb_odd.
    replace (xorb odd (negb (Nat.odd (length rs))))
      with (xorb (negb odd) (Nat.odd (length rs)))
      by (destruct odd, (Nat.odd (length rs)); reflexivity).
    apply IH. now apply derive_round_alike.
Qed.

Lemma derive_rounds_length_only rounds key_size fallback p q :
  Nat.odd rounds = false ->
  String.length p = String.length q ->
  derive_rounds rounds key_size fallback p = derive_rounds rounds key_size fallback q.
Proof.
  intros Heven Hl. unfold derive_rounds.
  set (step := fun st round => derive_round (Z.of_nat round) st).
  pose proof (derive_rounds_alike (seq 0 rounds) false
                (fun i => Z.lxor (at_ (bytes_of_string p) i) (at_ (bytes_of_string q) i))
                (bytes_of_string p, replicate key_size 0)
                (bytes_of_string q, replicate key_size 0)) as H.
  rewrite length_seq, Heven in H. cbn [xorb] in H.
  fold step in H.
  destruct (fold_left step (seq 0 rounds) (bytes_of_string p, _)) as [d1 k1].
  destruct (fold_left step (seq 0 rounds) (bytes_of_string q, _)) as [d2 k2].
  assert (Hinit : mixed_alike false
            (fun i => Z.lxor (at_ (bytes_of_string p) i) (at_ (bytes_of_string q) i))
            (bytes_of_string p, replicate key_size 0)
            (bytes_of_string q, replicate key_size 0)).
  { unfold mixed_alike. cbn [fst snd]. repeat split.
    - now rewrite !length_bytes_of_string.
    - intros i x y Hx Hy. unfold at_. rewrite !nth_lookup, Hx, Hy. reflexivity.
    - intros i x y Hx Hy. apply lookup_replicate in Hx as [-> _].
      apply lookup_replicate in Hy as [-> _]. reflexivity. }
  destruct (H Hinit) as (_ & Hk & _ & Hkey). cbn [fst snd andb] in *.
  assert (k1 = k2) as ->; [|reflexivity].
  apply list_eq. intros i.
  destruct (k1 !! i) as [x|] eqn:Ex, (k2 !! i) as [y|] eqn:Ey.
  - f_equal. apply Z.lxor_eq. now apply (Hkey i).
  - apply lookup_lt_Some in Ex. apply lookup_ge_None in Ey. lia.
  - apply lookup_lt_Some in Ey. apply lookup_ge_None in Ex. lia.
  - reflexivity.
Qed.

(** [XorCipher::derive_key] xors the password into the key once a round for
    an even number of rounds, so the password's characters cancel: the key
    depends on the length of the password and on nothing else. *)
Theorem xor_derive_key_ignores_the_characters (p q : string) :
  String.length p = String.length q ->
  XorCipher.derive_key p = XorCipher.derive_key q.
Proof. apply derive_rounds_length_only. reflexivity. Qed.

Lemma xor_derive_key_ignores_the_characters_witness :
  XorCipher.derive_key "hunter2" = XorCipher.derive_key "letmein".
Proof.
  apply (xor_derive_key_ignores_the_characters "hunter2" "letmein"). reflexivity.
Defined.

(** The same holds of [AesCtr::derive_key] with its ten thousand rounds. *)
Theorem aes_derive_key_ignores_the_characters (p q : string) :
  String.length p = String.length q ->
  AesCtr.derive_key p = AesCtr.derive_key q.
Proof. apply derive_rounds_length_only. vm_compute. reflexivity. Qed.

Lemma aes_derive_key_ignores_the_characters_witness :
  AesCtr.derive_key "hunter2" = AesCtr.derive_key "letmein".
Proof.
  apply (aes_derive_key_ignores_the_characters "hunter2" "letmein"). reflexivity.
Defined.

End SuiteFacts.
(** ** Tags, IVs and keys *)

Module KeyFacts.
Import StreamFacts CipherFacts EngineFacts.

(** The HIGH engine checks the tag before it decrypts: a frame whose
    sixteen tag bytes were replaced by anything else is refused. *)
Theorem high_engine_refuses_a_changed_tag
    (c : ChaCha20Poly1305.t) (random b forged : list Z) :
  let out := snd (CryptoEngine.encrypt (CryptoEngine.HighSecurityEngine c) random b) in
  length forged = ChaCha20Poly1305.TAG_SIZE ->
  forged <> last_n ChaCha20Poly1305.TAG_SIZE out ->
  CryptoEngine.decrypt (CryptoEngine.HighSecurityEngine c)
    (but_last_n ChaCha20Poly1305.TAG_SIZE out ++ forged)
  = Throw (CryptoException "Authentication failed").
Proof.
  intros out Hf Hne. subst out. cbn [CryptoEngine.encrypt snd] in *.
  unfold ChaCha20Poly1305.encrypt in *.
  set (nonce := array_of ChaCha20Poly1305.NONCE_SIZE random) in *.
  set (ct := ChaCha20.encrypt _ b) in *.
  set (tag := ChaCha20Poly1305.compute_tag c nonce [] ct) in *.
  assert (Hn : length nonce = ChaCha20Poly1305.NONCE_SIZE) by apply length_array_of.
  assert (Ht : length tag = ChaCha20Poly1305.TAG_SIZE) by apply length_compute_tag.
  rewrite !app_assoc in *.
  rewrite last_n_app in Hne by exact Ht.
  rewrite but_last_n_app by exact Ht.
  cbn [CryptoEngine.decrypt].
  destruct (decide _) as [Hlt|_].
  { exfalso. revert Hlt. rewrite !length_app, Hn, Hf. lia. }
  rewrite <- app_assoc.
  rewrite take_app_length', drop_app_length' by (symmetry; exact Hn).
  rewrite last_n_app by exact Hf.
  unfold ChaCha20Poly1305.decrypt.
  destruct (decide _) as [Hlt|_].
  { exfalso. revert Hlt. rewrite length_app, Hf. lia. }
  rewrite but_last_n_app by exact Hf. fold tag.
  destruct (decide (tag = forged)) as [Heq|_]; [congruence|reflexivity].
Qed.

Lemma high_engine_refuses_a_changed_tag_witness :
  CryptoEngine.decrypt
    (CryptoEngine.HighSecurityEngine (ChaCha20Poly1305.ctor Sample.random))
    (but_last_n ChaCha20Poly1305.TAG_SIZE
       (snd (CryptoEngine.encrypt
               (CryptoEngine.HighSecurityEngine (ChaCha20Poly1305.ctor Sample.random))
               Sample.random [65; 66; 67]))
     ++ replicate 16 0)
  = Throw (CryptoException "Authentication failed").
Proof.
  apply (high_engine_refuses_a_changed_tag
           (ChaCha20Poly1305.ctor Sample.random) Sample.random [65; 66; 67]
           (replicate 16 0)).
  - reflexivity.
  - vm_compute. congruence.
Defined.

(** [Aes256GcmGpu::decrypt] given the whole output of [encrypt], tag
    included, returns the plaintext, whatever is passed for its [tag]
    parameter: the cipher object itself round-trips. *)
Theorem gcm_cipher_round_trip
    (c : Aes256GcmGpu.t) (plaintext iv tag ad ad' : list Z) :
  Aes256GcmGpu.decrypt c (Aes256GcmGpu.encrypt c plaintext iv ad) iv tag ad'
  = Ok plaintext.
Proof.
  unfold Aes256GcmGpu.decrypt, Aes256GcmGpu.encrypt.
  set (iv' := array_of Aes256GcmGpu.IV_SIZE iv).
  set (ct := AesCtr.process _ plaintext _).
  set (t := Aes256GcmGpu.simple_tag c iv' ct).
  assert (Ht : length t = Aes256GcmGpu.TAG_SIZE) by apply length_simple_tag.
  destruct (decide _) as [Hlt|_].
  { exfalso. revert Hlt. rewrite length_app, Ht. lia. }
  rewrite but_last_n_app, last_n_app by exact Ht. fold t.
  destruct (decide (t = t)) as [_|Hne]; [|congruence].
  unfold ct. now rewrite aes_process_involutive.
Qed.

(** [AesCtr::process] copies the sixteen IV bytes into the counter block and
    then writes the block counter over the last eight: only the first eight
    bytes of the IV reach the cipher. *)
Theorem aes_ctr_uses_half_the_iv
    (c : AesCtr.t) (data head tail tail' : list Z) :
  length head = 8%nat ->
  AesCtr.process c data (head ++ tail) = AesCtr.process c data (head ++ tail').
Proof.
  intros Hh. unfold AesCtr.process. destruct data as [|d data]; [reflexivity|].
  assert (Hgen : forall fuel iv iv' counter l,
            take 8 iv = take 8 iv' ->
            AesCtr.process_loop fuel c iv counter l
            = AesCtr.process_loop fuel c iv' counter l).
  { induction fuel as [|fuel IH]; intros iv iv' counter l Hiv; [reflexivity|].
    cbn [AesCtr.process_loop]. destruct l as [|x l]; [reflexivity|].
    rewrite Hiv. f_equal. now apply IH. }
  apply Hgen. unfold array_of, AesCtr.IV_SIZE.
  rewrite !take_take. cbn [Nat.min].
  rewrite <- !app_assoc, !take_app_length' by (symmetry; exact Hh). reflexivity.
Qed.

Lemma aes_ctr_uses_half_the_iv_witness :
  AesCtr.process (AesCtr.ctor AesCtr.encrypt_block_software Sample.random)
    [65; 66; 67] ([1; 2; 3; 4; 5; 6; 7; 8] ++ [9; 10; 11; 12; 13; 14; 15; 16])
  = AesCtr.process (AesCtr.ctor AesCtr.encrypt_block_software Sample.random)
      [65; 66; 67] ([1; 2; 3; 4; 5; 6; 7; 8] ++ [0; 0; 0; 0; 0; 0; 0; 0]).
Proof.
  apply (aes_ctr_uses_half_the_iv
           (AesCtr.ctor AesCtr.encrypt_block_software Sample.random)
           [65; 66; 67] [1; 2; 3; 4; 5; 6; 7; 8]).
  reflexivity.
Defined.

(** *** Keys written in hexadecimal *)

Lemma hex_pair_of_byte (n : nat) :
  (n < 256)%nat ->
  let s := String (Utils.hex_char (Z.of_nat n / 16))
             (String (Utils.hex_char (Z.of_nat n mod 16)) EmptyString) in
  Utils.stoi16 s = Ok (Z.of_nat n) /\
  CryptoEngine.stoul16 s = Ok (Z.of_nat n).
Proof.
  intros Hn.
  do 256 (destruct n as [|n]; [vm_compute; split; reflexivity|]).
  lia.
Qed.

Lemma hex_pair_of_uint8 b :
  is_uint8 b ->
  let s := String (Utils.hex_char (b / 16))
             (String (Utils.hex_char (b mod 16)) EmptyString) in
  Utils.stoi16 s = Ok b /\ CryptoEngine.stoul16 s = Ok b.
Proof.
  intros Hb. unfold is_uint8 in Hb. change (2 ^ 8) with 256 in Hb.
  pose proof (hex_pair_of_byte (Z.to_nat b) ltac:(lia)) as H.
  rewrite Z2Nat.id in H by lia. exact H.
Qed.

Lemma length_to_hex_string data :
  String.length (Utils.to_hex_string data) = (2 * length data)%nat.
Proof.
  induction data as [|b data IH]; [reflexivity|].
  cbn [Utils.to_hex_string fold_right String.length length].
  fold (Utils.to_hex_string data). rewrite IH. lia.
Qed.

(** [from_hex_string] undoes [to_hex_string]. *)
Theorem hex_string_round_trip (data : list Z) :
  Forall is_uint8 data ->
  Utils.from_hex_string (Utils.to_hex_string data) = Ok data.
Proof.
  induction 1 as [|b data Hb Hdata IH]; [reflexivity|].
  cbn [Utils.to_hex_string fold_right Utils.from_hex_string].
  destruct (hex_pair_of_uint8 b Hb) as [-> _]. cbn [mbind result_bind].
  fold (Utils.to_hex_string data). rewrite IH. cbn [mbind result_bind].
  unfold uint8. rewrite Z.mod_small by exact Hb. reflexivity.
Qed.

Lemma hex_string_round_trip_witness :
  Utils.from_hex_string (Utils.to_hex_string [0; 10; 171; 255]) = Ok [0; 10; 171; 255].
Proof.
  apply (hex_string_round_trip [0; 10; 171; 255]).
  repeat constructor; vm_compute; congruence.
Defined.

Lemma substring_all s : substring 0 (String.length s) s = s.
Proof. induction s as [|c s IH]; cbn; [reflexivity|now rewrite IH]. Qed.

Lemma substring_pair i data b :
  data !! i = Some b ->
  substring (i * 2) 2 (Utils.to_hex_string data)
  = String (Utils.hex_char (b / 16)) (String (Utils.hex_char (b mod 16)) EmptyString).
Proof.
  revert i. induction data as [|b0 data IH]; intros i Hi; [discriminate|].
  cbn [Utils.to_hex_string fold_right]. fold (Utils.to_hex_string data).
  destruct i as [|i].
  - injection Hi as ->. cbn. now destruct (Utils.to_hex_string data).
  - cbn [Nat.mul Nat.add substring]. now apply IH.
Qed.

Lemma mapM_pairs (f : nat -> result Z) (key : list Z) n start :
  (forall i b, key !! i = Some b -> f i = Ok b) ->
  (start + n <= length key)%nat ->
  mapM f (seq start n) = Ok (take n (drop start key)).
Proof.
  intros Hf. revert start. induction n as [|n IH]; intros start Hn; [reflexivity|].
  cbn [seq mapM].
  destruct (lookup_lt_is_Some_2 key start ltac:(lia)) as [b Hb].
  rewrite (Hf start b Hb). cbn [mbind result_bind].
  rewrite IH by lia. cbn [mbind result_bind mret result_ret].
  rewrite (drop_S _ _ _ Hb). reflexivity.
Qed.

Lemma strip_0x h :
  let s := String "0" (String "x" h) in
  h <> EmptyString ->
  (if decide (2 < String.length s)%nat
   then if String.eqb (substring 0 2 s) "0x"
        then substring 2 (String.length s - 2) s else s
   else s) = h.
Proof.
  intros s Hh. subst s. cbn [String.length].
  destruct (decide _) as [_|Hn].
  - cbn [substring]. replace (substring 0 0 h) with EmptyString by (now destruct h).
    cbn [String.eqb Ascii.eqb Bool.eqb andb].
    replace (S (S (String.length h)) - 2)%nat with (String.length h) by lia.
    apply substring_all.
  - exfalso. destruct h; [congruence|cbn in Hn; lia].
Qed.

Lemma to_hex_string_nonempty key :
  length key = 32%nat -> Utils.to_hex_string key <> EmptyString.
Proof. destruct key; [discriminate|]. intros _. cbn. discriminate. Qed.

Lemma key_of_printed_key class key :
  length key = 32%nat -> Forall is_uint8 key ->
  CryptoEngine.key_of_password class ("0x" +:+ Utils.to_hex_string key) = Ok key.
Proof.
  intros Hl Hb. unfold CryptoEngine.key_of_password.
  change ("0x" +:+ Utils.to_hex_string key)
    with (String "0" (String "x" (Utils.to_hex_string key))).
  cbv zeta. rewrite (strip_0x _ (to_hex_string_nonempty key Hl)).
  rewrite length_to_hex_string, Hl.
  destruct (decide _) as [Hn|_]; [exfalso; cbn in Hn; lia|].
  rewrite (mapM_pairs _ key 32 0).
  - rewrite drop_0, take_ge by lia. reflexivity.
  - intros i b Hi. rewrite (substring_pair i key b Hi).
    assert (Hbyte : is_uint8 b).
    { rewrite Forall_lookup in Hb. now apply (Hb i). }
    destruct (hex_pair_of_uint8 b Hbyte) as [_ ->].
    cbn [fmap result_fmap]. unfold uint8. now rewrite Z.mod_small by exact Hbyte.
  - lia.
Qed.

(** The key string the key generator prints, ["0x"] followed by
    [to_hex_string] of thirty-two bytes, is read back to those bytes by the
    constructor of each of the four engines and by the legacy
    initialisation of server and client. *)
Theorem printed_key_is_read_back (routine : AesCtr.BlockRoutine) (key : list Z) :
  length key = 32%nat -> Forall is_uint8 key ->
  let secret := "0x" +:+ Utils.to_hex_string key in
  legacy_crypto secret = Ok (Some (ChaCha20Poly1305.ctor key)) /\
  CryptoEngine.create_crypto_engine routine SecurityLevel.HIGH secret
  = Ok (CryptoEngine.HighSecurityEngine (ChaCha20Poly1305.ctor key)) /\
  CryptoEngine.create_crypto_engine routine SecurityLevel.FAST secret
  = Ok (CryptoEngine.FastSecurityEngine (XorCipher.ctor key)) /\
  CryptoEngine.create_crypto_engine routine SecurityLevel.AES secret
  = Ok (CryptoEngine.AesSecurityEngine (AesCtr.ctor routine key)) /\
  CryptoEngine.create_crypto_engine routine SecurityLevel.AES_256_GCM secret
  = Ok (CryptoEngine.GpuSecurityEngine (Aes256GcmGpu.ctor routine key)).
Proof.
  intros Hl Hb secret. split.
  - unfold legacy_crypto, secret.
    change ("0x" +:+ Utils.to_hex_string key)
      with (String "0" (String "x" (Utils.to_hex_string key))).
    destruct (decide _) as [Hn|_]; [discriminate|].
    cbv zeta. rewrite (strip_0x _ (to_hex_string_nonempty key Hl)).
    rewrite length_to_hex_string, Hl.
    destruct (decide _) as [Hn|_]; [exfalso; cbn in Hn; lia|].
    rewrite hex_string_round_trip by exact Hb. cbn [mbind result_bind].
    rewrite take_ge by (unfold ChaCha20Poly1305.KEY_SIZE; lia). reflexivity.
  - unfold CryptoEngine.create_crypto_engine, SecurityLevel.HIGH, SecurityLevel.FAST,
      SecurityLevel.AES, SecurityLevel.AES_256_GCM, secret.
    rewrite !key_of_printed_key by assumption. repeat split.
Qed.

Lemma printed_key_is_read_back_witness :
  let key := map Z.of_nat (seq 0 32) in
  let secret := "0x" +:+ Utils.to_hex_string key in
  legacy_crypto secret = Ok (Some (ChaCha20Poly1305.ctor key)) /\
  CryptoEngine.create_crypto_engine AesCtr.encrypt_block_software
    SecurityLevel.HIGH secret
  = Ok (CryptoEngine.HighSecurityEngine (ChaCha20Poly1305.ctor key)) /\
  CryptoEngine.create_crypto_engine AesCtr.encrypt_block_software
    SecurityLevel.FAST secret
  = Ok (CryptoEngine.FastSecurityEngine (XorCipher.ctor key)) /\
  CryptoEngine.create_crypto_engine AesCtr.encrypt_block_software
    SecurityLevel.AES secret
  = Ok (CryptoEngine.AesSecurityEngine
          (AesCtr.ctor AesCtr.encrypt_block_software key)) /\
  CryptoEngine.create_crypto_engine AesCtr.encrypt_block_software
    SecurityLevel.AES_256_GCM secret
  = Ok (CryptoEngine.GpuSecurityEngine
          (Aes256GcmGpu.ctor AesCtr.encrypt_block_software key)).
Proof.
  apply (printed_key_is_read_back AesCtr.encrypt_block_software
           (map Z.of_nat (seq 0 32))).
  - reflexivity.
  - apply Forall_forall. intros b Hb.
    apply list_elem_of_In, in_map_iff in Hb as (n & <- & Hn).
    apply in_seq in Hn. unfold is_uint8. lia.
Defined.

End KeyFacts.
(** ** Files: reading back, creating, naming *)

Module FileFacts.
Import HandlerFacts.

Lemma write_file_chunk_cwd fs path offset data :
  FileSystem.cwd (fst (FileManager.write_file_chunk fs path offset data))
  = FileSystem.cwd fs.
Proof.
  unfold FileManager.write_file_chunk.
  set (fs1 := FileManager.create_if_missing fs _).
  assert (Hcwd : FileSystem.cwd fs1 = FileSystem.cwd fs)
    by apply create_if_missing_cwd.
  cbv zeta.
  repeat (first [ progress cbn [fst FileSystem.cwd FileSystem.set_node]
                | destruct (decide _)
                | destruct (FileSystem.can_create _ _)
                | destruct (FileSystem.status _ _) as [[?|]|]
                | destruct (FileSystem.lookup _ _) as [[?|]|] ]);
    exact Hcwd.
Qed.

Lemma read_write_at content offset data :
  take (length data) (drop offset (FileSystem.write_at content offset data)) = data.
Proof.
  unfold FileSystem.write_at. destruct data as [|d0 data]; [reflexivity|].
  set (d := d0 :: data).
  assert (Hl : length (take offset (content ++ replicate (offset - length content) 0))
               = offset).
  { rewrite length_take, length_app, length_replicate. lia. }
  rewrite drop_app_length' by (symmetry; exact Hl).
  now rewrite take_app_length' by reflexivity.
Qed.

(** What [write_file_chunk] wrote at [offset], [read_file_chunk] reads
    back from [offset]. *)
Theorem chunk_written_is_read_back
    (fs : FileSystem.t) (path : string) (offset : Z) (data : list Z) :
  FileSystem.can_create
    (FileManager.create_if_missing fs (FileManager.get_directory path)) path = true ->
  0 <= offset < 2 ^ 63 ->
  exists fs',
    FileManager.write_file_chunk fs path offset data = (fs', Ok ()) /\
    FileManager.read_file_chunk fs' path offset (length data) = Ok data.
Proof.
  intros Hcan Hoff.
  destruct (write_file_chunk_result fs path offset data Hcan Hoff)
    as (fs' & Hw & Hl & _).
  exists fs'. split; [exact Hw|].
  pose proof (write_file_chunk_cwd fs path offset data) as Hcwd.
  rewrite Hw in Hcwd. cbn [fst] in Hcwd.
  unfold FileManager.read_file_chunk, FileSystem.status. rewrite Hcwd, Hl.
  unfold FileSystem.can_create in Hcan.
  rewrite !andb_true_iff, !negb_true_iff in Hcan.
  destruct Hcan as [[[-> _] _] _].
  destruct (decide _) as [Hbad|_]; [lia|]. f_equal.
  destruct (offset =? 0) eqn:E.
  - apply Z.eqb_eq in E. subst offset. cbn [Z.to_nat drop]. apply firstn_all.
  - apply read_write_at.
Qed.

Lemma chunk_written_is_read_back_witness :
  exists fs',
    FileManager.write_file_chunk Sample.fs "/tmp/out/part.bin" 4 [5; 6] = (fs', Ok ()) /\
    FileManager.read_file_chunk fs' "/tmp/out/part.bin" 4 2 = Ok [5; 6].
Proof.
  apply (chunk_written_is_read_back Sample.fs "/tmp/out/part.bin" 4 [5; 6]).
  - vm_compute. reflexivity.
  - vm_compute. split; congruence.
Defined.

(** [create_file] leaves a regular file of [size] zero bytes at the path,
    which [is_transfer_complete] then reports as complete for that size. *)
Theorem created_file_is_zero_filled (fs : FileSystem.t) (path : string) (size : Z) :
  FileSystem.can_create
    (FileManager.create_if_missing fs (FileManager.get_directory path)) path = true ->
  0 <= size < 2 ^ 63 ->
  exists fs',
    FileManager.create_file fs path size = (fs', Ok ()) /\
    FileSystem.status fs' path
    = Some (FileSystem.File (replicate (Z.to_nat size) 0)) /\
    FileManager.is_transfer_complete fs' path size = Ok true.
Proof.
  intros Hcan Hsize. unfold FileManager.create_file.
  set (fs1 := FileManager.create_if_missing fs _) in *.
  rewrite Hcan. eexists. split; [reflexivity|].
  assert (Hst : FileSystem.status
                  (FileSystem.set_node fs1 (Path.resolve (FileSystem.cwd fs1) path)
                     (FileSystem.File
                        (if decide (0 < size)
                         then if decide (2 ^ 63 <= size - 1) then []
                              else FileSystem.write_at [] (Z.to_nat (size - 1)) [0]
                         else []))) path
                = Some (FileSystem.File (replicate (Z.to_nat size) 0))).
  { unfold FileSystem.status.
    unfold FileSystem.can_create in Hcan.
    rewrite !andb_true_iff, !negb_true_iff in Hcan.
    destruct Hcan as [[[Hsep Hkey] _] _]. apply bool_decide_eq_false_1 in Hkey.
    match goal with
    | |- context [FileSystem.cwd (FileSystem.set_node fs1 ?k ?n)] =>
        change (FileSystem.cwd (FileSystem.set_node fs1 k n))
          with (FileSystem.cwd fs1)
    end.
    rewrite lookup_set_node_eq by exact Hkey. rewrite Hsep. do 2 f_equal.
    destruct (decide (0 < size)) as [Hpos|Hz].
    - destruct (decide _) as [Hbad|_]; [lia|].
      unfold FileSystem.write_at. cbn [length].
      rewrite app_nil_l, drop_nil, app_nil_r, Nat.sub_0_r.
      rewrite take_ge by (rewrite length_replicate; lia).
      replace (Z.to_nat size) with (Z.to_nat (size - 1) + 1)%nat by lia.
      now rewrite replicate_add.
    - replace size with 0 by lia. reflexivity. }
  split; [exact Hst|].
  unfold FileManager.is_transfer_complete, FileManager.exists_, FileManager.file_size.
  rewrite Hst. rewrite bool_decide_eq_true_2 by (now eexists).
  cbn [negb mbind result_bind]. rewrite length_replicate, Z2Nat.id by lia.
  now rewrite Z.eqb_refl.
Qed.

Lemma created_file_is_zero_filled_witness :
  exists fs',
    FileManager.create_file Sample.fs "/tmp/out/new/blank.bin" 3 = (fs', Ok ()) /\
    FileSystem.status fs' "/tmp/out/new/blank.bin"
    = Some (FileSystem.File [0; 0; 0]) /\
    FileManager.is_transfer_complete fs' "/tmp/out/new/blank.bin" 3 = Ok true.
Proof.
  apply (created_file_is_zero_filled Sample.fs "/tmp/out/new/blank.bin" 3).
  - vm_compute. reflexivity.
  - vm_compute. split; congruence.
Defined.

Lemma Forall_drop_while {A} (P : A -> Prop) f (l : list A) :
  Forall P l -> Forall P (drop_while f l).
Proof.
  induction 1 as [|x l Hx Hl IH]; cbn; [constructor|].
  destruct (f x); [exact IH|now constructor].
Qed.

Lemma length_string_of_list_ascii l :
  String.length (string_of_list_ascii l) = length l.
Proof. induction l as [|c l IH]; cbn; [reflexivity|now rewrite IH]. Qed.

(** [sanitize_filename] never returns an empty name, never one of more
    than 255 characters, and never one that holds a character of the class
    it replaces. *)
Theorem sanitized_name_is_usable (filename : string) :
  FileManager.sanitize_filename filename <> "" /\
  (String.length (FileManager.sanitize_filename filename) <= 255)%nat /\
  Forall (fun c => FileManager.dangerous_char c = false)
         (list_ascii_of_string (FileManager.sanitize_filename filename)).
Proof.
  unfold FileManager.sanitize_filename.
  set (replaced := map _ (list_ascii_of_string filename)).
  set (trimmed := rev (drop_while _ (rev (drop_while _ replaced)))).
  set (final := match trimmed with
                | [] => list_ascii_of_string "unnamed_file"
                | _ => trimmed
                end).
  assert (Hne : final <> []).
  { subst final. destruct trimmed; discriminate. }
  assert (Hsafe : Forall (fun c => FileManager.dangerous_char c = false) final).
  { assert (Hr : Forall (fun c => FileManager.dangerous_char c = false) replaced).
    { subst replaced. apply Forall_map, Forall_forall. intros c _. cbn.
      destruct (FileManager.dangerous_char c) eqn:E; [reflexivity|exact E]. }
    assert (Ht : Forall (fun c => FileManager.dangerous_char c = false) trimmed).
    { subst trimmed. apply Forall_rev, Forall_drop_while, Forall_rev,
        Forall_drop_while, Hr. }
    subst final. destruct trimmed; [|exact Ht].
    repeat constructor. }
  split; [|split].
  - destruct final as [|c final']; [congruence|]. cbn. discriminate.
  - rewrite length_string_of_list_ascii, length_take. lia.
  - rewrite list_ascii_of_string_of_list_ascii. now apply Forall_take.
Qed.

End FileFacts.
(** ** The server's handshake and what it refuses *)

Module ServerFacts.
Import ConnectionHandler MessageFacts.

Lemma receive_before_handshake h i m :
  handshake_completed_ h = false ->
  valid_message m ->
  receive_message h i (Message.serialize m) = Ok (h, as_received i m).
Proof.
  intros Hf Hv. unfold receive_message. rewrite Hf. cbn [andb mbind result_bind].
  now rewrite deserialize_serialize.
Qed.

(** A connection whose first frame is anything but a HandshakeRequest is
    dropped at once, whatever the configuration: nothing is written back and
    nothing on disk changes. *)
Theorem handshake_must_come_first
    (routine : AesCtr.BlockRoutine) (config : ServerConfig.t)
    (crypto : option ChaCha20Poly1305.t) (fs : FileSystem.t)
    (ev : Event) (events : list Event) (m : Message.t) :
  valid_message m ->
  ev_data ev = Message.serialize m ->
  Message.class_type (Message.body m) <> MessageType.HANDSHAKE_REQUEST ->
  handle routine (ctor config crypto) fs ev events
  = (ctor config crypto, fs, Closed (ProtocolException "Invalid handshake request")).
Proof.
  intros Hv Hd Hty. unfold handle, perform_handshake.
  rewrite Hd, receive_before_handshake by (reflexivity || assumption).
  cbn [mbind result_bind]. unfold as_received. cbn [Message.body].
  destruct (Message.body m); try reflexivity. now contradict Hty.
Qed.

Lemma handshake_must_come_first_witness :
  handle AesCtr.encrypt_block_software (ctor Sample.config_keyed None) Sample.fs
    (Sample.received (Message.serialize (Sample.file_request "/tmp/out/hello.bin" 0)))
    [Sample.received (Message.serialize (Sample.file_data 0 [65; 66; 67]))]
  = (ctor Sample.config_keyed None, Sample.fs,
     Closed (ProtocolException "Invalid handshake request")).
Proof.
  apply (handshake_must_come_first AesCtr.encrypt_block_software
           Sample.config_keyed None Sample.fs
           (Sample.received
              (Message.serialize (Sample.file_request "/tmp/out/hello.bin" 0)))
           [Sample.received (Message.serialize (Sample.file_data 0 [65; 66; 67]))]
           (Sample.file_request "/tmp/out/hello.bin" 0)).
  - unfold valid_message. cbn. repeat split; try congruence; lia.
  - reflexivity.
  - vm_compute. congruence.
Defined.

(** A server that does not ask for authentication checks nothing about the
    suite the client names: any byte is taken as the negotiated level and
    sent back in the HandshakeResponse, together with the version string and
    [authentication_required] as configured. *)
Theorem any_suite_byte_is_accepted_without_auth
    (routine : AesCtr.BlockRoutine) (config : ServerConfig.t)
    (crypto : option ChaCha20Poly1305.t) (ev : Event) (m : Message.t)
    (request : HandshakeRequest.t) :
  valid_message m ->
  ev_data ev = Message.serialize m ->
  Message.body m = BHandshakeRequest request ->
  ServerConfig.require_auth config
  && negb (bool_decide (ServerConfig.secret_key config = "")) = false ->
  exists h,
    perform_handshake routine (ctor config crypto) ev = Ok h /\
    handshake_completed_ h = true /\
    negotiated_security_level_ h = HandshakeRequest.security_level request /\
    crypto_engine_ h = None /\
    map (fun w => Message.body (w_message w)) (client_socket_ h)
    = [BHandshakeResponse
         {| HandshakeResponse.server_version := "NetCopy v1.0.0";
            HandshakeResponse.server_nonce := array_of 16 (ev_nonce ev);
            HandshakeResponse.authentication_required :=
              ServerConfig.require_auth config;
            HandshakeResponse.accepted_security_level :=
              HandshakeRequest.security_level request |}].
Proof.
  intros Hv Hd Hb Hc. unfold perform_handshake.
  rewrite Hd, receive_before_handshake by (reflexivity || assumption).
  cbn [mbind result_bind]. unfold as_received. cbn [Message.body]. rewrite Hb.
  cbn [config_ set_negotiated_security_level_ ctor]. rewrite Hc.
  cbn [mbind result_bind].
  eexists. split; [reflexivity|].
  destruct (SessionFacts.send_message_shape
              (set_negotiated_security_level_ (ctor config crypto)
                 (HandshakeRequest.security_level request))
              (ev_random ev)
              (Message.make (ev_indet ev)
                 (BHandshakeResponse
                    {| HandshakeResponse.server_version := Utils.get_version_string;
                       HandshakeResponse.server_nonce := array_of 16 (ev_nonce ev);
                       HandshakeResponse.authentication_required :=
                         ServerConfig.require_auth config;
                       HandshakeResponse.accepted_security_level :=
                         HandshakeRequest.security_level request |})))
    as (e' & w & Hs & He & _ & Hm & _).
  cbn [config_ negotiated_security_level_ set_negotiated_security_level_ ctor] in *.
  rewrite Hs. cbn. rewrite Hm. repeat split.
  destruct e'; [|reflexivity].
  rewrite bool_decide_eq_true_2 in He by (now eexists).
  rewrite bool_decide_eq_false_2 in He by (intros [? ?]; discriminate).
  discriminate.
Qed.

Lemma any_suite_byte_is_accepted_without_auth_witness :
  exists h,
    perform_handshake AesCtr.encrypt_block_software (ctor Sample.config_open None)
      (Sample.received (Message.serialize (Sample.handshake_request 200)))
    = Ok h /\
    handshake_completed_ h = true /\
    negotiated_security_level_ h = 200 /\
    crypto_engine_ h = None /\
    map (fun w => Message.body (w_message w)) (client_socket_ h)
    = [BHandshakeResponse
         {| HandshakeResponse.server_version := "NetCopy v1.0.0";
            HandshakeResponse.server_nonce := array_of 16 Sample.random;
            HandshakeResponse.authentication_required := false;
            HandshakeResponse.accepted_security_level := 200 |}].
Proof.
  apply (any_suite_byte_is_accepted_without_auth AesCtr.encrypt_block_software
           Sample.config_open None
           (Sample.received (Message.serialize (Sample.handshake_request 200)))
           (Sample.handshake_request 200)
           {| HandshakeRequest.client_version := "NetCopy v1.0.0";
              HandshakeRequest.client_nonce := Sample.random;
              HandshakeRequest.security_level := 200 |}).
  - unfold valid_message. cbn. repeat split; try congruence; lia.
  - reflexivity.
  - reflexivity.
  - reflexivity.
Defined.

(** A server that asks for authentication and has a key builds the engine
    for the level the client names before it replies: a level beyond the four
    suites ends the connection with no reply at all. *)
Theorem unknown_suite_closes_the_connection
    (routine : AesCtr.BlockRoutine) (config : ServerConfig.t)
    (crypto : option ChaCha20Poly1305.t) (fs : FileSystem.t)
    (ev : Event) (events : list Event) (m : Message.t)
    (request : HandshakeRequest.t) :
  valid_message m ->
  ev_data ev = Message.serialize m ->
  Message.body m = BHandshakeRequest request ->
  ServerConfig.require_auth config = true ->
  ServerConfig.secret_key config <> "" ->
  3 < HandshakeRequest.security_level request ->
  handle routine (ctor config crypto) fs ev events
  = (ctor config crypto, fs, Closed (runtime_error "Unsupported security level")).
Proof.
  intros Hv Hd Hb Ha Hk Hl. unfold handle, perform_handshake.
  rewrite Hd, receive_before_handshake by (reflexivity || assumption).
  cbn [mbind result_bind]. unfold as_received. cbn [Message.body]. rewrite Hb.
  cbn [config_ negotiated_security_level_ set_negotiated_security_level_ ctor].
  rewrite Ha, bool_decide_eq_false_2 by exact Hk. cbn [andb negb].
  unfold CryptoEngine.create_crypto_engine.
  destruct (HandshakeRequest.security_level request) as [|[[]|[]|]|];
    try lia; reflexivity.
Qed.

Lemma unknown_suite_closes_the_connection_witness :
  handle AesCtr.encrypt_block_software (ctor Sample.config_keyed None) Sample.fs
    (Sample.received (Message.serialize (Sample.handshake_request 4))) []
  = (ctor Sample.config_keyed None, Sample.fs,
     Closed (runtime_error "Unsupported security level")).
Proof.
  apply (unknown_suite_closes_the_connection AesCtr.encrypt_block_software
           Sample.config_keyed None Sample.fs
           (Sample.received (Message.serialize (Sample.handshake_request 4))) []
           (Sample.handshake_request 4)
           {| HandshakeRequest.client_version := "NetCopy v1.0.0";
              HandshakeRequest.client_nonce := Sample.random;
              HandshakeRequest.security_level := 4 |}).
  - unfold valid_message. cbn. repeat split; try congruence; lia.
  - reflexivity.
  - reflexivity.
  - reflexivity.
  - vm_compute. congruence.
  - vm_compute. reflexivity.
Defined.

(** A destination that is not absolute once its separators are converted
    is refused whether or not it lies under an allowed base: the response
    reports failure, nothing is created and [current_file_path_] keeps its
    value. *)
Theorem relative_destination_is_refused
    (h : t) (fs : FileSystem.t) (ev : Event) (request : FileRequest.t) :
  Utils.is_absolute_path
    (Utils.convert_to_native_path (FileRequest.destination_path request)) = false ->
  exists message,
    handle_file_request h fs ev request
    = (send_message h (ev_random ev)
         (Message.make (ev_indet ev)
            (BFileResponse
               {| FileResponse.success := false;
                  FileResponse.error_message := message;
                  FileResponse.file_size := ind_u64 (ev_indet ev);
                  FileResponse.resume_offset := ind_u64' (ev_indet ev) |})),
       fs).
Proof.
  intros Hrel. unfold handle_file_request, file_request_try, resolve_path.
  rewrite Hrel.
  destruct (negb _); eexists; reflexivity.
Qed.

Lemma relative_destination_is_refused_witness :
  exists message,
    handle_file_request Sample.open_handler Sample.fs (Sample.received [])
      {| FileRequest.source_path := "/home/user/hello.bin";
         FileRequest.destination_path := "../tmp/out/hello.bin";
         FileRequest.recursive := false;
         FileRequest.resume_offset := 0 |}
    = (send_message Sample.open_handler Sample.random
         (Message.make Sample.indet
            (BFileResponse
               {| FileResponse.success := false;
                  FileResponse.error_message := message;
                  FileResponse.file_size := 9;
                  FileResponse.resume_offset := 11 |})),
       Sample.fs).
Proof.
  apply (relative_destination_is_refused Sample.open_handler Sample.fs
           (Sample.received [])
           {| FileRequest.source_path := "/home/user/hello.bin";
              FileRequest.destination_path := "../tmp/out/hello.bin";
              FileRequest.recursive := false;
              FileRequest.resume_offset := 0 |}).
  reflexivity.
Defined.

End ServerFacts.
